(** * npminit: the project-scaffolding wizard

    A shallow embedding of [main.go] (the bubbletea model, its [Update]
    function and [main]) and of the helper file that holds the commands
    ([setupProject], [extraDependencies], [installDependency], [runAudit],
    [severityStatus]), together with the properties of the wizard that the
    specification states. *)

From Stdlib Require Import ZArith String Ascii Bool List Lia.
From stdpp Require Import base option list strings gmap.

Local Open Scope string_scope.
Local Open Scope list_scope.
Local Open Scope Z_scope.

(** ** Go's [int]

    [int] is taken at 64 bits; [x++] and [x--] wrap around. *)

Definition int_min : Z := - 2 ^ 63.
Definition int_max : Z := 2 ^ 63 - 1.

Definition wrap_int (z : Z) : Z := (z + 2 ^ 63) mod 2 ^ 64 - 2 ^ 63.

(** ** Data model ([main.go]) *)

Inductive PageNumber :=
| Page1View
| Page2View
| Page3View
| Page4View
| Page5View.

Record Dependency := mkDependency {
  name : string;
  selected : bool;
  devDependency : bool;
  installing : bool;
  installed : bool
}.

(** The composite literal [Dependency{name: n, selected: s, devDependency: d}]:
    the fields left out take their zero value. *)
Definition newDependency (n : string) (s d : bool) : Dependency :=
  {| name := n; selected := s; devDependency := d;
     installing := false; installed := false |}.

Record Vulnerabilities := mkVulnerabilities {
  Info : Z;
  Low : Z;
  Moderate : Z;
  High : Z;
  Critical : Z;
  VTotal : Z
}.

Record DependencyCounts := mkDependencyCounts {
  Prod : Z;
  Dev : Z;
  Optional : Z;
  Peer : Z;
  PeerOptional : Z;
  DTotal : Z
}.

Record npmAuditJSON := mknpmAuditJSON {
  MetadataVulnerabilities : Vulnerabilities;
  MetadataDependencies : DependencyCounts
}.

(** The zero value of [npmAuditJSON] ([var audit npmAuditJSON]). *)
Definition zeroAudit : npmAuditJSON :=
  {| MetadataVulnerabilities := mkVulnerabilities 0 0 0 0 0 0;
     MetadataDependencies := mkDependencyCounts 0 0 0 0 0 0 |}.

(** The model.  [textinput] keeps the value of the text field; the spinner
    and the stopwatch are widgets of the UI library whose state no transition
    reads, so they are left out. *)
Record Model := mkModel {
  view : PageNumber;
  dependencies : list Dependency;
  audit : npmAuditJSON;
  projectPath : string;
  installCount : Z;
  cursor : Z;
  error : string;
  textinput : string
}.

Definition set_view (v : PageNumber) (m : Model) : Model :=
  mkModel v (dependencies m) (audit m) (projectPath m) (installCount m)
          (cursor m) (error m) (textinput m).
Definition set_dependencies (ds : list Dependency) (m : Model) : Model :=
  mkModel (view m) ds (audit m) (projectPath m) (installCount m)
          (cursor m) (error m) (textinput m).
Definition set_audit (a : npmAuditJSON) (m : Model) : Model :=
  mkModel (view m) (dependencies m) a (projectPath m) (installCount m)
          (cursor m) (error m) (textinput m).
Definition set_projectPath (p : string) (m : Model) : Model :=
  mkModel (view m) (dependencies m) (audit m) p (installCount m)
          (cursor m) (error m) (textinput m).
Definition set_installCount (n : Z) (m : Model) : Model :=
  mkModel (view m) (dependencies m) (audit m) (projectPath m) n
          (cursor m) (error m) (textinput m).
Definition set_cursor (c : Z) (m : Model) : Model :=
  mkModel (view m) (dependencies m) (audit m) (projectPath m) (installCount m)
          c (error m) (textinput m).
Definition set_error (e : string) (m : Model) : Model :=
  mkModel (view m) (dependencies m) (audit m) (projectPath m) (installCount m)
          (cursor m) e (textinput m).
Definition set_textinput (t : string) (m : Model) : Model :=
  mkModel (view m) (dependencies m) (audit m) (projectPath m) (installCount m)
          (cursor m) (error m) t.

Definition set_selected (b : bool) (d : Dependency) : Dependency :=
  mkDependency (name d) b (devDependency d) (installing d) (installed d).
Definition set_installing (b : bool) (d : Dependency) : Dependency :=
  mkDependency (name d) (selected d) (devDependency d) b (installed d).
Definition set_installed (b : bool) (d : Dependency) : Dependency :=
  mkDependency (name d) (selected d) (devDependency d) (installing d) b.

(** ** Messages and commands *)

(** The key types [Update] tells apart; [KeyRunes] carries typed text. *)
Inductive KeyType :=
| KeyEsc | KeyCtrlC | KeyCtrlD | KeyEnter
| KeySpace | KeyLeft | KeyRight | KeyUp | KeyDown
| KeyBackspace | KeyRunes | KeyOther.

Record Key := mkKey { Type_ : KeyType; Runes : string }.

Definition key (t : KeyType) : Key := mkKey t EmptyString.
Definition typed (s : string) : Key := mkKey KeyRunes s.

(** [tea.Msg] as the tagged union of the message shapes of the program.
    [LibMsg] stands for every message of the UI library that reaches the
    [default] case (spinner and stopwatch ticks, cursor blink, window size);
    [QuitMsg] is what [tea.Quit] returns. *)
Inductive Msg :=
| KeyMsg (k : Key)
| SetupMessage (p : string)
| ExtraDepsMessage (ds : list Dependency)
| InstallAllMsg
| OnInstalledMsg (index : Z)
| AuditMsg (a : npmAuditJSON)
| ErrorMsg (e : string)
| QuitMsg
| LibMsg.

(** The function literals [Update] returns.  Each one closes over [m], the
    copy of the model [Update] works on, as it is when [Update] returns.
    [lib_cmd] stands for a command made by a widget of the UI library. *)
Inductive Closure :=
| call_setupProject (m : Model)
| call_extraDependencies (m : Model)
| call_installDependency (m : Model) (i : Z)
| call_runAudit (m : Model)
| return_InstallAllMsg
| tea_Quit
| lib_cmd.

(** [tea.Cmd]: [nil], one function, [tea.Sequence] or [tea.Batch] of
    functions ([None] is a [nil] entry). *)
Inductive Cmd :=
| cmd_nil
| cmd_func (c : Closure)
| tea_Sequence (cs : list (option Closure))
| tea_Batch (cs : list (option Closure)).

(** ** The text field

    [m.textinput.Update(msg)] is the library's.  The program uses the field
    through its value only, as the name of the project, and the model keeps
    that value: typed text is put at the end and backspace takes the last
    character.  The field of the library also has a cursor of its own and
    editing keys (left, right, home, delete, Ctrl+U and others); these are
    not modelled, and for them the value stays here where the library may
    insert or delete elsewhere.  The sessions below type at the end only, and
    no other statement depends on which text the keys leave in the field. *)
Fixpoint drop_last (s : string) : string :=
  match s with
  | EmptyString => EmptyString
  | String c EmptyString => EmptyString
  | String c s' => String c (drop_last s')
  end.

Definition textinput_Update (v : string) (k : Key) : string :=
  match Type_ k with
  | KeyRunes => v +:+ Runes k
  | KeySpace => v +:+ " "
  | KeyBackspace => drop_last v
  | _ => v
  end.

(** ** [Update] *)

(** [ds[i]] for a Go [int] index: [None] is the index-out-of-range panic. *)
Definition index (ds : list Dependency) (i : Z) : option Dependency :=
  if 0 <=? i then ds !! Z.to_nat i else None.

(** [len(ds)] as a Go [int]. *)
Definition len (ds : list Dependency) : Z := Z.of_nat (length ds).

(** The condition of the install loop. *)
Definition installable (d : Dependency) : bool :=
  selected d && negb (installed d) && negb (installing d).

(** [for i := range m.dependencies { if ... { ... return } }]: the index at
    which the loop returns, if it does. *)
Fixpoint scan_from (i : nat) (ds : list Dependency) : option nat :=
  match ds with
  | [] => None
  | d :: ds' => if installable d then Some i else scan_from (S i) ds'
  end.

Definition is_cancel (t : KeyType) : bool :=
  match t with KeyEsc | KeyCtrlC | KeyCtrlD => true | _ => false end.

Definition is_toggle (t : KeyType) : bool :=
  match t with KeySpace | KeyLeft | KeyRight => true | _ => false end.

Definition eqb_page (a b : PageNumber) : bool :=
  match a, b with
  | Page1View, Page1View | Page2View, Page2View | Page3View, Page3View
  | Page4View, Page4View | Page5View, Page5View => true
  | _, _ => false
  end.

(** The [tea.KeyMsg] case.  [None] is a run-time panic. *)
Definition Update_key (m : Model) (k : Key) : option (Model * Cmd) :=
  if is_cancel (Type_ k) then Some (m, cmd_func tea_Quit)
  else if eqb_page (view m) Page1View then
    match Type_ k with
    | KeyEnter => Some (m, cmd_func (call_setupProject m))
    | _ => Some (set_textinput (textinput_Update (textinput m) k) m,
                 cmd_func lib_cmd)
    end
  else if eqb_page (view m) Page2View then
    if is_toggle (Type_ k) then
      match index (dependencies m) (cursor m) with
      | None => None
      | Some d =>
          let d' := if selected d then set_selected false d
                    else set_selected true d in
          Some (set_dependencies
                  (<[Z.to_nat (cursor m) := d']> (dependencies m)) m, cmd_nil)
      end
    else
      match Type_ k with
      | KeyUp =>
          Some (if 0 <? cursor m then set_cursor (wrap_int (cursor m - 1)) m
                else m, cmd_nil)
      | KeyDown =>
          Some (if cursor m <? len (dependencies m) - 1
                then set_cursor (wrap_int (cursor m + 1)) m
                else m, cmd_nil)
      | KeyEnter =>
          let m1 := set_view Page3View m in
          Some (m1, cmd_func (call_extraDependencies m1))
      | _ => Some (m, cmd_nil)
      end
  else Some (m, cmd_nil).

Definition Update (m : Model) (msg : Msg) : option (Model * Cmd) :=
  match msg with
  | KeyMsg k => Update_key m k
  | SetupMessage p =>
      Some (set_view Page2View (set_projectPath p m), cmd_nil)
  | ExtraDepsMessage ds =>
      Some (set_dependencies (dependencies m ++ ds) m,
            tea_Sequence [Some lib_cmd; Some return_InstallAllMsg])
  | InstallAllMsg =>
      match scan_from 0 (dependencies m) with
      | Some i =>
          let m1 := set_dependencies
                      (alter (set_installing true) i (dependencies m)) m in
          Some (m1, cmd_func (call_installDependency m1 (Z.of_nat i)))
      | None =>
          let m1 := set_view Page4View m in
          Some (m1, cmd_func (call_runAudit m1))
      end
  | OnInstalledMsg i =>
      match index (dependencies m) i with
      | None => None
      | Some d =>
          let d' := set_installed true (set_installing false d) in
          Some (set_installCount (wrap_int (installCount m + 1))
                  (set_dependencies
                     (<[Z.to_nat i := d']> (dependencies m)) m),
                cmd_func return_InstallAllMsg)
      end
  | AuditMsg a =>
      Some (set_view Page5View (set_audit a m),
            tea_Sequence [None; Some lib_cmd; Some tea_Quit])
  | ErrorMsg e =>
      Some (set_error e m, cmd_func tea_Quit)
  | QuitMsg | LibMsg =>
      Some (m, tea_Batch [Some lib_cmd; Some lib_cmd])
  end.

Definition initialModel : Model :=
  {| view := Page1View;
     dependencies :=
       [ newDependency "typescript" true true;
         newDependency "react" true false;
         newDependency "kysely" true false;
         newDependency "esbuild" true true;
         newDependency "tailwindcss" true true;
         newDependency "nodemon" true true;
         newDependency "dotenv" true true ];
     audit := zeroAudit;
     projectPath := EmptyString;
     installCount := 0;
     cursor := 0;
     error := EmptyString;
     textinput := EmptyString |}.

(** ** Paths (Go's [path] package)

    [path.Join] and [path.Clean] work on slash-separated strings. *)

Definition slash : ascii := "/"%char.

(** [strings.Split(s, "/")]. *)
Fixpoint split_slash (s : string) : list string :=
  match s with
  | EmptyString => [EmptyString]
  | String c s' =>
      if Ascii.eqb c slash then EmptyString :: split_slash s'
      else match split_slash s' with
           | [] => [String c EmptyString]
           | x :: xs => String c x :: xs
           end
  end.

(** [strings.Join(elems, "/")]. *)
Fixpoint join_slash (elems : list string) : string :=
  match elems with
  | [] => EmptyString
  | [e] => e
  | e :: rest => e +:+ String slash (join_slash rest)
  end.

Definition rooted (s : string) : bool :=
  match s with
  | String c _ => Ascii.eqb c slash
  | EmptyString => false
  end.

(** One element of the path under [path.Clean]; [seen] holds the elements
    kept so far, last one first. *)
Definition clean_step (root : bool) (seen : list string) (c : string)
  : list string :=
  if String.eqb c EmptyString || String.eqb c "." then seen
  else if String.eqb c ".." then
    match seen with
    | top :: below => if String.eqb top ".." then c :: seen else below
    | [] => if root then [] else [c]
    end
  else c :: seen.

Definition path_Clean (s : string) : string :=
  let kept := rev (fold_left (clean_step (rooted s)) (split_slash s) []) in
  if rooted s then String slash (join_slash kept)
  else match kept with
       | [] => "."
       | _ => join_slash kept
       end.

Definition nonempty (s : string) : bool := negb (String.eqb s EmptyString).

(** [path.Join]: empty elements are ignored, the rest is joined with
    slashes and cleaned; no element at all gives the empty string. *)
Definition path_Join (elems : list string) : string :=
  match filter (fun e => nonempty e = true) elems with
  | [] => EmptyString
  | es => path_Clean (join_slash es)
  end.

(** ** The file system and the package manager, as the program sees them *)

(** The four [go:embed] payloads.  The program only copies them, so a
    payload is identified by the variable that holds it. *)
Inductive EmbeddedFile :=
| TailwindConfigJs
| EslintConfigJs
| EsbuildJs
| IndexTs.

Record packageJSON := mkpackageJSON {
  pj_Name : string;
  pj_Author : string;
  pj_Description : string;
  pj_License : string;
  pj_Version : string;
  pj_Type : string
}.

Record CompilerOptions := mkCompilerOptions {
  co_Module : string;
  co_ModuleResolution : string;
  co_Target : string;
  co_ForceConsistentCasingInFileNames : bool;
  co_AllowUnreachableCode : bool;
  co_NoErrorTruncation : bool;
  co_EsModuleInterop : bool;
  co_IsolatedModules : bool;
  co_ResolveJSONModule : bool;
  co_SkipLibCheck : bool;
  co_Jsx : string;
  co_Strict : bool;
  co_NoEmit : bool;
  co_RootDir : string;
  co_OutDir : string
}.

Record tsconfigJSON := mktsconfigJSON {
  ts_CompilerOptions : CompilerOptions;
  ts_Include : list string;
  ts_Exclude : list string
}.

Definition generateTsconfigJSON : tsconfigJSON :=
  {| ts_CompilerOptions :=
       {| co_Module := "NodeNext";
          co_ModuleResolution := "NodeNext";
          co_Target := "ESNext";
          co_ForceConsistentCasingInFileNames := true;
          co_AllowUnreachableCode := false;
          co_NoErrorTruncation := false;
          co_EsModuleInterop := true;
          co_IsolatedModules := false;
          co_ResolveJSONModule := false;
          co_SkipLibCheck := false;
          co_Jsx := EmptyString;
          co_Strict := true;
          co_NoEmit := false;
          co_RootDir := EmptyString;
          co_OutDir := EmptyString |};
     ts_Include := ["src/**/*.*"];
     ts_Exclude := ["**/node_modules"; "**/.*/"] |}.

Definition generatePackageJSON (projectName : string) : packageJSON :=
  {| pj_Name := projectName; pj_Author := EmptyString; pj_Description := EmptyString;
     pj_License := EmptyString; pj_Version := "1.0.0"; pj_Type := "module" |}.

(** What [writeJson] accepts: [T packageJSON | tsconfigJSON]. *)
Inductive ConfigData :=
| PackageData (p : packageJSON)
| TsconfigData (t : tsconfigJSON).

(** What a file holds: the indented JSON text of a configuration value
    ([json.MarshalIndent], which does not fail on these two types), or the
    bytes of an embedded payload. *)
Inductive Content :=
| MarshalIndent (d : ConfigData)
| Bytes (f : EmbeddedFile).

Inductive Node :=
| File (c : Content)
| Dir.

(** What one run of an external process gives: the two captured streams and
    the error of [cmd.Run()], if any. *)
Record ProcResult := mkProcResult {
  p_stdout : string;
  p_stderr : string;
  p_error : option string
}.

(** The world outside the program: the working directory ([None] when it
    cannot be determined), the file tree, keyed by the elements of the
    absolute path (the root [[]] is a directory), what the external command
    of a given argument list and directory answers, and the error of the UI
    library when it cannot start the terminal, if any. *)
Record World := mkWorld {
  cwd : option string;
  files : gmap (list string) Node;
  run_process : list string -> string -> ProcResult;
  terminal_error : option string
}.

Definition set_files (fs : gmap (list string) Node) (w : World) : World :=
  mkWorld (cwd w) fs (run_process w) (terminal_error w).

(** Path resolution by the operating system, on the text of the path. *)
Definition walk_step (seen : list string) (c : string) : list string :=
  if String.eqb c EmptyString || String.eqb c "." then seen
  else if String.eqb c ".." then tail seen
  else c :: seen.

Definition walk (from : list string) (s : string) : list string :=
  rev (fold_left walk_step (split_slash s) (rev from)).

Definition resolve (w : World) (p : string) : option (list string) :=
  if String.eqb p EmptyString then None
  else if rooted p then Some (walk [] p)
  else match cwd w with
       | Some c => Some (walk (walk [] c) p)
       | None => None
       end.

Definition node_at (fs : gmap (list string) Node) (k : list string)
  : option Node :=
  match k with
  | [] => Some Dir
  | _ => fs !! k
  end.

Inductive Stat :=
| Found (n : Node)
| ENOENT
| ENOTDIR.

(** Looks up [above ++ below], going down from [above]. *)
Fixpoint stat_from (fs : gmap (list string) Node) (above below : list string)
  : Stat :=
  match below with
  | [] => match node_at fs above with
          | Some n => Found n
          | None => ENOENT
          end
  | c :: below' =>
      match node_at fs above with
      | Some Dir => stat_from fs (above ++ [c]) below'
      | Some (File _) => ENOTDIR
      | None => ENOENT
      end
  end.

Definition stat (fs : gmap (list string) Node) (k : list string) : Stat :=
  stat_from fs [] k.

(** The error of [os.Open], as far as the program tells errors apart. *)
Inductive OpenError :=
| open_ok
| ErrNotExist
| open_failed (e : string).

Definition os_Open (w : World) (p : string) : OpenError :=
  match resolve w p with
  | None => ErrNotExist
  | Some k =>
      match stat (files w) k with
      | Found _ => open_ok
      | ENOENT => ErrNotExist
      | ENOTDIR => open_failed ("open " +:+ p +:+ ": not a directory")
      end
  end.

(** [os.MkdirAll]: makes the missing directories from [above] down; stops
    at a regular file, leaving what it has made. *)
Fixpoint mkdir_from (fs : gmap (list string) Node) (above below : list string)
  : bool * gmap (list string) Node :=
  match node_at fs above with
  | Some (File _) => (false, fs)
  | here =>
      let fs' := match here with
                 | None => <[above := Dir]> fs
                 | _ => fs
                 end in
      match below with
      | [] => (true, fs')
      | c :: below' => mkdir_from fs' (above ++ [c]) below'
      end
  end.

(** Commands that act on the world and return a value. *)
Definition IO (A : Type) : Type := World -> A * World.

Definition ret {A} (a : A) : IO A := fun w => (a, w).
Definition bind {A B} (c : IO A) (k : A -> IO B) : IO B :=
  fun w => let (a, w') := c w in k a w'.

Notation "x <- c ;; k" := (bind c (fun x => k))
  (at level 100, c at next level, right associativity).

Definition os_Getwd : IO (string * option string) :=
  fun w => match cwd w with
           | Some c => ((c, None), w)
           | None => ((EmptyString, Some "getwd: no such file or directory"), w)
           end.

Definition os_MkdirAll (p : string) : IO (option string) :=
  fun w => match resolve w p with
           | None => (Some ("mkdir " +:+ p +:+ ": no such file or directory"), w)
           | Some k =>
               let (ok, fs') := mkdir_from (files w) [] k in
               (if ok then None
                else Some ("mkdir " +:+ p +:+ ": not a directory"),
                set_files fs' w)
           end.

(** [os.WriteFile]: the directory of the file must be there; the file is
    made or replaced. *)
Definition os_WriteFile (p : string) (data : Content) : IO (option string) :=
  fun w => match resolve w p with
           | None => (Some ("open " +:+ p +:+ ": no such file or directory"), w)
           | Some k =>
               match stat (files w) (removelast k) with
               | Found Dir =>
                   match node_at (files w) k with
                   | Some Dir => (Some ("open " +:+ p +:+ ": is a directory"), w)
                   | _ => (None, set_files (<[k := File data]> (files w)) w)
                   end
               | Found (File _) | ENOTDIR =>
                   (Some ("open " +:+ p +:+ ": not a directory"), w)
               | ENOENT =>
                   (Some ("open " +:+ p +:+ ": no such file or directory"), w)
               end
           end.

(** ** The commands (helper file) *)

Record ExecError := mkExecError {
  ee_stderr : string;
  ee_stdout : string;
  ee_error : option string
}.

Definition execOutput (args : list string) (dir : string)
  : IO (string * ExecError) :=
  fun w =>
    let r := run_process w args dir in
    match p_error r with
    | Some e => ((EmptyString, mkExecError (p_stderr r) (p_stdout r) (Some e)), w)
    | None => ((p_stdout r, mkExecError EmptyString EmptyString None), w)
    end.

Definition copyStaticFile (m : Model) (staticFile : EmbeddedFile)
  (fileName : string) : IO (option string) :=
  os_WriteFile (path_Join [projectPath m; fileName]) (Bytes staticFile).

Definition path_conflict (projectPath : string) : string :=
  "Unable to create project at " +:+ projectPath
  +:+ " directory already exists.".

Definition getProjectPath (projectName : string)
  : IO (string * option string) :=
  r <- os_Getwd ;;
  match snd r with
  | Some e => ret (EmptyString, Some e)
  | None =>
      let projectPath := path_Join [fst r; projectName] in
      fun w =>
        match os_Open w projectPath with
        | ErrNotExist =>
            (err <- os_MkdirAll (path_Join [projectPath; "src"]) ;;
             match err with
             | Some e => ret (EmptyString, Some e)
             | None => ret (projectPath, None)
             end) w
        | _ => ((EmptyString, Some (path_conflict projectPath)), w)
        end
  end.

Definition writeJson (dir fileName : string) (data : ConfigData)
  : IO (option string) :=
  os_WriteFile (path_Join [dir; fileName]) (MarshalIndent data).

(** [if err != nil { return ErrorMsg{error: err} }]. *)
Definition or_else (err : option string) (k : IO Msg) : IO Msg :=
  match err with
  | Some e => ret (ErrorMsg e)
  | None => k
  end.

Definition setupProject (m : Model) : IO Msg :=
  let packageJSON := generatePackageJSON (textinput m) in
  let tsconfigJSON := generateTsconfigJSON in
  r <- getProjectPath (textinput m) ;;
  or_else (snd r) (
  let projectPath := fst r in
  err <- writeJson projectPath "package.json" (PackageData packageJSON) ;;
  or_else err (
  err <- writeJson projectPath "tsconfig.json" (TsconfigData tsconfigJSON) ;;
  or_else err (
  err <- copyStaticFile m EslintConfigJs "eslintrc.cjs" ;;
  or_else err (
  err <- copyStaticFile m EslintConfigJs "esbuild.js" ;;
  or_else err (
  ret (SetupMessage projectPath)))))).

Definition react_extras : list Dependency :=
  [ newDependency "@types/react" true true;
    newDependency "@types/react-dom" true true;
    newDependency "eslint-plugin-react" true true;
    newDependency "@typescript-eslint/eslint-plugin" true true;
    newDependency "@typescript-eslint/parser" true true ].

Definition kysely_extras : list Dependency :=
  [ newDependency "@types/node" true true ].

(** [if cond { err := copyStaticFile(...); if err != nil { return ... } }]. *)
Definition copy_if (cond : bool) (m : Model) (f : EmbeddedFile)
  (fileName : string) : IO (option string) :=
  if cond then copyStaticFile m f fileName else ret None.

(** The loop of [extraDependencies] over what is left of [m.dependencies],
    with [deps] as gathered so far. *)
Fixpoint extraDependencies_from (m : Model) (rest deps : list Dependency)
  : IO Msg :=
  match rest with
  | [] => ret (ExtraDepsMessage deps)
  | dep :: rest' =>
      if negb (selected dep) then extraDependencies_from m rest' deps
      else
        err <- copy_if (String.eqb (name dep) "typescript")
                 m IndexTs "src/index.ts" ;;
        or_else err (
        err <- copy_if (String.eqb (name dep) "esbuild")
                 m EsbuildJs "esbuild.js" ;;
        or_else err (
        let deps1 := if String.eqb (name dep) "react"
                     then deps ++ react_extras else deps in
        let deps2 := if String.eqb (name dep) "kysely"
                     then deps1 ++ kysely_extras else deps1 in
        err <- copy_if (String.eqb (name dep) "tailwindcss")
                 m TailwindConfigJs "tailwind.config.js" ;;
        or_else err (
        extraDependencies_from m rest' deps2)))
  end.

Definition extraDependencies (m : Model) : IO Msg :=
  extraDependencies_from m (dependencies m) [].

Definition install_args (d : Dependency) : list string :=
  let args := ["npm"; "install"] in
  let args := if devDependency d then args ++ ["-D"] else args in
  args ++ [name d; "--color=always"].

(** [None] is the panic of [m.dependencies[i]] out of range. *)
Definition installDependency (m : Model) (i : Z) : IO (option Msg) :=
  match index (dependencies m) i with
  | None => ret None
  | Some d =>
      r <- execOutput (install_args d) (projectPath m) ;;
      match ee_error (snd r) with
      | Some e => ret (Some (ErrorMsg e))
      | None => ret (Some (OnInstalledMsg i))
      end
  end.

(** [json.Unmarshal] into an [npmAuditJSON]: the decoded value, or the
    error.  The decoder belongs to Go's library. *)
Class JSON := { json_Unmarshal : string -> npmAuditJSON + string }.

Definition runAudit `{JSON} (m : Model) : IO Msg :=
  r <- execOutput ["npm"; "audit"; "--json"] (projectPath m) ;;
  let data := fst r in
  let err := snd r in
  match ee_error err with
  | Some e =>
      match json_Unmarshal (ee_stdout err) with
      | inr jsonErr => ret (ErrorMsg e)
      | inl audit => ret (AuditMsg audit)
      end
  | None =>
      match json_Unmarshal data with
      | inr jsonErr => ret (ErrorMsg jsonErr)
      | inl audit => ret (AuditMsg audit)
      end
  end.

(** The terminal styling library and the colour table, which is declared
    outside the files at hand: [lipgloss_Render c s] is
    [lipgloss.NewStyle().Background(lipgloss.Color(c)).Render(s)]. *)
Class Style := {
  lipgloss_Render : string -> string -> string;
  tw_purple800 : string;
  tw_red600 : string;
  tw_orange400 : string;
  tw_amber400 : string;
  tw_neutral600 : string
}.

Definition severityStatus `{Style} (audit : npmAuditJSON) : string :=
  let v := MetadataVulnerabilities audit in
  if 0 <? Critical v then
    lipgloss_Render tw_purple800 "Severity: Critical" +:+ " "
  else if 0 <? High v then
    lipgloss_Render tw_red600 "Severity: High" +:+ " "
  else if 0 <? Moderate v then
    lipgloss_Render tw_orange400 "Severity: Moderate" +:+ " "
  else if 0 <? Low v then
    lipgloss_Render tw_amber400 "Severity: Low" +:+ " "
  else if 0 <? Info v then
    lipgloss_Render tw_neutral600 "Severity: Info" +:+ " "
  else EmptyString.

(** ** The event loop of the UI library and [main]

    [tea.NewProgram(model).Run()] keeps the model, hands every message to
    [Update], and runs each command [Update] returns on its own: a function
    is called and what it returns comes back as a message, a sequence calls
    its functions one after the other, a batch calls them independently.
    [QuitMsg] ends the loop. *)

Inductive Status :=
| Running
| Exited
| Panicked.

Record Sys := mkSys {
  model : Model;
  pending : list (list Closure);
  world : World;
  status : Status
}.

Definition run_closure `{JSON} (c : Closure) : IO (option Msg) :=
  match c with
  | call_setupProject m => msg <- setupProject m ;; ret (Some msg)
  | call_extraDependencies m => msg <- extraDependencies m ;; ret (Some msg)
  | call_installDependency m i => installDependency m i
  | call_runAudit m => msg <- runAudit m ;; ret (Some msg)
  | return_InstallAllMsg => ret (Some InstallAllMsg)
  | tea_Quit => ret (Some QuitMsg)
  | lib_cmd => ret (Some LibMsg)
  end.

Definition is_lib (c : Closure) : bool :=
  match c with lib_cmd => true | _ => false end.

(** The functions of a command that are the program's own.  Those of the
    library's widgets only send messages of the library, which [lib_event]
    below lets arrive at any time, so they are not kept. *)
Definition own (cs : list (option Closure)) : list Closure :=
  filter (fun c => is_lib c = false) (omap id cs).

(** The pieces of work a command becomes. *)
Definition spawn (c : Cmd) : list (list Closure) :=
  match c with
  | cmd_nil => []
  | cmd_func f => (fun f => [f]) <$> own [Some f]
  | tea_Sequence cs =>
      match own cs with
      | [] => []
      | fs => [fs]
      end
  | tea_Batch cs => (fun f => [f]) <$> own cs
  end.

(** A message reaches the loop. *)
Definition deliver (s : Sys) (msg : Msg) : Sys :=
  match msg with
  | QuitMsg => mkSys (model s) (pending s) (world s) Exited
  | _ =>
      match Update (model s) msg with
      | None => mkSys (model s) (pending s) (world s) Panicked
      | Some (m', c) =>
          mkSys m' (pending s ++ spawn c) (world s) (status s)
      end
  end.

(** What can happen next: a key is pressed, the library sends a message of
    its own, or the piece of work at place [n] calls its next function. *)
Inductive Event :=
| key_pressed (k : Key)
| lib_event
| finishes (n : nat).

Definition after_call (n : nat) (rest : list Closure)
  (ps : list (list Closure)) : list (list Closure) :=
  match rest with
  | [] => delete n ps
  | _ => <[n := rest]> ps
  end.

Definition step `{JSON} (s : Sys) (ev : Event) : Sys :=
  match status s with
  | Running =>
      match ev with
      | key_pressed k => deliver s (KeyMsg k)
      | lib_event => deliver s LibMsg
      | finishes n =>
          match pending s !! n with
          | None => s
          | Some [] => mkSys (model s) (delete n (pending s)) (world s) Running
          | Some (c :: rest) =>
              let (r, w') := run_closure c (world s) in
              let s1 := mkSys (model s) (after_call n rest (pending s)) w'
                              Running in
              match r with
              | None => mkSys (model s1) (pending s1) (world s1) Panicked
              | Some msg => deliver s1 msg
              end
          end
      end
  | _ => s
  end.

Definition run `{JSON} (s : Sys) (evs : list Event) : Sys :=
  fold_left step evs s.

(** [Init] returns the tick of the spinner. *)
Definition boot (w : World) : Sys :=
  mkSys initialModel (spawn (cmd_func lib_cmd)) w Running.

(** [program.Run()]: the last model and the error, once the loop has
    ended.  The loop returns no error when it ends on [QuitMsg]; the library
    returns one when it cannot start. *)
Definition program_Run `{JSON} (w : World) (evs : list Event)
  : option (Model * option string) :=
  match terminal_error w with
  | Some e => Some (initialModel, Some e)
  | None =>
      let s := run (boot w) evs in
      match status s with
      | Exited => Some (model s, None)
      | _ => None
      end
  end.

(** What the process leaves: its exit status and what it printed itself
    (not through the UI library) on the two standard streams. *)
Record Process := mkProcess {
  exit_code : Z;
  printed_stdout : list string;
  printed_stderr : list string
}.

Definition main `{JSON} (w : World) (evs : list Event) : option Process :=
  match program_Run w evs with
  | None => None
  | Some (_, Some err) => Some (mkProcess 1 [err] [])
  | Some (_, None) => Some (mkProcess 0 [] [])
  end.

(** ** Predicates of the specification *)

(** [installing] implies [selected] and not [installed]. *)
Definition installing_ok (d : Dependency) : bool :=
  implb (installing d) (selected d && negb (installed d)).

Definition count_installing (ds : list Dependency) : nat :=
  length (filter (fun d => installing d = true) ds).

Definition count_installed (ds : list Dependency) : nat :=
  length (filter (fun d => installed d = true) ds).

Definition count_selected (ds : list Dependency) : nat :=
  length (filter (fun d => selected d = true) ds).

Definition invariant1 (m : Model) : bool := forallb installing_ok (dependencies m).
Definition invariant2 (m : Model) : bool :=
  Nat.leb (count_installing (dependencies m)) 1.
Definition invariant3 (m : Model) : bool :=
  installCount m =? Z.of_nat (count_installed (dependencies m)).

Definition invariants (m : Model) : bool :=
  invariant1 m && invariant2 m && invariant3 m.

(** ** Instances of the library interfaces, for running the model *)

(** The audit document of the specification's example. *)
Definition dq : string := String (ascii_of_nat 34) EmptyString.

Definition field (k v : string) : string := dq +:+ k +:+ dq +:+ ":" +:+ v.

Definition object (fields : list string) : string :=
  "{" +:+ String.concat "," fields +:+ "}".

Definition sample_document : string :=
  object [field "metadata" (object
    [field "vulnerabilities" (object
       [field "info" "0"; field "low" "0"; field "moderate" "1";
        field "high" "0"; field "critical" "0"; field "total" "1"]);
     field "dependencies" (object
       [field "prod" "2"; field "dev" "3"; field "optional" "0";
        field "peer" "0"; field "peerOptional" "0"; field "total" "5"])])].

Definition sample_report : npmAuditJSON :=
  {| MetadataVulnerabilities := mkVulnerabilities 0 0 1 0 0 1;
     MetadataDependencies := mkDependencyCounts 2 3 0 0 0 5 |}.

(** A decoder that knows the example document only. *)
Definition sample_JSON : JSON :=
  {| json_Unmarshal := fun s =>
       if String.eqb s sample_document then inl sample_report
       else inr "invalid character" |}.

(** Styling switched off (as when the output is not a terminal), with the
    colour names of the Tailwind palette. *)
Definition plain_Style : Style :=
  {| lipgloss_Render := fun _ s => s;
     tw_purple800 := "#6b21a8";
     tw_red600 := "#dc2626";
     tw_orange400 := "#fb923c";
     tw_amber400 := "#fbbf24";
     tw_neutral600 := "#525252" |}.

(** A package manager whose every command succeeds and prints nothing. *)
Definition npm_ok (args : list string) (dir : string) : ProcResult :=
  mkProcResult EmptyString EmptyString None.

(** A machine with the directory [/home/user] and nothing in it. *)
Definition home : gmap (list string) Node :=
  <[ ["home"; "user"] := Dir ]> (<[ ["home"] := Dir ]> ∅).

Definition fresh_world : World :=
  mkWorld (Some "/home/user") home npm_ok None.

(** A machine on which every external command gives [r]. *)
Definition world_answering (r : ProcResult) : World :=
  mkWorld (Some "/home/user") home (fun _ _ => r) None.

(** One high and five moderate vulnerabilities. *)
Definition high_and_moderate : npmAuditJSON :=
  {| MetadataVulnerabilities := mkVulnerabilities 0 0 5 1 0 6;
     MetadataDependencies := mkDependencyCounts 2 3 0 0 0 5 |}.

(** The same machine with an entry [demo] already there. *)
Definition taken_world : World :=
  mkWorld (Some "/home/user") (<[ ["home"; "user"; "demo"] := Dir ]> home)
          npm_ok None.

(** The model once [demo] has been typed. *)
Definition demo_model : Model := set_textinput "demo" initialModel.

(** The machine after the setup of [demo]. *)
Definition demo_world : World := snd (setupProject demo_model fresh_world).

(** The model of the expander when only typescript and react are selected. *)
Definition typescript_and_react : Model :=
  set_view Page3View
    (set_projectPath "/home/user/demo"
       (set_dependencies
          [ newDependency "typescript" true true;
            newDependency "react" true false;
            newDependency "kysely" false false;
            newDependency "esbuild" false true;
            newDependency "tailwindcss" false true;
            newDependency "nodemon" false true;
            newDependency "dotenv" false true ] demo_model)).

(** A whole session: the name, the confirm key, the setup, the confirm key
    on the selection page, the expansion, the installs, the audit, the end. *)
Definition session : list Event :=
  [key_pressed (typed "demo"); key_pressed (key KeyEnter); finishes 0;
   key_pressed (key KeyEnter)] ++ repeat (finishes 0) 32.

(** A session in which a second name is confirmed before the first setup
    has come back. *)
Definition two_setups : list Event :=
  [key_pressed (typed "a"); key_pressed (key KeyEnter);
   key_pressed (typed "b"); key_pressed (key KeyEnter);
   finishes 0; key_pressed (key KeyEnter); finishes 0; finishes 0;
   finishes 0; key_pressed (key KeySpace)].

Definition two_setups_go_on : list Event :=
  two_setups ++ [key_pressed (key KeyEnter); finishes 1; finishes 1].

(** A session that runs into an entry that is already there. *)
Definition conflict : list Event :=
  [key_pressed (typed "demo"); key_pressed (key KeyEnter); finishes 0;
   finishes 0].

(** A session with the selection page left with esbuild deselected. *)
Definition without_esbuild : list Event :=
  [key_pressed (typed "demo"); key_pressed (key KeyEnter); finishes 0;
   key_pressed (key KeyDown); key_pressed (key KeyDown);
   key_pressed (key KeyDown); key_pressed (key KeySpace);
   key_pressed (key KeyEnter); finishes 0].

(** ** Running [Update] on a list of messages *)

(** The model after the messages, [None] if [Update] panics on the way. *)
Fixpoint feed (m : Model) (msgs : list Msg) : option Model :=
  match msgs with
  | [] => Some m
  | msg :: rest =>
      match Update m msg with
      | None => None
      | Some (m', _) => feed m' rest
      end
  end.

Definition is_move (t : KeyType) : bool :=
  match t with KeyUp | KeyDown => true | _ => false end.

(** The places of the cursor at which the toggle keys of [ks] arrive. *)
Fixpoint toggled (m : Model) (ks : list Key) : list Z :=
  match ks with
  | [] => []
  | k :: ks' =>
      match Update m (KeyMsg k) with
      | None => []
      | Some (m', _) =>
          if is_toggle (Type_ k) then cursor m :: toggled m' ks'
          else toggled m' ks'
      end
  end.

(** How many times [i] occurs in [l]. *)
Definition occurrences (i : Z) (l : list Z) : nat :=
  length (filter (fun j => j = i) l).

(** ** Severity, as the specification words it *)

Inductive Severity :=
| critical
| high
| moderate
| low
| info.

(** The strict priority order, highest first. *)
Definition by_priority : list Severity := [critical; high; moderate; low; info].

Definition count_of (v : Vulnerabilities) (s : Severity) : Z :=
  match s with
  | critical => Critical v
  | high => High v
  | moderate => Moderate v
  | low => Low v
  | info => Info v
  end.

(** The highest severity level with a nonzero count, if there is one. *)
Definition highest_nonzero (v : Vulnerabilities) : option Severity :=
  head (filter (fun s => count_of v s <> 0) by_priority).

Definition severity_name (s : Severity) : string :=
  match s with
  | critical => "Critical"
  | high => "High"
  | moderate => "Moderate"
  | low => "Low"
  | info => "Info"
  end.

Definition severity_colour `{Style} (s : Severity) : string :=
  match s with
  | critical => tw_purple800
  | high => tw_red600
  | moderate => tw_orange400
  | low => tw_amber400
  | info => tw_neutral600
  end.

(** An audit report holds counts: no field of the vulnerabilities is
    negative. *)
Definition counts (v : Vulnerabilities) : Prop :=
  0 <= Info v /\ 0 <= Low v /\ 0 <= Moderate v /\ 0 <= High v
  /\ 0 <= Critical v.

Definition is_ErrorMsg (msg : Msg) : bool :=
  match msg with ErrorMsg _ => true | _ => false end.

(** Whether [json.Unmarshal] takes the text. *)
Definition parses `{JSON} (doc : string) : bool :=
  match json_Unmarshal doc with inl _ => true | inr _ => false end.

(** The names of the selected entries, in the order of the list. *)
Definition selected_names (ds : list Dependency) : list string :=
  name <$> filter (fun d => selected d = true) ds.

(** ** Path elements *)

Fixpoint no_slash (s : string) : bool :=
  match s with
  | EmptyString => true
  | String c s' => negb (Ascii.eqb c slash) && no_slash s'
  end.

(** A file or directory name: not empty, not [.] or [..], no slash. *)
Definition plain_name (b : string) : bool :=
  no_slash b && negb (String.eqb b EmptyString) && negb (String.eqb b ".")
  && negb (String.eqb b "..").

(** The text that ends in the element [b]. *)
Definition ends_in (s b : string) : Prop :=
  exists before, split_slash s = before ++ [b].

(** ** The entries of the list *)

(** Neither being installed nor installed yet. *)
Definition idle (d : Dependency) : Prop :=
  installing d = false /\ installed d = false.

Definition count_installable (ds : list Dependency) : nat :=
  length (filter (fun d => installable d = true) ds).

(** A package manager whose every command succeeds. *)
Definition all_succeed (w : World) : Prop :=
  forall args dir, p_error (run_process w args dir) = None.

(** The loop at the start of the installs: the one piece of work is the
    function that returns [InstallAllMsg]. *)
Definition installing_starts (m : Model) (w : World) : Sys :=
  mkSys m [[return_InstallAllMsg]] w Running.

(** ** Runs of the event loop *)

(** The message an event brings to the loop, if it brings one. *)
Definition message_of `{JSON} (s : Sys) (ev : Event) : option Msg :=
  match status s with
  | Running =>
      match ev with
      | key_pressed k => Some (KeyMsg k)
      | lib_event => Some LibMsg
      | finishes n =>
          match pending s !! n with
          | Some (c :: _) => fst (run_closure c (world s))
          | _ => None
          end
      end
  | _ => None
  end.

Definition is_SetupMessage (msg : option Msg) : bool :=
  match msg with Some (SetupMessage _) => true | _ => false end.

(** How many times a [SetupMessage] reaches the loop during the events. *)
Fixpoint setups `{JSON} (s : Sys) (evs : list Event) : nat :=
  match evs with
  | [] => 0
  | ev :: evs' =>
      ((if is_SetupMessage (message_of s ev) then 1 else 0)
       + setups (step s ev) evs')%nat
  end.

(** The selection has been confirmed: the page is past the selection
    page. *)
Definition confirmed (m : Model) : bool :=
  negb (eqb_page (view m) Page1View) && negb (eqb_page (view m) Page2View).

(** How many times a [SetupMessage] reaches the loop after the selection
    has been confirmed. *)
Fixpoint late_setups `{JSON} (s : Sys) (evs : list Event) : nat :=
  match evs with
  | [] => 0
  | ev :: evs' =>
      ((if is_SetupMessage (message_of s ev) && confirmed (model s)
        then 1 else 0)
       + late_setups (step s ev) evs')%nat
  end.

(** The functions through which the installation goes on: the expander, the
    trigger of the sequencer, an install, the audit. *)
Definition is_chain (c : Closure) : bool :=
  match c with
  | call_extraDependencies _ | return_InstallAllMsg
  | call_installDependency _ _ | call_runAudit _ => true
  | _ => false
  end.

Definition chain_work (ps : list (list Closure)) : nat :=
  length (filter (fun c => is_chain c = true) (concat ps)).

(** What a function of the installation that is yet to be called relies on,
    of the model of the loop. *)
Definition closure_ok (m : Model) (c : Closure) : Prop :=
  match c with
  | call_extraDependencies mc =>
      Forall idle (dependencies m)
      /\ length (dependencies m) = 7%nat
      /\ length (dependencies mc) = 7%nat
  | return_InstallAllMsg => count_installing (dependencies m) = 0%nat
  | call_installDependency mc i =>
      exists d, index (dependencies m) i = Some d /\ installing d = true
  | _ => True
  end.

(** The loop before a project has been set up. *)
Definition before_setup (m : Model) (ps : list (list Closure)) : Prop :=
  view m = Page1View
  /\ dependencies m = dependencies initialModel
  /\ installCount m = 0
  /\ chain_work ps = 0%nat.

(** The loop once a setup has succeeded: the three invariants, and at most
    one function of the installation yet to be called, none on the
    selection page. *)
Definition after_setup (m : Model) (ps : list (list Closure)) : Prop :=
  view m <> Page1View
  /\ invariants m = true
  /\ (length (dependencies m) <= 49)%nat
  /\ (chain_work ps <= 1)%nat
  /\ (view m = Page2View ->
      chain_work ps = 0%nat /\ Forall idle (dependencies m)
      /\ length (dependencies m) = 7%nat)
  /\ Forall (Forall (closure_ok m)) ps.

(** A call of [setupProject] closes over a model whose [projectPath] is
    still empty. *)
Definition from_scratch (c : Closure) : Prop :=
  match c with
  | call_setupProject mc => projectPath mc = EmptyString
  | _ => True
  end.

Definition setups_from_scratch (m : Model) (ps : list (list Closure)) : Prop :=
  (view m = Page1View -> projectPath m = EmptyString)
  /\ Forall (Forall from_scratch) ps.

(** ** More vocabulary for the properties of the commands and of the loop *)

(** What one entry makes the expander add. *)
Definition implied (d : Dependency) : list Dependency :=
  (if String.eqb (name d) "react" then react_extras else [])
  ++ (if String.eqb (name d) "kysely" then kysely_extras else []).

(** What the expander adds for a list: the implied entries of each selected
    entry, in the order of the list. *)
Definition implied_by (ds : list Dependency) : list Dependency :=
  concat (implied <$> filter (fun d => selected d = true) ds).

(** The entries for which the expander copies a file. *)
Definition copies_a_file (d : Dependency) : bool :=
  String.eqb (name d) "typescript" || String.eqb (name d) "esbuild"
  || String.eqb (name d) "tailwindcss".

(** The file at a path, and whether a path is a directory. *)
Definition read_file (w : World) (p : string) : option Content :=
  match resolve w p with
  | Some k =>
      match files w !! k with
      | Some (File c) => Some c
      | _ => None
      end
  | None => None
  end.

Definition is_directory (w : World) (p : string) : bool :=
  match resolve w p with
  | Some k =>
      match node_at (files w) k with
      | Some Dir => true
      | _ => false
      end
  | None => false
  end.

(** An entry as the sequencer leaves it when its install succeeds. *)
Definition finish (d : Dependency) : Dependency :=
  if installable d then set_installed true (set_installing false d) else d.

(** The loop just after the confirm key of the selection page: the one piece
    of work is the call of the expander. *)
Definition expansion_starts (m : Model) (w : World) : Sys :=
  mkSys m [[call_extraDependencies m]] w Running.

(** How many entries all the entries of a list could make the expander add,
    selected or not. *)
Definition weight (ds : list Dependency) : nat :=
  length (concat (implied <$> ds)).

(** What the loop keeps, so that no index is out of range: the cursor is on
    an entry, the list has grown by at most six entries for each event so
    far, and each install yet to be called is for an entry of the list. *)
Definition in_range (m : Model) (c : Closure) : Prop :=
  match c with
  | call_installDependency mc i =>
      0 <= i /\ (Z.to_nat i < length (dependencies mc))%nat
      /\ (length (dependencies mc) <= length (dependencies m))%nat
  | call_extraDependencies mc => (weight (dependencies mc) <= 6)%nat
  | _ => True
  end.

Definition safe_parts (n : nat) (m : Model) (ps : list (list Closure)) : Prop :=
  0 <= cursor m < len (dependencies m)
  /\ (length (dependencies m) <= 7 + 6 * n)%nat
  /\ (weight (dependencies m) <= 6)%nat
  /\ Forall (Forall (in_range m)) ps.

Definition safe (n : nat) (s : Sys) : Prop :=
  status s <> Panicked /\ safe_parts n (model s) (pending s).

(** What a message must be like for [Update] to take it: an install that
    has ended is for an entry of the list, and what the expander found is at
    most six entries that imply nothing themselves. *)
Definition sent_ok (m : Model) (msg : Msg) : Prop :=
  match msg with
  | OnInstalledMsg i => 0 <= i /\ (Z.to_nat i < length (dependencies m))%nat
  | ExtraDepsMessage ds => (length ds <= 6)%nat /\ weight ds = 0%nat
  | _ => True
  end.

(** The model of the expander when the entries that bring a file are
    deselected. *)
Definition without_files : Model :=
  set_view Page3View
    (set_projectPath "/home/user/demo"
       (set_dependencies
          [ newDependency "typescript" false true;
            newDependency "react" true false;
            newDependency "kysely" true false;
            newDependency "esbuild" false true;
            newDependency "tailwindcss" false true;
            newDependency "nodemon" true true;
            newDependency "dotenv" true true ] demo_model)).

(** An entry keeps what is fixed in it: its name and its development flag
    stay, and once installed it stays installed. *)
Definition kept (d d' : Dependency) : Prop :=
  name d' = name d /\ devDependency d' = devDependency d
  /\ (installed d = true -> installed d' = true).

(** A machine with a regular file [notes] in the working directory, and the
    model once [notes/demo] has been typed. *)
Definition notes_world : World :=
  mkWorld (Some "/home/user")
          (<[ ["home"; "user"; "notes"] := File (Bytes IndexTs) ]> home)
          npm_ok None.

Definition notes_model : Model := set_textinput "notes/demo" initialModel.

(** A machine with a directory named [eslintrc.cjs] in the working
    directory. *)
Definition lint_dir_world : World :=
  mkWorld (Some "/home/user")
          (<[ ["home"; "user"; "eslintrc.cjs"] := Dir ]> home)
          npm_ok None.

(** A machine on which every external command fails. *)
Definition npm_down : World :=
  world_answering (mkProcResult EmptyString EmptyString (Some "exit status 1")).

(** A machine on which the UI library cannot open the terminal. *)
Definition no_tty_world : World :=
  mkWorld (Some "/home/user") home npm_ok (Some "could not open a new TTY").

(** A machine on which every external command succeeds and prints the audit
    document of the example. *)
Definition reporting_world : World :=
  world_answering (mkProcResult sample_document EmptyString None).

(** The session up to the call of the audit. *)
Definition until_audit : list Event :=
  [key_pressed (typed "demo"); key_pressed (key KeyEnter); finishes 0;
   key_pressed (key KeyEnter)] ++ repeat (finishes 0) 28.

(** The session up to the call of the setup. *)
Definition until_setup : list Event :=
  [key_pressed (typed "demo"); key_pressed (key KeyEnter)].

(** A session in which two names are confirmed and both setups come back
    before the selection is confirmed. *)
Definition two_early_setups : list Event :=
  [key_pressed (typed "a"); key_pressed (key KeyEnter);
   key_pressed (typed "b"); key_pressed (key KeyEnter);
   finishes 0; finishes 0;
   key_pressed (key KeyDown); key_pressed (key KeySpace);
   key_pressed (key KeyEnter)] ++ repeat (finishes 0) 30.

(** A session with the selection page left as it is, esbuild selected, up
    to the end of the expansion. *)
Definition with_esbuild : list Event :=
  [key_pressed (typed "demo"); key_pressed (key KeyEnter); finishes 0;
   key_pressed (key KeyEnter); finishes 0].

(** * Properties *)

(** ** Integers and indexing *)

Lemma wrap_int_small (z : Z) : int_min <= z <= int_max -> wrap_int z = z.
Proof.
  unfold wrap_int, int_min, int_max. intros Hz.
  rewrite Z.mod_small; lia.
Qed.

Lemma index_Some (ds : list Dependency) (i : Z) (d : Dependency) :
  index ds i = Some d <-> 0 <= i /\ ds !! Z.to_nat i = Some d.
Proof.
  unfold index. destruct (Z.leb_spec 0 i); split; intros H1;
    try (destruct H1; lia || done); try done.
Qed.

Lemma index_in_range (ds : list Dependency) (i : Z) :
  0 <= i < len ds -> exists d, index ds i = Some d.
Proof.
  intros [H0 H1]. unfold len in H1.
  destruct (lookup_lt_is_Some_2 ds (Z.to_nat i)) as [d Hd]; [lia|].
  exists d. apply index_Some. done.
Qed.

Lemma len_nonneg (ds : list Dependency) : 0 <= len ds.
Proof. unfold len. lia. Qed.

Arguments Update : simpl never.

(** ** The keys of the selection page *)

Section SelectionPage.

Variable m : Model.
Hypothesis on_page : view m = Page2View.

Lemma Update_up (k : Key) :
  Type_ k = KeyUp ->
  Update m (KeyMsg k)
  = Some (if 0 <? cursor m then set_cursor (wrap_int (cursor m - 1)) m
          else m, cmd_nil).
Proof using on_page.
  intros Hk. unfold Update, Update_key. rewrite Hk, on_page. reflexivity.
Qed.

Lemma Update_down (k : Key) :
  Type_ k = KeyDown ->
  Update m (KeyMsg k)
  = Some (if cursor m <? len (dependencies m) - 1
          then set_cursor (wrap_int (cursor m + 1)) m
          else m, cmd_nil).
Proof using on_page.
  intros Hk. unfold Update, Update_key. rewrite Hk, on_page. reflexivity.
Qed.

Lemma Update_toggle (k : Key) (d : Dependency) :
  is_toggle (Type_ k) = true ->
  index (dependencies m) (cursor m) = Some d ->
  Update m (KeyMsg k)
  = Some (set_dependencies
            (<[Z.to_nat (cursor m) := set_selected (negb (selected d)) d]>
               (dependencies m)) m, cmd_nil).
Proof using on_page.
  intros Hk Hd. unfold Update, Update_key. rewrite on_page, Hd.
  destruct (Type_ k); try discriminate; simpl; destruct (selected d); done.
Qed.

End SelectionPage.

(** One key of the selection page, up, down or toggle, when the cursor is
    on an entry: [Update] does not panic, the page and the number of entries
    stay, and the cursor is on an entry again. *)
Lemma selection_key_step (m : Model) (k : Key) :
  view m = Page2View ->
  0 <= cursor m < len (dependencies m) ->
  len (dependencies m) <= int_max ->
  is_toggle (Type_ k) || is_move (Type_ k) = true ->
  exists m', Update m (KeyMsg k) = Some (m', cmd_nil)
    /\ view m' = Page2View
    /\ length (dependencies m') = length (dependencies m)
    /\ 0 <= cursor m' < len (dependencies m')
    /\ (is_move (Type_ k) = true -> dependencies m' = dependencies m)
    /\ (is_toggle (Type_ k) = true -> cursor m' = cursor m).
Proof.
  intros Hv Hc Hn Hk.
  destruct (is_toggle (Type_ k)) eqn:Ht.
  - destruct (index_in_range (dependencies m) (cursor m) Hc) as [d Hd].
    eexists. split; [exact (Update_toggle m Hv k d Ht Hd)|].
    unfold len in *. simpl. rewrite length_insert.
    repeat split; try done; try lia.
    destruct (Type_ k); discriminate.
  - simpl in Hk. unfold int_max in Hn.
    destruct (Type_ k) eqn:Hty; try discriminate.
    + eexists. split; [exact (Update_up m Hv k Hty)|].
      destruct (Z.ltb_spec 0 (cursor m)); simpl;
        rewrite ?wrap_int_small by (unfold int_min, int_max; lia);
        repeat split; try done; lia.
    + eexists. split; [exact (Update_down m Hv k Hty)|].
      destruct (Z.ltb_spec (cursor m) (len (dependencies m) - 1)); simpl;
        rewrite ?wrap_int_small by (unfold int_min, int_max; lia);
        repeat split; try done; lia.
Qed.

(** C9.  On the selection page, with a list that is not empty and the cursor
    on one of its entries, any sequence of up and down keys leaves the
    cursor within [0, len(dependencies)-1]; up at index 0 and down at the
    last index leave the model as it is. *)
Theorem cursor_stays_in_bounds (m : Model) (ks : list Key) :
  view m = Page2View ->
  dependencies m <> [] ->
  0 <= cursor m <= len (dependencies m) - 1 ->
  len (dependencies m) <= int_max ->
  Forall (fun k => is_move (Type_ k) = true) ks ->
  (exists m', feed m (KeyMsg <$> ks) = Some m'
     /\ view m' = Page2View
     /\ dependencies m' = dependencies m
     /\ 0 <= cursor m' <= len (dependencies m') - 1)
  /\ (forall k, Type_ k = KeyUp -> cursor m = 0 ->
        Update m (KeyMsg k) = Some (m, cmd_nil))
  /\ (forall k, Type_ k = KeyDown -> cursor m = len (dependencies m) - 1 ->
        Update m (KeyMsg k) = Some (m, cmd_nil)).
Proof.
  intros Hv _ Hc Hn Hks. split; [|split].
  - revert m Hv Hc Hn. induction Hks as [|k ks Hk _ IH]; intros m Hv Hc Hn.
    + exists m. simpl. done.
    + destruct (selection_key_step m k Hv) as (m1 & HU & Hv1 & _ & Hc1 & Hd1 & _);
        [lia | done | by rewrite Hk, orb_true_r |].
      specialize (Hd1 Hk).
      destruct (IH m1 Hv1) as (m' & Hf & Hv' & Hd' & Hc');
        [lia | by rewrite Hd1 |].
      exists m'. rewrite fmap_cons. cbn [feed]. rewrite HU, Hf.
      rewrite Hd' in *. rewrite Hd1 in *. done.
  - intros k Hk H0. rewrite (Update_up m Hv k Hk), H0. reflexivity.
  - intros k Hk Hl. rewrite (Update_down m Hv k Hk), Hl.
    rewrite Z.ltb_irrefl. reflexivity.
Qed.

Lemma cursor_stays_in_bounds_witness :
  (exists m', feed (set_view Page2View initialModel)
                (KeyMsg <$> [key KeyUp; key KeyDown; key KeyDown]) = Some m'
     /\ view m' = Page2View
     /\ dependencies m' = dependencies initialModel
     /\ 0 <= cursor m' <= len (dependencies m') - 1)
  /\ (forall k, Type_ k = KeyUp -> cursor initialModel = 0 ->
        Update (set_view Page2View initialModel) (KeyMsg k)
        = Some (set_view Page2View initialModel, cmd_nil))
  /\ (forall k, Type_ k = KeyDown -> cursor initialModel = 6 ->
        Update (set_view Page2View initialModel) (KeyMsg k)
        = Some (set_view Page2View initialModel, cmd_nil)).
Proof.
  apply (cursor_stays_in_bounds (set_view Page2View initialModel)
           [key KeyUp; key KeyDown; key KeyDown]).
  - reflexivity.
  - discriminate.
  - vm_compute. split; discriminate.
  - vm_compute. discriminate.
  - repeat constructor.
Defined.

Lemma occurrences_cons (i c : Z) (l : list Z) :
  occurrences i (c :: l)
  = if decide (c = i) then S (occurrences i l) else occurrences i l.
Proof.
  unfold occurrences. rewrite filter_cons. destruct (decide (c = i)); done.
Qed.

Lemma set_selected_twice (b1 b2 : bool) (d : Dependency) :
  set_selected b1 (set_selected b2 d) = set_selected b1 d.
Proof. reflexivity. Qed.

Lemma set_selected_same (d : Dependency) : set_selected (selected d) d = d.
Proof. destruct d; reflexivity. Qed.

Lemma flip_twice (d : Dependency) :
  set_selected (negb (selected (set_selected (negb (selected d)) d)))
    (set_selected (negb (selected d)) d) = d.
Proof. destruct d as [n s dv ig id]; destruct s; reflexivity. Qed.

Lemma set_dependencies_same (m : Model) : set_dependencies (dependencies m) m = m.
Proof. destruct m; reflexivity. Qed.

(** C8.  On the selection page, after any sequence of toggle keys (with up
    and down keys in between, so that more than one entry can be reached),
    an entry is selected exactly when it was selected at the start, XOR it
    was toggled an odd number of times; two toggles in a row give the model
    back. *)
Theorem toggles_are_xor (m : Model) (ks : list Key) :
  view m = Page2View ->
  0 <= cursor m < len (dependencies m) ->
  len (dependencies m) <= int_max ->
  Forall (fun k => is_toggle (Type_ k) || is_move (Type_ k) = true) ks ->
  (exists m', feed m (KeyMsg <$> ks) = Some m'
     /\ length (dependencies m') = length (dependencies m)
     /\ forall (i : nat) (d : Dependency),
          dependencies m !! i = Some d ->
          dependencies m' !! i
          = Some (set_selected
                    (xorb (selected d)
                       (Nat.odd (occurrences (Z.of_nat i) (toggled m ks)))) d))
  /\ (forall k1 k2,
        is_toggle (Type_ k1) = true -> is_toggle (Type_ k2) = true ->
        feed m [KeyMsg k1; KeyMsg k2] = Some m).
Proof.
  intros Hv Hc Hn Hks. split.
  - revert m Hv Hc Hn. induction Hks as [|k ks Hk _ IH]; intros m Hv Hc Hn.
    + exists m. split; [done|]. split; [done|]. intros i d Hd. cbn.
      rewrite xorb_false_r, set_selected_same. done.
    + destruct (selection_key_step m k Hv Hc Hn Hk)
        as (m1 & HU & Hv1 & Hl1 & Hc1 & Hmove & Htog).
      destruct (IH m1 Hv1 Hc1) as (m' & Hf & Hl' & Hsel).
      { unfold len in *. lia. }
      exists m'. rewrite fmap_cons. cbn [feed toggled]. rewrite HU, Hf.
      split; [done|]. split; [lia|]. intros i d Hd.
      destruct (is_toggle (Type_ k)) eqn:Ht.
      * destruct (index_in_range (dependencies m) (cursor m) Hc) as [d0 Hd0].
        pose proof (Update_toggle m Hv k d0 Ht Hd0) as HU'.
        rewrite HU in HU'. injection HU' as ->.
        apply index_Some in Hd0 as [H0 Hd0].
        rewrite occurrences_cons. destruct (decide (cursor m = Z.of_nat i)) as [Hi|Hi].
        -- assert (Z.to_nat (cursor m) = i) as Hi' by lia. subst i.
           rewrite Hd0 in Hd. injection Hd as ->.
           rewrite (Hsel _ (set_selected (negb (selected d)) d)).
           2:{ simpl. apply list_lookup_insert_eq. by eapply lookup_lt_Some. }
           simpl. rewrite set_selected_twice. f_equal. f_equal.
           rewrite Nat.odd_succ, <- Nat.negb_odd.
           destruct (selected d), (Nat.odd _); reflexivity.
        -- rewrite (Hsel _ d); [done|].
           simpl. rewrite list_lookup_insert_ne by lia. done.
      * simpl in Hk. rewrite (Hsel _ d); [done|]. by rewrite (Hmove Hk).
  - intros k1 k2 H1 H2.
    destruct (index_in_range (dependencies m) (cursor m) Hc) as [d Hd].
    cbn [feed]. rewrite (Update_toggle m Hv k1 d H1 Hd).
    apply index_Some in Hd as [H0 Hd].
    assert (Z.to_nat (cursor m) < length (dependencies m))%nat as Hlt
      by (by eapply lookup_lt_Some).
    rewrite (Update_toggle
               (set_dependencies
                  (<[Z.to_nat (cursor m) := set_selected (negb (selected d)) d]>
                     (dependencies m)) m)
               Hv k2 (set_selected (negb (selected d)) d) H2).
    2:{ apply index_Some. split; [done|].
        apply (list_lookup_insert_eq (dependencies m)). done. }
    f_equal. rewrite flip_twice.
    change (set_dependencies
              (<[Z.to_nat (cursor m) := d]>
                 (<[Z.to_nat (cursor m) := set_selected (negb (selected d)) d]>
                    (dependencies m))) m = m).
    rewrite list_insert_insert_eq, list_insert_id by done.
    apply set_dependencies_same.
Qed.

Lemma toggles_are_xor_witness :
  (exists m', feed (set_view Page2View initialModel)
                (KeyMsg <$> [key KeySpace; key KeyDown; key KeyLeft;
                             key KeyUp; key KeyRight]) = Some m'
     /\ length (dependencies m') = 7%nat
     /\ forall (i : nat) (d : Dependency),
          dependencies initialModel !! i = Some d ->
          dependencies m' !! i
          = Some (set_selected
                    (xorb (selected d)
                       (Nat.odd (occurrences (Z.of_nat i) [0; 1; 0]))) d))
  /\ (forall k1 k2,
        is_toggle (Type_ k1) = true -> is_toggle (Type_ k2) = true ->
        feed (set_view Page2View initialModel) [KeyMsg k1; KeyMsg k2]
        = Some (set_view Page2View initialModel)).
Proof.
  apply (toggles_are_xor (set_view Page2View initialModel)
           [key KeySpace; key KeyDown; key KeyLeft; key KeyUp; key KeyRight]).
  - reflexivity.
  - vm_compute. split; [discriminate | reflexivity].
  - vm_compute. discriminate.
  - repeat constructor.
Defined.

(** ** Severity and the audit *)

Section Audit.

Context `{decoder : JSON} `{style : Style}.

Lemma severityStatus_highest (a : npmAuditJSON) :
  counts (MetadataVulnerabilities a) ->
  severityStatus a
  = match highest_nonzero (MetadataVulnerabilities a) with
    | Some s =>
        lipgloss_Render (severity_colour s) ("Severity: " +:+ severity_name s)
        +:+ " "
    | None => EmptyString
    end.
Proof.
  destruct a as [[i l mo h c t] ds].
  unfold counts, severityStatus, highest_nonzero, by_priority. simpl.
  intros (Hi & Hl & Hm & Hh & Hc).
  destruct (Z.ltb_spec 0 c).
  { rewrite filter_cons_True by (simpl; lia). reflexivity. }
  rewrite filter_cons_False by (simpl; lia).
  destruct (Z.ltb_spec 0 h).
  { rewrite filter_cons_True by (simpl; lia). reflexivity. }
  rewrite filter_cons_False by (simpl; lia).
  destruct (Z.ltb_spec 0 mo).
  { rewrite filter_cons_True by (simpl; lia). reflexivity. }
  rewrite filter_cons_False by (simpl; lia).
  destruct (Z.ltb_spec 0 l).
  { rewrite filter_cons_True by (simpl; lia). reflexivity. }
  rewrite filter_cons_False by (simpl; lia).
  destruct (Z.ltb_spec 0 i).
  { rewrite filter_cons_True by (simpl; lia). reflexivity. }
  rewrite filter_cons_False by (simpl; lia). reflexivity.
Qed.

(** C7.  The label of [severityStatus] names the highest severity level,
    in the order critical, high, moderate, low, info, whose count is not
    zero; one high and five moderate give the label High, not Moderate;
    counts that are all zero give no label. *)
Theorem severity_by_priority (a : npmAuditJSON) :
  counts (MetadataVulnerabilities a) ->
  severityStatus a
  = match highest_nonzero (MetadataVulnerabilities a) with
    | Some s =>
        lipgloss_Render (severity_colour s) ("Severity: " +:+ severity_name s)
        +:+ " "
    | None => EmptyString
    end
  /\ (Critical (MetadataVulnerabilities a) = 0 ->
      High (MetadataVulnerabilities a) = 1 ->
      Moderate (MetadataVulnerabilities a) = 5 ->
      severityStatus a = lipgloss_Render tw_red600 "Severity: High" +:+ " ")
  /\ (Critical (MetadataVulnerabilities a) = 0 ->
      High (MetadataVulnerabilities a) = 0 ->
      Moderate (MetadataVulnerabilities a) = 0 ->
      Low (MetadataVulnerabilities a) = 0 ->
      Info (MetadataVulnerabilities a) = 0 ->
      severityStatus a = EmptyString).
Proof.
  intros Hc. split; [by apply severityStatus_highest|].
  unfold severityStatus. split.
  - intros -> -> _. reflexivity.
  - intros -> -> -> -> ->. reflexivity.
Qed.

(** What [runAudit] returns, by the outcome of the audit command. *)
Lemma runAudit_eq (m : Model) (w : World) :
  runAudit m w
  = (let r := run_process w ["npm"; "audit"; "--json"] (projectPath m) in
     match p_error r, json_Unmarshal (p_stdout r) with
     | Some e, inr _ => ErrorMsg e
     | None, inr jsonErr => ErrorMsg jsonErr
     | _, inl report => AuditMsg report
     end, w).
Proof.
  unfold runAudit, bind, execOutput, ret. simpl.
  destruct (p_error _); simpl; destruct (json_Unmarshal _); reflexivity.
Qed.

(** C4.  [runAudit] returns an error message exactly when the audit
    command fails and the standard output captured with the failure does
    not parse, or the command succeeds and its standard output does not
    parse; a document that parses gives the same [AuditMsg], hence the same
    severity, whether the command that printed it failed or not. *)
Theorem runAudit_error_iff (m : Model) (w : World) :
  let r := run_process w ["npm"; "audit"; "--json"] (projectPath m) in
  (is_ErrorMsg (fst (runAudit m w)) = true
   <-> (p_error r <> None /\ parses (p_stdout r) = false)
       \/ (p_error r = None /\ parses (p_stdout r) = false))
  /\ (forall (w' : World) (report : npmAuditJSON),
        json_Unmarshal (p_stdout r) = inl report ->
        p_stdout (run_process w' ["npm"; "audit"; "--json"] (projectPath m))
        = p_stdout r ->
        fst (runAudit m w) = AuditMsg report
        /\ fst (runAudit m w') = AuditMsg report
        /\ forall a a', fst (runAudit m w) = AuditMsg a ->
             fst (runAudit m w') = AuditMsg a' ->
             a = a' /\ severityStatus a = severityStatus a').
Proof.
  intros r. split.
  - rewrite runAudit_eq. fold r. unfold parses. simpl.
    destruct (p_error r), (json_Unmarshal (p_stdout r)); simpl;
      (split; [intros Hx | intros [[? ?]|[? ?]]]); try done;
      try (left; done); right; done.
  - intros w' report Hdoc Hsame.
    rewrite !runAudit_eq. fold r. simpl. rewrite Hsame, Hdoc.
    assert (forall o : option string,
               match o with Some _ => AuditMsg report | None => AuditMsg report end
               = AuditMsg report) as Hm by (by intros []).
    rewrite !Hm. split; [done|]. split; [done|].
    intros a a' [= <-] [= <-]. done.
Qed.

End Audit.

(** ** The expander *)

Arguments copyStaticFile : simpl never.

Lemma selected_names_cons (d : Dependency) (ds : list Dependency) :
  selected_names (d :: ds)
  = if selected d then name d :: selected_names ds else selected_names ds.
Proof.
  unfold selected_names. rewrite filter_cons.
  destruct (selected d); simpl; [|done]. reflexivity.
Qed.

Section Expander.

Variable m : Model.

Lemma expand_skip (d : Dependency) (rest deps : list Dependency) :
  selected d = false ->
  extraDependencies_from m (d :: rest) deps
  = extraDependencies_from m rest deps.
Proof. intros Hs. simpl. rewrite Hs. reflexivity. Qed.

Lemma expand_react (d : Dependency) (rest deps : list Dependency) (w : World) :
  selected d = true -> name d = "react" ->
  extraDependencies_from m (d :: rest) deps w
  = extraDependencies_from m rest (deps ++ react_extras) w.
Proof. intros Hs Hn. simpl. rewrite Hs, Hn. reflexivity. Qed.

Lemma expand_typescript (d : Dependency) (rest deps : list Dependency)
  (w w' : World) :
  selected d = true -> name d = "typescript" ->
  copyStaticFile m IndexTs "src/index.ts" w = (None, w') ->
  extraDependencies_from m (d :: rest) deps w
  = extraDependencies_from m rest deps w'.
Proof.
  intros Hs Hn Hc. simpl. rewrite Hs, Hn. simpl.
  unfold bind at 1. rewrite Hc. reflexivity.
Qed.

Lemma expand_none (rest deps : list Dependency) (w : World) :
  selected_names rest = [] ->
  extraDependencies_from m rest deps w = (ExtraDepsMessage deps, w).
Proof.
  induction rest as [|d rest IH]; [done|].
  rewrite selected_names_cons. destruct (selected d) eqn:Hs; [done|].
  intros Hr. rewrite expand_skip by done. auto.
Qed.

Lemma expand_only_react (rest deps : list Dependency) (w : World) :
  selected_names rest = ["react"] ->
  extraDependencies_from m rest deps w
  = (ExtraDepsMessage (deps ++ react_extras), w).
Proof.
  induction rest as [|d rest IH]; [done|].
  rewrite selected_names_cons. destruct (selected d) eqn:Hs.
  - intros [= Hn Hr]. rewrite expand_react by done. by apply expand_none.
  - intros Hr. rewrite expand_skip by done. auto.
Qed.

Lemma expand_only_typescript (rest deps : list Dependency) (w w' : World) :
  selected_names rest = ["typescript"] ->
  copyStaticFile m IndexTs "src/index.ts" w = (None, w') ->
  extraDependencies_from m rest deps w = (ExtraDepsMessage deps, w').
Proof.
  intros Hr Hc. induction rest as [|d rest IH]; [done|].
  rewrite selected_names_cons in Hr. destruct (selected d) eqn:Hs.
  - injection Hr as Hn Hr.
    rewrite (expand_typescript d rest deps w w') by done. by apply expand_none.
  - rewrite expand_skip by done. auto.
Qed.

Lemma expand_typescript_react (rest deps : list Dependency) (w w' : World) :
  selected_names rest = ["typescript"; "react"]
  \/ selected_names rest = ["react"; "typescript"] ->
  copyStaticFile m IndexTs "src/index.ts" w = (None, w') ->
  extraDependencies_from m rest deps w
  = (ExtraDepsMessage (deps ++ react_extras), w').
Proof.
  intros Hr Hc. revert deps. induction rest as [|d rest IH]; intros deps.
  { by destruct Hr. }
  rewrite selected_names_cons in Hr. destruct (selected d) eqn:Hs.
  - destruct Hr as [[= Hn Hr]|[= Hn Hr]].
    + rewrite (expand_typescript d rest deps w w') by done.
      by apply expand_only_react.
    + rewrite expand_react by done. by apply expand_only_typescript.
  - rewrite expand_skip by done. auto.
Qed.

End Expander.

(** C5.  When the selected entries are exactly one named typescript and one
    named react, and the copy of the starter source file goes through, the
    expander returns the five records implied by react and nothing for
    typescript; [Update] appends them to the end of the list as they are,
    whatever entries the list already holds; all five are selected and are
    development dependencies. *)
Theorem expansion_of_typescript_and_react (m : Model) (w : World) :
  selected_names (dependencies m) ≡ₚ ["typescript"; "react"] ->
  fst (copyStaticFile m IndexTs "src/index.ts" w) = None ->
  fst (extraDependencies m w) = ExtraDepsMessage react_extras
  /\ (exists m' c,
        Update m (ExtraDepsMessage react_extras) = Some (m', c)
        /\ dependencies m' = dependencies m ++ react_extras
        /\ length (dependencies m') = (length (dependencies m) + 5)%nat)
  /\ Forall (fun d => selected d = true /\ installing d = false
                      /\ installed d = false) react_extras
  /\ (fun d => (name d, devDependency d)) <$> react_extras
     = [ ("@types/react", true); ("@types/react-dom", true);
         ("eslint-plugin-react", true);
         ("@typescript-eslint/eslint-plugin", true);
         ("@typescript-eslint/parser", true) ].
Proof.
  intros Hsel Hcopy.
  destruct (copyStaticFile m IndexTs "src/index.ts" w) as [e w'] eqn:Hc.
  simpl in Hcopy. subst e. split; [|split; [|split]].
  - unfold extraDependencies.
    rewrite (expand_typescript_react m (dependencies m) [] w w'); [done| |done].
    symmetry in Hsel. apply Permutation_length_2_inv in Hsel.
    destruct Hsel; auto.
  - eexists _, _. split; [reflexivity|]. simpl. split; [done|].
    by rewrite length_app.
  - repeat constructor.
  - reflexivity.
Qed.

(** ** The initializer *)

(** C6.  When an entry exists at the path that joins the working directory
    and the project name, [setupProject] returns the path-conflict error and
    leaves the file tree as it is: no directory is made, no configuration
    document and no template is written. *)
Theorem setupProject_path_conflict (m : Model) (w : World) (c : string)
  (k : list string) (n : Node) :
  cwd w = Some c ->
  resolve w (path_Join [c; textinput m]) = Some k ->
  stat (files w) k = Found n ->
  setupProject m w
  = (ErrorMsg (path_conflict (path_Join [c; textinput m])), w).
Proof.
  intros Hc Hk Hn.
  unfold setupProject, bind, getProjectPath, bind, os_Getwd. rewrite Hc. simpl.
  unfold os_Open. rewrite Hk, Hn. reflexivity.
Qed.

(** ** Paths *)

Lemma append_cons (c : ascii) (s t : string) :
  String c s +:+ t = String c (s +:+ t).
Proof. reflexivity. Qed.

Lemma append_nil (t : string) : EmptyString +:+ t = t.
Proof. reflexivity. Qed.

Lemma append_assoc (s t u : string) : (s +:+ t) +:+ u = s +:+ (t +:+ u).
Proof.
  induction s as [|c s IH]; [done|]. rewrite !append_cons, IH. reflexivity.
Qed.

Lemma split_slash_not_nil (s : string) : split_slash s <> [].
Proof.
  induction s as [|c s IH]; simpl; [done|].
  destruct (Ascii.eqb c slash); [done|]. destruct (split_slash s); done.
Qed.

Lemma split_slash_append (s1 s2 : string) :
  split_slash (s1 +:+ String slash s2) = split_slash s1 ++ split_slash s2.
Proof.
  induction s1 as [|c s1 IH].
  - reflexivity.
  - rewrite append_cons. simpl.
    destruct (Ascii.eqb c slash); simpl; rewrite IH; [done|].
    pose proof (split_slash_not_nil s1).
    destruct (split_slash s1); [done|]. reflexivity.
Qed.

Lemma split_slash_plain (b : string) : no_slash b = true -> split_slash b = [b].
Proof.
  induction b as [|c b IH]; simpl; [done|].
  destruct (Ascii.eqb c slash); simpl; [done|].
  intros Hb. rewrite IH by done. reflexivity.
Qed.

Lemma join_slash_snoc (xs : list string) (b : string) :
  join_slash (xs ++ [b])
  = match xs with
    | [] => b
    | _ => join_slash xs +:+ String slash b
    end.
Proof.
  induction xs as [|x xs IH]; [done|].
  destruct xs as [|y xs]; [done|].
  change (join_slash ((x :: y :: xs) ++ [b]))
    with (x +:+ String slash (join_slash ((y :: xs) ++ [b]))).
  rewrite IH.
  change (join_slash (x :: y :: xs))
    with (x +:+ String slash (join_slash (y :: xs))).
  rewrite append_assoc, append_cons. reflexivity.
Qed.

Lemma ends_in_join_slash (xs : list string) (b : string) :
  no_slash b = true -> ends_in (join_slash (xs ++ [b])) b.
Proof.
  intros Hb. rewrite join_slash_snoc. destruct xs as [|x xs].
  - exists []. by apply split_slash_plain.
  - exists (split_slash (join_slash (x :: xs))).
    rewrite split_slash_append, (split_slash_plain b) by done. reflexivity.
Qed.

Lemma ends_in_rooted (s b : string) :
  ends_in s b -> ends_in (String slash s) b.
Proof.
  intros [before Hs]. exists (EmptyString :: before). simpl.
  rewrite Hs. reflexivity.
Qed.

Lemma clean_step_plain (root : bool) (seen : list string) (b : string) :
  plain_name b = true -> clean_step root seen b = b :: seen.
Proof.
  unfold plain_name, clean_step. intros Hb.
  apply andb_prop in Hb as [Hb Hdd]. apply andb_prop in Hb as [Hb Hd].
  apply andb_prop in Hb as [_ He].
  apply negb_true_iff in Hdd, Hd, He. rewrite He, Hd, Hdd. reflexivity.
Qed.

Lemma walk_step_plain (seen : list string) (b : string) :
  plain_name b = true -> walk_step seen b = b :: seen.
Proof.
  unfold plain_name, walk_step. intros Hb.
  apply andb_prop in Hb as [Hb Hdd]. apply andb_prop in Hb as [Hb Hd].
  apply andb_prop in Hb as [_ He].
  apply negb_true_iff in Hdd, Hd, He. rewrite He, Hd, Hdd. reflexivity.
Qed.

Lemma plain_name_no_slash (b : string) : plain_name b = true -> no_slash b = true.
Proof.
  unfold plain_name. intros Hb.
  apply andb_prop in Hb as [Hb _]. apply andb_prop in Hb as [Hb _].
  by apply andb_prop in Hb as [Hb _].
Qed.

Lemma ends_in_path_Clean (s b : string) :
  plain_name b = true -> ends_in s b -> ends_in (path_Clean s) b.
Proof.
  intros Hb [before Hs]. unfold path_Clean. rewrite Hs, fold_left_app. simpl.
  rewrite clean_step_plain by done. simpl.
  pose proof (plain_name_no_slash b Hb) as Hn.
  destruct (rooted s).
  - apply ends_in_rooted. by apply ends_in_join_slash.
  - destruct (rev _ ++ [b]) eqn:Hk.
    + by destruct (rev (fold_left (clean_step false) before [])).
    + rewrite <- Hk. by apply ends_in_join_slash.
Qed.

(** A path joined from a directory and a file name that ends in the plain
    element [b] ends in [b] as well. *)
Lemma ends_in_path_Join (a f b : string) :
  plain_name b = true -> ends_in f b -> ends_in (path_Join [a; f]) b.
Proof.
  intros Hb Hf.
  assert (nonempty f = true) as Hne.
  { destruct f; [|done]. destruct Hf as [before Hf]. simpl in Hf.
    destruct before as [|x before]; simpl in Hf.
    - injection Hf as <-. discriminate Hb.
    - injection Hf as _ Hf. by destruct before. }
  unfold path_Join. rewrite !filter_cons, filter_nil.
  rewrite (decide_True (P := nonempty f = true)) by done.
  destruct (decide (nonempty a = true)).
  - apply ends_in_path_Clean; [done|]. destruct Hf as [before Hf].
    exists (split_slash a ++ before).
    change (join_slash [a; f]) with (a +:+ String slash f).
    rewrite split_slash_append, Hf. by rewrite app_assoc.
  - apply ends_in_path_Clean; done.
Qed.

Lemma last_walk (from : list string) (s b : string) :
  plain_name b = true -> ends_in s b -> last (walk from s) = Some b.
Proof.
  intros Hb [before Hs]. unfold walk. rewrite Hs, fold_left_app. simpl.
  rewrite walk_step_plain by done. simpl. apply last_snoc.
Qed.

(** The operating system finds a path that ends in the plain element [b] at
    a place whose last element is [b]. *)
Lemma last_resolve (w : World) (p b : string) (k : list string) :
  plain_name b = true -> ends_in p b ->
  resolve w p = Some k -> last k = Some b.
Proof.
  intros Hb Hp. unfold resolve.
  destruct (String.eqb p EmptyString); [done|].
  destruct (rooted p).
  - intros [= <-]. by apply last_walk.
  - destruct (cwd w); [|done]. intros [= <-]. by apply last_walk.
Qed.

Lemma ends_in_plain (b : string) : plain_name b = true -> ends_in b b.
Proof.
  intros Hb. exists []. apply split_slash_plain. by apply plain_name_no_slash.
Qed.

(** ** Writes to the file tree *)

Lemma resolve_cwd (w w' : World) (p : string) :
  cwd w' = cwd w -> resolve w' p = resolve w p.
Proof. intros Hc. unfold resolve. by rewrite Hc. Qed.

(** What [os.WriteFile] does: the working directory stays, every other
    place stays, and without an error the place of the path holds the data. *)
Lemma os_WriteFile_spec (p : string) (data : Content) (w w' : World)
  (err : option string) :
  os_WriteFile p data w = (err, w') ->
  cwd w' = cwd w
  /\ (forall k, resolve w p <> Some k -> files w' !! k = files w !! k)
  /\ (err = None ->
      exists k, resolve w p = Some k /\ files w' !! k = Some (File data)).
Proof.
  unfold os_WriteFile. destruct (resolve w p) as [k|] eqn:Hk.
  2:{ intros [= <- <-]. done. }
  destruct (stat (files w) (removelast k)) as [[c|]| |];
    try (intros [= <- <-]; done).
  destruct (node_at (files w) k) as [[c|]|] eqn:Hn;
    try (intros [= <- <-]; done);
    intros [= <- <-]; (split; [done|]); simpl;
    (split; [intros k' Hk'; apply lookup_insert_ne; congruence|]);
    intros _; exists k; by rewrite lookup_insert_eq.
Qed.

Lemma copyStaticFile_spec (m : Model) (f : EmbeddedFile) (fileName b : string)
  (w w' : World) (err : option string) :
  plain_name b = true -> ends_in fileName b ->
  copyStaticFile m f fileName w = (err, w') ->
  cwd w' = cwd w
  /\ (forall k, last k <> Some b -> files w' !! k = files w !! k)
  /\ (err = None ->
      exists k, resolve w (path_Join [projectPath m; fileName]) = Some k
                /\ files w' !! k = Some (File (Bytes f))).
Proof.
  intros Hb Hf Hc. unfold copyStaticFile in Hc.
  apply os_WriteFile_spec in Hc as (Hcwd & Hother & Hk).
  split; [done|]. split; [|done].
  intros k Hlast. apply Hother. intros Hr. apply Hlast.
  eapply last_resolve; [done| |done]. by apply ends_in_path_Join.
Qed.

Lemma os_MkdirAll_cwd (p : string) (w w' : World) (err : option string) :
  os_MkdirAll p w = (err, w') -> cwd w' = cwd w.
Proof.
  unfold os_MkdirAll. destruct (resolve w p); [|by intros [= <- <-]].
  destruct (mkdir_from _ _ _). by intros [= <- <-].
Qed.

Lemma getProjectPath_cwd (projectName : string) (w w' : World)
  (r : string * option string) :
  getProjectPath projectName w = (r, w') -> cwd w' = cwd w.
Proof.
  unfold getProjectPath, bind, os_Getwd, ret.
  destruct (cwd w) as [c|] eqn:Hc; simpl; [|by intros [= <- <-]].
  destruct (os_Open w _); try by intros [= <- <-].
  destruct (os_MkdirAll _ w) as [e w1] eqn:Hm.
  apply os_MkdirAll_cwd in Hm. destruct e; intros [= <- <-]; congruence.
Qed.

Lemma writeJson_cwd (dir fileName : string) (data : ConfigData) (w w' : World)
  (err : option string) :
  writeJson dir fileName data w = (err, w') -> cwd w' = cwd w.
Proof. intros H. by apply os_WriteFile_spec in H as (? & _). Qed.

(** The steps of a [setupProject] that ends in [SetupMessage]. *)
Lemma setupProject_steps (m : Model) (w w1 : World) (p : string) :
  setupProject m w = (SetupMessage p, w1) ->
  exists wa wb wc wd,
    getProjectPath (textinput m) w = ((p, None), wa)
    /\ writeJson p "package.json"
         (PackageData (generatePackageJSON (textinput m))) wa = (None, wb)
    /\ writeJson p "tsconfig.json" (TsconfigData generateTsconfigJSON) wb
       = (None, wc)
    /\ copyStaticFile m EslintConfigJs "eslintrc.cjs" wc = (None, wd)
    /\ copyStaticFile m EslintConfigJs "esbuild.js" wd = (None, w1).
Proof.
  unfold setupProject, bind.
  destruct (getProjectPath _ w) as [[p0 [e|]] wa] eqn:Ha; simpl;
    [by intros [= ]|].
  destruct (writeJson p0 "package.json" _ wa) as [[e|] wb] eqn:Hb; simpl;
    [by intros [= ]|].
  destruct (writeJson p0 "tsconfig.json" _ wb) as [[e|] wc] eqn:Hc; simpl;
    [by intros [= ]|].
  destruct (copyStaticFile m _ "eslintrc.cjs" wc) as [[e|] wd] eqn:Hd; simpl;
    [by intros [= ]|].
  destruct (copyStaticFile m _ "esbuild.js" wd) as [[e|] we] eqn:He; simpl;
    [by intros [= ]|].
  intros [= <- <-]. by exists wa, wb, wc, wd.
Qed.

Lemma copy_if_spec (cond : bool) (m : Model) (f : EmbeddedFile)
  (fileName b : string) (w w' : World) (err : option string) :
  plain_name b = true -> ends_in fileName b ->
  copy_if cond m f fileName w = (err, w') ->
  cwd w' = cwd w
  /\ (forall k, last k <> Some b -> files w' !! k = files w !! k)
  /\ (cond = false -> w' = w)
  /\ (cond = true -> err = None ->
      exists k, resolve w (path_Join [projectPath m; fileName]) = Some k
                /\ files w' !! k = Some (File (Bytes f))).
Proof.
  intros Hb Hf. destruct cond; simpl.
  - intros Hc. apply (copyStaticFile_spec m f fileName b) in Hc
      as (? & ? & ?); done.
  - intros [= <- <-]. done.
Qed.

Lemma plain_index_ts : ends_in "src/index.ts" "index.ts".
Proof. by exists ["src"]. Qed.

Section Expansion.

Variable m : Model.

(** The steps of one round of the loop on a selected entry that goes on to
    the next round. *)
Lemma expand_round (d : Dependency) (rest deps : list Dependency)
  (w w2 : World) (msg : Msg) :
  selected d = true ->
  extraDependencies_from m (d :: rest) deps w = (msg, w2) ->
  exists e1 wa e2 wb e3 wc,
    copy_if (String.eqb (name d) "typescript") m IndexTs "src/index.ts" w
    = (e1, wa)
    /\ copy_if (String.eqb (name d) "esbuild") m EsbuildJs "esbuild.js" wa
       = (e2, wb)
    /\ copy_if (String.eqb (name d) "tailwindcss") m TailwindConfigJs
         "tailwind.config.js" wb = (e3, wc)
    /\ ((is_ErrorMsg msg = true /\ (w2 = wa \/ w2 = wb \/ w2 = wc))
        \/ (e1 = None /\ e2 = None /\ e3 = None
            /\ exists deps',
                 deps' = (let deps1 := if String.eqb (name d) "react"
                                       then deps ++ react_extras else deps in
                          if String.eqb (name d) "kysely"
                          then deps1 ++ kysely_extras else deps1)
                 /\ extraDependencies_from m rest deps' wc = (msg, w2))).
Proof.
  intros Hs. cbn [extraDependencies_from]. rewrite Hs. cbn [negb].
  unfold bind at 1.
  destruct (copy_if (String.eqb (name d) "typescript") m IndexTs
              "src/index.ts" w) as [e1 wa] eqn:H1.
  destruct (copy_if (String.eqb (name d) "esbuild") m EsbuildJs
              "esbuild.js" wa) as [e2 wb] eqn:H2.
  destruct (copy_if (String.eqb (name d) "tailwindcss") m TailwindConfigJs
              "tailwind.config.js" wb) as [e3 wc] eqn:H3.
  intros H. exists e1, wa, e2, wb, e3, wc. repeat (split; [done|]).
  destruct e1 as [e|]; simpl in H.
  { injection H as <- <-. left. auto. }
  unfold bind at 1 in H. rewrite H2 in H.
  destruct e2 as [e|]; simpl in H.
  { injection H as <- <-. left. auto. }
  unfold bind at 1 in H. rewrite H3 in H.
  destruct e3 as [e|]; simpl in H.
  { injection H as <- <-. left. auto. }
  right. eauto 10.
Qed.

(** The expander writes files named [index.ts], [tailwind.config.js] and,
    when a selected entry is named esbuild, [esbuild.js]; every other place
    of the file tree is as before. *)
Lemma expand_keeps (rest deps : list Dependency) (w w2 : World) (msg : Msg)
  (k : list string) :
  extraDependencies_from m rest deps w = (msg, w2) ->
  last k <> Some "index.ts" ->
  last k <> Some "tailwind.config.js" ->
  last k <> Some "esbuild.js" \/ "esbuild" ∉ selected_names rest ->
  cwd w2 = cwd w /\ files w2 !! k = files w !! k.
Proof.
  intros H Hi Ht. revert deps w H.
  induction rest as [|d rest IH]; intros deps w H He.
  { injection H as <- <-. done. }
  rewrite selected_names_cons in He.
  destruct (selected d) eqn:Hs.
  2:{ rewrite expand_skip in H by done. eauto. }
  apply expand_round in H as (e1 & wa & e2 & wb & e3 & wc & H1 & H2 & H3 & H);
    [|done].
  apply (copy_if_spec _ m _ _ "index.ts") in H1 as (Hc1 & Hk1 & _ & _);
    [|done|apply plain_index_ts].
  apply (copy_if_spec _ m _ _ "esbuild.js") in H2 as (Hc2 & Hk2 & Hn2 & _);
    [|done|by apply ends_in_plain].
  apply (copy_if_spec _ m _ _ "tailwind.config.js") in H3 as (Hc3 & Hk3 & _ & _);
    [|done|by apply ends_in_plain].
  assert (files wb !! k = files wa !! k) as Hk2'.
  { destruct He as [He|He]; [by apply Hk2|].
    rewrite Hn2; [done|]. apply String.eqb_neq. intros Hn. apply He.
    rewrite Hn. apply list_elem_of_here. }
  assert (cwd wc = cwd w /\ files wc !! k = files w !! k) as [Hcc Hkc].
  { split; [congruence|]. rewrite Hk3, Hk2', Hk1; done. }
  destruct H as [[_ Hw]|(_ & _ & _ & deps' & _ & H)].
  - destruct Hw as [Hw|[Hw|Hw]]; subst w2.
    + split; [done|]. by apply Hk1.
    + split; [congruence|]. rewrite Hk2', Hk1; done.
    + done.
  - destruct (IH deps' wc H) as [Hc Hk].
    { destruct He as [He|He]; [by left|]. right. intros Hin. apply He.
      by apply list_elem_of_further. }
    split; congruence.
Qed.

(** When a selected entry is named esbuild and the expander finishes, the
    file [esbuild.js] under [m.projectPath] holds the bundler
    configuration. *)
Lemma expand_writes_esbuild (rest deps : list Dependency) (w w2 : World)
  (msg : Msg) (k : list string) :
  extraDependencies_from m rest deps w = (msg, w2) ->
  is_ErrorMsg msg = false ->
  resolve w (path_Join [projectPath m; "esbuild.js"]) = Some k ->
  "esbuild" ∈ selected_names rest
  \/ files w !! k = Some (File (Bytes EsbuildJs)) ->
  files w2 !! k = Some (File (Bytes EsbuildJs)).
Proof.
  intros H Hmsg Hk. revert deps w H Hk.
  induction rest as [|d rest IH]; intros deps w H Hk He.
  { injection H as <- <-. destruct He as [He|He]; [|done].
    by apply not_elem_of_nil in He. }
  assert (last k = Some "esbuild.js") as Hlast.
  { eapply last_resolve; [|apply ends_in_path_Join|exact Hk];
      [done..|by apply ends_in_plain]. }
  rewrite selected_names_cons in He.
  destruct (selected d) eqn:Hs.
  2:{ rewrite expand_skip in H by done. eauto. }
  apply expand_round in H as (e1 & wa & e2 & wb & e3 & wc & H1 & H2 & H3 & H);
    [|done].
  destruct H as [[Hx _]|(He1 & He2 & He3 & deps' & _ & H)]; [congruence|].
  subst e1 e2 e3.
  apply (copy_if_spec _ m _ _ "index.ts") in H1 as (Hc1 & Hk1 & _ & _);
    [|done|apply plain_index_ts].
  apply (copy_if_spec _ m _ _ "esbuild.js") in H2 as (Hc2 & _ & Hn2 & Hy2);
    [|done|by apply ends_in_plain].
  apply (copy_if_spec _ m _ _ "tailwind.config.js") in H3 as (Hc3 & Hk3 & _ & _);
    [|done|by apply ends_in_plain].
  apply (IH deps' wc H).
  { rewrite <- Hk. apply resolve_cwd. congruence. }
  destruct (String.eqb (name d) "esbuild") eqn:Hn.
  - right. destruct (Hy2 eq_refl eq_refl) as (k' & Hk' & Hf).
    rewrite (resolve_cwd w wa) in Hk' by done. rewrite Hk in Hk'.
    injection Hk' as <-. rewrite Hk3; [done|]. rewrite Hlast. done.
  - apply String.eqb_neq in Hn. destruct He as [He|He].
    + left. apply elem_of_cons in He as [He|He]; [congruence|done].
    + right. rewrite Hk3 by (rewrite Hlast; done).
      rewrite (Hn2 eq_refl), Hk1; [done|]. rewrite Hlast. done.
Qed.

End Expansion.

Lemma walk_plain_name (from : list string) (b : string) :
  plain_name b = true -> walk from b = from ++ [b].
Proof.
  intros Hb. unfold walk.
  rewrite (split_slash_plain b) by (by apply plain_name_no_slash). simpl.
  rewrite walk_step_plain by done. simpl. by rewrite rev_involutive.
Qed.

Lemma ends_in_not_empty (s b : string) :
  plain_name b = true -> ends_in s b -> String.eqb s EmptyString = false.
Proof.
  intros Hb [before Hs]. destruct s; [|done]. simpl in Hs.
  destruct before as [|x before]; simpl in Hs.
  - injection Hs as <-. discriminate Hb.
  - injection Hs as _ Hs. by destruct before.
Qed.

(** With a working directory, a path that ends in a plain name is found
    somewhere. *)
Lemma resolve_ends_in (w : World) (c p b : string) :
  cwd w = Some c -> plain_name b = true -> ends_in p b ->
  exists k, resolve w p = Some k.
Proof.
  intros Hc Hb Hp. unfold resolve.
  rewrite (ends_in_not_empty p b), Hc by done. destruct (rooted p); eauto.
Qed.

Lemma getProjectPath_ok_cwd (projectName p : string) (w w' : World) :
  getProjectPath projectName w = ((p, None), w') -> exists c, cwd w = Some c.
Proof.
  unfold getProjectPath, bind, os_Getwd.
  destruct (cwd w); [eauto|]. simpl. by intros [= ].
Qed.

(** The files of a setup followed by an expansion. *)
Lemma setup_then_expand (m m2 : Model) (w w1 w2 : World)
  (p : string) (msg : Msg) :
  setupProject m w = (SetupMessage p, w1) ->
  extraDependencies m2 w1 = (msg, w2) ->
  exists k k',
    resolve w (path_Join [projectPath m; "esbuild.js"]) = Some k
    /\ resolve w (path_Join [projectPath m; "eslintrc.cjs"]) = Some k'
    /\ files w1 !! k = Some (File (Bytes EslintConfigJs))
    /\ files w1 !! k' = Some (File (Bytes EslintConfigJs))
    /\ ("esbuild" ∉ selected_names (dependencies m2) ->
        files w2 !! k = Some (File (Bytes EslintConfigJs)))
    /\ ("esbuild" ∈ selected_names (dependencies m2) ->
        is_ErrorMsg msg = false ->
        exists k2,
          resolve w (path_Join [projectPath m2; "esbuild.js"]) = Some k2
          /\ files w2 !! k2 = Some (File (Bytes EsbuildJs)))
    /\ (projectPath m = EmptyString ->
        exists c, cwd w = Some c /\ k = walk [] c ++ ["esbuild.js"]).
Proof.
  intros Hsetup Hexp.
  apply setupProject_steps in Hsetup
    as (wa & wb & wc & wd & Ha & Hb & Hc & Hd & He).
  destruct (getProjectPath_ok_cwd _ _ _ _ Ha) as [c Hcwd].
  apply getProjectPath_cwd in Ha. apply writeJson_cwd in Hb, Hc.
  apply (copyStaticFile_spec _ _ _ "eslintrc.cjs") in Hd
    as (Hcd & _ & Hd); [|done|by apply ends_in_plain].
  apply (copyStaticFile_spec _ _ _ "esbuild.js") in He
    as (Hce & Hke & He); [|done|by apply ends_in_plain].
  destruct (Hd eq_refl) as (k' & Hk' & Hf'). destruct (He eq_refl) as (k & Hk & Hf).
  assert (cwd wc = cwd w) as Hwc by congruence.
  assert (cwd wd = cwd w) as Hwd by congruence.
  assert (cwd w1 = cwd w) as Hw1 by congruence.
  rewrite (resolve_cwd w wd) in Hk by done.
  rewrite (resolve_cwd w wc) in Hk' by done.
  assert (last k = Some "esbuild.js") as Hlast.
  { eapply last_resolve; [|apply ends_in_path_Join|exact Hk];
      [done..|by apply ends_in_plain]. }
  assert (last k' = Some "eslintrc.cjs") as Hlast'.
  { eapply last_resolve; [|apply ends_in_path_Join|exact Hk'];
      [done..|by apply ends_in_plain]. }
  exists k, k'. repeat (split; [done|]). split; [|split; [|split]].
  - rewrite Hke by (rewrite Hlast'; done). done.
  - intros Hno. unfold extraDependencies in Hexp.
    apply (expand_keeps m2 _ _ _ _ _ k) in Hexp as [_ ->]; [done|..].
    + rewrite Hlast. done.
    + rewrite Hlast. done.
    + by right.
  - intros Hyes Hmsg.
    destruct (resolve_ends_in w c (path_Join [projectPath m2; "esbuild.js"])
                "esbuild.js") as [k2 Hk2];
      [done|done|apply ends_in_path_Join; [done|by apply ends_in_plain]|].
    exists k2. split; [done|]. unfold extraDependencies in Hexp.
    eapply (expand_writes_esbuild m2); [exact Hexp|done| |by left].
    rewrite <- Hk2. by apply resolve_cwd.
  - intros Hp. exists c. split; [done|]. rewrite Hp in Hk.
    change (path_Join [EmptyString; "esbuild.js"]) with "esbuild.js" in Hk.
    unfold resolve in Hk. simpl in Hk. rewrite Hcwd in Hk.
    injection Hk as <-. by apply walk_plain_name.
Qed.

(** ** The install sequencer *)

Lemma scan_from_Some (ds : list Dependency) (i0 i : nat) :
  scan_from i0 ds = Some i <->
  exists j d, i = (i0 + j)%nat /\ ds !! j = Some d /\ installable d = true
    /\ forall j' d', (j' < j)%nat -> ds !! j' = Some d' -> installable d' = false.
Proof.
  revert i0. induction ds as [|d ds IH]; intros i0; simpl.
  { split; [done|]. by intros (j & d & _ & ? & _). }
  destruct (installable d) eqn:Hd.
  - split.
    + intros [= <-]. exists 0%nat, d. repeat split; [lia|done|lia].
    + intros (j & d' & -> & Hj & _ & Hlt). destruct j as [|j]; [f_equal; lia|].
      specialize (Hlt 0%nat d ltac:(lia) eq_refl). congruence.
  - rewrite IH. split.
    + intros (j & d' & -> & Hj & Hd' & Hlt). exists (S j), d'.
      repeat split; [lia|done|done|].
      intros [|j'] d'' Hj' Hl; simpl in Hl; [congruence|].
      apply (Hlt j'); [lia|done].
    + intros (j & d' & -> & Hj & Hd' & Hlt). destruct j as [|j].
      { simpl in Hj. congruence. }
      exists j, d'. repeat split; [lia|done|done|].
      intros j' d'' Hj' Hl. apply (Hlt (S j')); [lia|done].
Qed.

Lemma scan_from_None (ds : list Dependency) (i0 : nat) :
  scan_from i0 ds = None <-> Forall (fun d => installable d = false) ds.
Proof.
  revert i0. induction ds as [|d ds IH]; intros i0; simpl.
  { split; [constructor|done]. }
  destruct (installable d) eqn:Hd.
  - split; [done|]. intros Hf. apply Forall_cons in Hf as [? _]. congruence.
  - rewrite IH. split; [by constructor|]. by intros [_ ?]%Forall_cons.
Qed.

Lemma alter_lookup (f : Dependency -> Dependency) (ds : list Dependency)
  (i : nat) (d : Dependency) :
  ds !! i = Some d -> alter f i ds = <[i := f d]> ds.
Proof.
  revert i. induction ds as [|x ds IH]; intros [|i] Hd; simplify_eq/=; [done|].
  f_equal. by apply IH.
Qed.

(** Counting the entries with a flag, when one entry is replaced. *)
Lemma count_insert (f : Dependency -> bool) (ds : list Dependency) (i : nat)
  (d d' : Dependency) :
  ds !! i = Some d ->
  (length (filter (fun x => f x = true) (<[i := d']> ds))
   + (if f d then 1 else 0)
   = length (filter (fun x => f x = true) ds) + (if f d' then 1 else 0))%nat.
Proof.
  revert i. induction ds as [|x ds IH]; intros [|i] Hd; simplify_eq/=.
  - rewrite !filter_cons. destruct (f d) eqn:Hfd, (f d') eqn:Hfd';
      repeat case_decide; simpl; try congruence; lia.
  - rewrite !filter_cons. specialize (IH i Hd).
    case_decide; simpl; lia.
Qed.

Lemma count_installable_idle (ds : list Dependency) :
  Forall idle ds -> count_installable ds = count_selected ds.
Proof.
  unfold count_installable, count_selected.
  induction 1 as [|d ds [Hi Hd] _ IH]; [done|].
  assert (installable d = selected d) as Hsel.
  { unfold installable. rewrite Hi, Hd. by destruct (selected d). }
  rewrite !filter_cons.
  destruct (decide (installable d = true)), (decide (selected d = true));
    simpl; congruence.
Qed.

Lemma Update_InstallAllMsg_found (m : Model) (i : nat) (d : Dependency) :
  dependencies m !! i = Some d ->
  installable d = true ->
  (forall j d', (j < i)%nat -> dependencies m !! j = Some d' ->
                installable d' = false) ->
  Update m InstallAllMsg
  = Some (set_dependencies (<[i := set_installing true d]> (dependencies m)) m,
          cmd_func (call_installDependency
                      (set_dependencies
                         (<[i := set_installing true d]> (dependencies m)) m)
                      (Z.of_nat i))).
Proof.
  intros Hi Hd Hlt. unfold Update.
  assert (scan_from 0 (dependencies m) = Some i) as ->.
  { apply scan_from_Some. exists i, d. done. }
  by rewrite (alter_lookup _ _ _ d).
Qed.

Lemma Update_InstallAllMsg_none (m : Model) :
  Forall (fun d => installable d = false) (dependencies m) ->
  Update m InstallAllMsg
  = Some (set_view Page4View m, cmd_func (call_runAudit (set_view Page4View m))).
Proof.
  intros Hn. unfold Update.
  by rewrite (proj2 (scan_from_None (dependencies m) 0) Hn).
Qed.

Lemma Update_OnInstalledMsg (m : Model) (i : nat) (d : Dependency) :
  dependencies m !! i = Some d ->
  Update m (OnInstalledMsg (Z.of_nat i))
  = Some (set_installCount (wrap_int (installCount m + 1))
            (set_dependencies
               (<[i := set_installed true (set_installing false d)]>
                  (dependencies m)) m),
          cmd_func return_InstallAllMsg).
Proof.
  intros Hi. unfold Update, index.
  destruct (Z.leb_spec 0 (Z.of_nat i)); [|lia].
  rewrite Nat2Z.id, Hi. reflexivity.
Qed.

Lemma installDependency_ok (m : Model) (i : nat) (d : Dependency) (w : World) :
  dependencies m !! i = Some d ->
  p_error (run_process w (install_args d) (projectPath m)) = None ->
  installDependency m (Z.of_nat i) w = (Some (OnInstalledMsg (Z.of_nat i)), w).
Proof.
  intros Hi Hok. unfold installDependency, index.
  destruct (Z.leb_spec 0 (Z.of_nat i)); [|lia].
  rewrite Nat2Z.id, Hi. unfold bind, execOutput. rewrite Hok. reflexivity.
Qed.



Section Sequencer.

Context `{decoder : JSON}.

(** One round of the sequencer when every install succeeds: the first
    installable entry is marked, installed and counted, and the sequencer is
    triggered again. *)
Lemma sequencer_round (m : Model) (w : World) (i : nat) (d : Dependency) :
  dependencies m !! i = Some d ->
  installable d = true ->
  (forall j d', (j < i)%nat -> dependencies m !! j = Some d' ->
                installable d' = false) ->
  all_succeed w ->
  run (installing_starts m w) [finishes 0; finishes 0]
  = installing_starts
      (set_installCount (wrap_int (installCount m + 1))
         (set_dependencies
            (<[i := set_installed true (set_installing false d)]>
               (dependencies m)) m)) w.
Proof.
  intros Hi Hd Hlt Hok. unfold run, installing_starts. simpl.
  unfold step at 2. simpl. unfold deliver.
  rewrite (Update_InstallAllMsg_found m i d Hi Hd Hlt). simpl.
  assert (dependencies
            (set_dependencies (<[i:=set_installing true d]> (dependencies m)) m)
            !! i = Some (set_installing true d)) as Hi1.
  { simpl. apply list_lookup_insert_eq. by eapply lookup_lt_Some. }
  unfold step. simpl.
  rewrite (installDependency_ok _ i _ w Hi1) by apply Hok.
  unfold deliver. cbn [model pending world status].
  rewrite (Update_OnInstalledMsg _ i _ Hi1). simpl.
  by rewrite list_insert_insert_eq.
Qed.

Lemma sequencer_end (m : Model) (w : World) :
  Forall (fun d => installable d = false) (dependencies m) ->
  run (installing_starts m w) [finishes 0]
  = mkSys (set_view Page4View m) [[call_runAudit (set_view Page4View m)]]
      w Running.
Proof.
  intros Hn. unfold run, installing_starts. simpl.
  unfold step. simpl. unfold deliver.
  by rewrite (Update_InstallAllMsg_none m Hn).
Qed.

Lemma run_app (s : Sys) (evs1 evs2 : list Event) :
  run s (evs1 ++ evs2) = run (run s evs1) evs2.
Proof. apply fold_left_app. Qed.

Lemma count_installable_0 (ds : list Dependency) :
  count_installable ds = 0%nat -> Forall (fun d => installable d = false) ds.
Proof.
  unfold count_installable. induction ds as [|d ds IH]; [constructor|].
  rewrite filter_cons. case_decide; simpl; [done|].
  intros H0. constructor; [by destruct (installable d)|auto].
Qed.

Lemma count_installable_pos (ds : list Dependency) (r : nat) :
  count_installable ds = S r -> exists i, scan_from 0 ds = Some i.
Proof.
  intros Hr. destruct (scan_from 0 ds) as [i|] eqn:Hs; [eauto|].
  apply scan_from_None in Hs. exfalso.
  unfold count_installable in Hr. induction Hs as [|d ds Hd _ IH]; [done|].
  rewrite filter_cons in Hr. case_decide; [congruence|auto].
Qed.

(** The sequencer, run to the end with every install succeeding: after two
    steps for each installable entry and one more, the page is the fourth,
    the audit is the one piece of work, and the count has grown by the
    number of installable entries. *)
Lemma sequencer_runs (r : nat) (m : Model) (w : World) :
  count_installable (dependencies m) = r ->
  int_min <= installCount m ->
  installCount m + Z.of_nat r <= int_max ->
  all_succeed w ->
  exists m',
    run (installing_starts m w) (repeat (finishes 0) (2 * r + 1))
    = mkSys m' [[call_runAudit m']] w Running
    /\ view m' = Page4View
    /\ installCount m' = installCount m + Z.of_nat r
    /\ length (dependencies m') = length (dependencies m)
    /\ forall n, (n <= 2 * r)%nat ->
         view (model (run (installing_starts m w) (repeat (finishes 0) n)))
         = view m.
Proof.
  revert m. induction r as [|r IH]; intros m Hr Hlo Hhi Hok.
  - apply count_installable_0 in Hr.
    exists (set_view Page4View m).
    change (repeat (finishes 0) (2 * 0 + 1)) with [finishes 0].
    rewrite (sequencer_end m w Hr).
    repeat split; [simpl; lia|]. intros n Hn.
    replace n with 0%nat by lia. done.
  - destruct (count_installable_pos _ _ Hr) as [i Hs].
    apply scan_from_Some in Hs as (j & d & -> & Hi & Hd & Hlt).
    assert (repeat (finishes 0) (2 * S r + 1)
            = [finishes 0; finishes 0] ++ repeat (finishes 0) (2 * r + 1))
      as Hrep.
    { replace (2 * S r + 1)%nat with (2 + (2 * r + 1))%nat by lia. done. }
    set (m2 := set_installCount (wrap_int (installCount m + 1))
                 (set_dependencies
                    (<[j := set_installed true (set_installing false d)]>
                       (dependencies m)) m)).
    pose proof (sequencer_round m w j d Hi Hd Hlt Hok) as Hround.
    fold m2 in Hround.
    assert (installCount m2 = installCount m + 1) as Hc2.
    { simpl. apply wrap_int_small. lia. }
    destruct (IH m2) as (m' & Hrun & Hv & Hc & Hl & Hview); [|lia|lia|done|].
    { pose proof (count_insert installable (dependencies m) j d
                    (set_installed true (set_installing false d)) Hi) as Hins.
      assert (installable (set_installed true (set_installing false d)) = false)
        as Hd' by (unfold installable; simpl; by rewrite andb_false_r).
      rewrite Hd, Hd' in Hins. unfold count_installable in *.
      change (dependencies m2)
        with (<[j := set_installed true (set_installing false d)]>
                (dependencies m)). lia. }
    exists m'. rewrite Hrep, run_app, Hround, Hrun.
    split; [done|]. split; [done|]. split; [lia|].
    split; [rewrite Hl; simpl; by rewrite length_insert|].
    intros n Hn. destruct n as [|[|n]].
    + done.
    + unfold run, installing_starts. simpl. unfold step. simpl. unfold deliver.
      by rewrite (Update_InstallAllMsg_found m j d Hi Hd Hlt).
    + change (repeat (finishes 0) (S (S n)))
        with ([finishes 0; finishes 0] ++ repeat (finishes 0) n).
      rewrite run_app, Hround, Hview by lia. done.
Qed.


End Sequencer.

(** ** The exit status *)

Section Exit.

Context `{decoder : JSON}.

Lemma step_cancel (s : Sys) (k : Key) :
  status s = Running ->
  is_cancel (Type_ k) = true ->
  step s (key_pressed k)
  = mkSys (model s) (pending s ++ [[tea_Quit]]) (world s) Running.
Proof.
  intros Hs Hk. unfold step. rewrite Hs.
  unfold deliver, Update, Update_key. by rewrite Hk, Hs.
Qed.

Lemma step_quit (m : Model) (ps : list (list Closure)) (w : World) :
  step (mkSys m (ps ++ [[tea_Quit]]) w Running) (finishes (length ps))
  = mkSys m (delete (length ps) (ps ++ [[tea_Quit]])) w Exited.
Proof.
  unfold step. cbn [status pending model world].
  rewrite lookup_app_r by done. rewrite Nat.sub_diag. reflexivity.
Qed.

Lemma cancel_quits (s : Sys) (k : Key) :
  status s = Running ->
  is_cancel (Type_ k) = true ->
  status (run s [key_pressed k; finishes (length (pending s))]) = Exited
  /\ model (run s [key_pressed k; finishes (length (pending s))]) = model s.
Proof.
  intros Hs Hk. unfold run. cbn [fold_left].
  by rewrite (step_cancel s k Hs Hk), step_quit.
Qed.

Lemma step_returns (s : Sys) (n : nat) (c : Closure) (rest : list Closure)
  (msg : Msg) (w' : World) :
  status s = Running ->
  pending s !! n = Some (c :: rest) ->
  run_closure c (world s) = (Some msg, w') ->
  step s (finishes n)
  = deliver (mkSys (model s) (after_call n rest (pending s)) w' Running) msg.
Proof. intros Hs Hn Hrun. unfold step. by rewrite Hs, Hn, Hrun. Qed.

(** The two events that end the loop once a function has returned a message
    for which [Update] returns [tea.Quit]. *)
Lemma quits_after (s : Sys) (n : nat) (c : Closure) (rest : list Closure)
  (msg : Msg) (w' : World) (m' : Model) :
  status s = Running ->
  pending s !! n = Some (c :: rest) ->
  run_closure c (world s) = (Some msg, w') ->
  deliver (mkSys (model s) (after_call n rest (pending s)) w' Running) msg
  = mkSys m' (after_call n rest (pending s) ++ [[tea_Quit]]) w' Running ->
  model (step s (finishes n)) = m'
  /\ status (step s (finishes n)) = Running
  /\ status (run s [finishes n;
                    finishes (length (after_call n rest (pending s)))])
     = Exited.
Proof.
  intros Hs Hn Hrun HU. unfold run. cbn [fold_left].
  rewrite (step_returns s n c rest msg w' Hs Hn Hrun), HU, step_quit.
  done.
Qed.

Lemma main_exited (w : World) (evs : list Event) :
  terminal_error w = None ->
  status (run (boot w) evs) = Exited ->
  main w evs = Some (mkProcess 0 [] []).
Proof. intros Ht Hs. unfold main, program_Run. by rewrite Ht, Hs. Qed.

Lemma main_running (w : World) (evs : list Event) :
  terminal_error w = None ->
  status (run (boot w) evs) = Running ->
  main w evs = None.
Proof. intros Ht Hs. unfold main, program_Run. by rewrite Ht, Hs. Qed.

(** C3, as the code has it.  Whenever the process ends: if the UI library
    could start, the event loop has ended on [QuitMsg] and the exit status is
    0, with nothing printed by [main]; if the library could not start,
    [program.Run] returns its error, which [main] prints on the standard
    output, and the exit status is 1.  Nothing is ever printed on the
    standard error.  The loop ends on [QuitMsg], so with exit status 0, in
    each of these cases: after a cancel key; after a fatal error, that is
    when a command of the program returns [ErrorMsg], whose text [Update]
    only puts in the model for the view before it returns [tea.Quit]; and
    on completion, when the audit report arrives and the last page is
    shown. *)
Theorem exit_status (w : World) :
  (forall evs p,
     main w evs = Some p ->
     (terminal_error w = None ->
      status (run (boot w) evs) = Exited /\ p = mkProcess 0 [] [])
     /\ (forall e, terminal_error w = Some e -> p = mkProcess 1 [e] [])
     /\ printed_stderr p = [])
  /\ (forall e evs,
        terminal_error w = Some e -> main w evs = Some (mkProcess 1 [e] []))
  /\ (forall evs k,
        terminal_error w = None ->
        status (run (boot w) evs) = Running ->
        is_cancel (Type_ k) = true ->
        exists n,
          main w (evs ++ [key_pressed k; finishes n])
          = Some (mkProcess 0 [] []))
  /\ (forall evs n c rest w' e,
        terminal_error w = None ->
        status (run (boot w) evs) = Running ->
        pending (run (boot w) evs) !! n = Some (c :: rest) ->
        run_closure c (world (run (boot w) evs)) = (Some (ErrorMsg e), w') ->
        error (model (run (boot w) (evs ++ [finishes n]))) = e
        /\ main w (evs ++ [finishes n]) = None
        /\ exists k,
             main w (evs ++ [finishes n; finishes k])
             = Some (mkProcess 0 [] []))
  /\ (forall evs n c rest w' a,
        terminal_error w = None ->
        status (run (boot w) evs) = Running ->
        pending (run (boot w) evs) !! n = Some (c :: rest) ->
        run_closure c (world (run (boot w) evs)) = (Some (AuditMsg a), w') ->
        view (model (run (boot w) (evs ++ [finishes n]))) = Page5View
        /\ audit (model (run (boot w) (evs ++ [finishes n]))) = a
        /\ main w (evs ++ [finishes n]) = None
        /\ exists k,
             main w (evs ++ [finishes n; finishes k])
             = Some (mkProcess 0 [] [])).
Proof.
  split; [|split; [|split; [|split]]].
  - unfold main, program_Run. intros evs p Hp. split; [|split].
    + intros Ht. rewrite Ht in Hp.
      destruct (status (run (boot w) evs)); by simplify_eq.
    + intros e Ht. rewrite Ht in Hp. by simplify_eq.
    + destruct (terminal_error w); [by simplify_eq|].
      destruct (status (run (boot w) evs)); by simplify_eq.
  - intros e evs Ht. unfold main, program_Run. by rewrite Ht.
  - intros evs k Ht Hs Hk. exists (length (pending (run (boot w) evs))).
    apply main_exited; [done|]. rewrite run_app.
    by destruct (cancel_quits _ k Hs Hk) as [-> _].
  - intros evs n c rest w' e Ht Hs Hn Hrun.
    destruct (quits_after _ n c rest _ w' (set_error e (model (run (boot w) evs)))
                Hs Hn Hrun eq_refl) as (Hm & Hst & Hex).
    rewrite !run_app. change (run ?s [finishes n]) with (step s (finishes n)).
    split; [by rewrite Hm|]. split.
    + apply main_running; [done|]. by rewrite run_app.
    + eexists. apply main_exited; [done|]. rewrite run_app. exact Hex.
  - intros evs n c rest w' a Ht Hs Hn Hrun.
    destruct (quits_after _ n c rest _ w'
                (set_view Page5View (set_audit a (model (run (boot w) evs))))
                Hs Hn Hrun eq_refl) as (Hm & Hst & Hex).
    rewrite !run_app. change (run ?s [finishes n]) with (step s (finishes n)).
    split; [by rewrite Hm|]. split; [by rewrite Hm|]. split.
    + apply main_running; [done|]. by rewrite run_app.
    + eexists. apply main_exited; [done|]. rewrite run_app. exact Hex.
Qed.

End Exit.

(** ** The event loop *)

Lemma chain_work_app (ps qs : list (list Closure)) :
  chain_work (ps ++ qs) = (chain_work ps + chain_work qs)%nat.
Proof.
  unfold chain_work. by rewrite concat_app, filter_app, length_app.
Qed.

Lemma chain_work_cons (p : list Closure) (ps : list (list Closure)) :
  chain_work (p :: ps) = (chain_work [p] + chain_work ps)%nat.
Proof. apply (chain_work_app [p] ps). Qed.

Lemma chain_work_one (c : Closure) (rest : list Closure) :
  chain_work [c :: rest]
  = ((if is_chain c then 1 else 0) + chain_work [rest])%nat.
Proof.
  unfold chain_work. simpl. rewrite !app_nil_r, filter_cons.
  destruct (is_chain c); simpl; done.
Qed.

(** Taking the first function off the piece of work at place [n]. *)
Lemma chain_work_after_call (ps : list (list Closure)) (n : nat) (c : Closure)
  (rest : list Closure) :
  ps !! n = Some (c :: rest) ->
  chain_work ps
  = ((if is_chain c then 1 else 0) + chain_work (after_call n rest ps))%nat.
Proof.
  intros Hn. pose proof (lookup_lt_Some _ _ _ Hn) as Hlt.
  rewrite <- (take_drop_middle ps n (c :: rest) Hn) at 1.
  rewrite chain_work_app, chain_work_cons, chain_work_one.
  unfold after_call. destruct rest as [|c' rest].
  - rewrite delete_take_drop, (chain_work_app (take n ps)).
    change (chain_work [[]]) with 0%nat. destruct (is_chain c); lia.
  - rewrite insert_take_drop by done.
    rewrite (chain_work_app (take n ps)),
      (chain_work_cons (c' :: rest) (drop (S n) ps)).
    destruct (is_chain c); lia.
Qed.

Lemma Forall_after_call (P : Closure -> Prop) (ps : list (list Closure))
  (n : nat) (c : Closure) (rest : list Closure) :
  ps !! n = Some (c :: rest) ->
  Forall (Forall P) ps ->
  P c /\ Forall (Forall P) (after_call n rest ps).
Proof.
  intros Hn Hps. pose proof (lookup_lt_Some _ _ _ Hn) as Hlt.
  pose proof (Forall_lookup_1 _ _ _ _ Hps Hn) as Hc.
  apply Forall_cons in Hc as [Hc Hrest]. split; [done|].
  unfold after_call. destruct rest as [|c' rest].
  - rewrite delete_take_drop. apply Forall_app.
    split; [by apply Forall_take|by apply Forall_drop].
  - rewrite insert_take_drop by done. apply Forall_app.
    split; [by apply Forall_take|].
    apply Forall_cons. split; [done|by apply Forall_drop].
Qed.

Lemma Forall_delete_pending (P : Closure -> Prop) (ps : list (list Closure))
  (n : nat) :
  Forall (Forall P) ps -> Forall (Forall P) (delete n ps).
Proof.
  intros Hps. rewrite delete_take_drop. apply Forall_app.
  split; [by apply Forall_take|by apply Forall_drop].
Qed.

Lemma chain_work_delete_nil (ps : list (list Closure)) (n : nat) :
  ps !! n = Some [] -> chain_work (delete n ps) = chain_work ps.
Proof.
  intros Hn. rewrite <- (take_drop_middle ps n [] Hn) at 2.
  rewrite delete_take_drop, !chain_work_app, (chain_work_cons []).
  change (chain_work [[]]) with 0%nat. lia.
Qed.

(** With no function of the installation among them, the functions yet to
    be called rely on nothing. *)
Lemma closure_ok_no_chain (m : Model) (ps : list (list Closure)) :
  chain_work ps = 0%nat -> Forall (Forall (closure_ok m)) ps.
Proof.
  unfold chain_work. intros H0.
  assert (Forall (closure_ok m) (concat ps)) as Hall.
  { induction (concat ps) as [|c cs IH]; [constructor|].
    rewrite filter_cons in H0. destruct (is_chain c) eqn:Hc; simpl in H0.
    - discriminate.
    - constructor; [by destruct c|auto]. }
  clear H0. induction ps as [|p ps IH]; [constructor|].
  simpl in Hall. apply Forall_app in Hall as [? ?]. constructor; auto.
Qed.

(** The functions rely on the list of entries only. *)
Lemma closure_ok_same (m m' : Model) (c : Closure) :
  dependencies m' = dependencies m -> closure_ok m c -> closure_ok m' c.
Proof. intros Hd. destruct c; simpl; by rewrite ?Hd. Qed.

Lemma pending_ok_same (m m' : Model) (ps : list (list Closure)) :
  dependencies m' = dependencies m ->
  Forall (Forall (closure_ok m)) ps -> Forall (Forall (closure_ok m')) ps.
Proof.
  intros Hd Hps. eapply Forall_impl; [exact Hps|]. intros p Hp.
  eapply Forall_impl; [exact Hp|]. intros c. by apply closure_ok_same.
Qed.

(** ** The three invariants *)

Lemma invariants_spec (m : Model) :
  invariants m = true <->
  Forall (fun d => installing d = true ->
                   selected d = true /\ installed d = false) (dependencies m)
  /\ (count_installing (dependencies m) <= 1)%nat
  /\ installCount m = Z.of_nat (count_installed (dependencies m)).
Proof.
  unfold invariants, invariant1, invariant2, invariant3.
  rewrite !andb_true_iff, Z.eqb_eq, Nat.leb_le.
  assert (forallb installing_ok (dependencies m) = true <->
          Forall (fun d => installing d = true ->
                           selected d = true /\ installed d = false)
            (dependencies m)) as ->; [|tauto].
  rewrite forallb_forall, Forall_forall. setoid_rewrite <- list_elem_of_In.
  unfold installing_ok. split; intros H d Hd; specialize (H d Hd).
  - intros Hi. rewrite Hi in H. simpl in H.
    apply andb_true_iff in H as [? ?%negb_true_iff]. done.
  - destruct (installing d); [|done]. destruct (H eq_refl) as [-> ->]. done.
Qed.

Lemma invariants_same (m m' : Model) :
  dependencies m' = dependencies m -> installCount m' = installCount m ->
  invariants m' = invariants m.
Proof.
  intros Hd Hc. unfold invariants, invariant1, invariant2, invariant3.
  by rewrite Hd, Hc.
Qed.

Lemma idle_counts (ds : list Dependency) :
  Forall idle ds ->
  count_installing ds = 0%nat /\ count_installed ds = 0%nat.
Proof.
  unfold count_installing, count_installed.
  induction 1 as [|d ds [Hi Hd] _ [IH1 IH2]]; [done|].
  rewrite !filter_cons, Hi, Hd. simpl. done.
Qed.

Lemma idle_invariants (m : Model) :
  Forall idle (dependencies m) -> installCount m = 0 -> invariants m = true.
Proof.
  intros Hidle Hc. apply invariants_spec.
  destruct (idle_counts _ Hidle) as [-> ->]. repeat split; [|lia|done].
  eapply Forall_impl; [exact Hidle|]. intros d [Hi _] Hi'. congruence.
Qed.

Lemma idle_initial : Forall idle (dependencies initialModel).
Proof. repeat constructor. Qed.

Lemma idle_react_extras : Forall idle react_extras.
Proof. repeat constructor. Qed.

Lemma idle_kysely_extras : Forall idle kysely_extras.
Proof. repeat constructor. Qed.

(** What the expander returns holds idle entries only, at most six for each
    entry of the list. *)
Lemma expand_idle (m : Model) (rest deps ds : list Dependency) (w w2 : World) :
  extraDependencies_from m rest deps w = (ExtraDepsMessage ds, w2) ->
  Forall idle deps ->
  Forall idle ds /\ (length ds <= length deps + 6 * length rest)%nat.
Proof.
  revert deps w. induction rest as [|d rest IH]; intros deps w H Hdeps.
  { injection H as <- <-. split; [done|lia]. }
  destruct (selected d) eqn:Hs.
  2:{ rewrite expand_skip in H by done. destruct (IH _ _ H Hdeps).
      split; [done|]. simpl. lia. }
  apply expand_round in H as (e1 & wa & e2 & wb & e3 & wc & _ & _ & _ & H);
    [|done].
  destruct H as [[Hx _]|(_ & _ & _ & deps' & Hd' & H)]; [done|].
  destruct (IH _ _ H) as [Hi Hl].
  { subst deps'. destruct (String.eqb (name d) "react"),
      (String.eqb (name d) "kysely"); simpl;
      repeat (apply Forall_app; split);
      auto using idle_react_extras, idle_kysely_extras. }
  split; [done|]. subst deps'. simpl.
  destruct (String.eqb (name d) "react"), (String.eqb (name d) "kysely");
    simpl in Hl; rewrite ?length_app in Hl; simpl in Hl; lia.
Qed.

Lemma setupProject_msg (m : Model) (w : World) :
  (exists p, fst (setupProject m w) = SetupMessage p)
  \/ (exists e, fst (setupProject m w) = ErrorMsg e).
Proof.
  unfold setupProject, bind.
  destruct (getProjectPath _ w) as [[p0 [e|]] wa]; simpl; [eauto|].
  destruct (writeJson p0 "package.json" _ wa) as [[e|] wb]; simpl; [eauto|].
  destruct (writeJson p0 "tsconfig.json" _ wb) as [[e|] wc]; simpl; [eauto|].
  destruct (copyStaticFile m _ "eslintrc.cjs" wc) as [[e|] wd]; simpl; [eauto|].
  destruct (copyStaticFile m _ "esbuild.js" wd) as [[e|] we]; simpl; eauto.
Qed.

Lemma extraDependencies_msg (m : Model) (w : World) :
  (exists ds, fst (extraDependencies m w) = ExtraDepsMessage ds
              /\ Forall idle ds
              /\ (length ds <= 6 * length (dependencies m))%nat)
  \/ (exists e, fst (extraDependencies m w) = ErrorMsg e).
Proof.
  unfold extraDependencies.
  assert (forall rest deps w,
            (exists ds, fst (extraDependencies_from m rest deps w)
                        = ExtraDepsMessage ds)
            \/ (exists e, fst (extraDependencies_from m rest deps w)
                          = ErrorMsg e)) as Hkind.
  { induction rest as [|d rest IH]; intros deps w0; [left; by eexists|].
    destruct (selected d) eqn:Hs.
    2:{ rewrite expand_skip by done. apply IH. }
    destruct (extraDependencies_from m (d :: rest) deps w0) as [msg w2] eqn:H.
    apply expand_round in H as (e1 & wa & e2 & wb & e3 & wc & _ & _ & _ & H);
      [|done].
    destruct H as [[Hx _]|(_ & _ & _ & deps' & _ & H)].
    - right. destruct msg; try discriminate. simpl. eauto.
    - specialize (IH deps' wc). rewrite H in IH. done. }
  destruct (Hkind (dependencies m) [] w) as [[ds Hds]|He]; [left|by right].
  destruct (extraDependencies_from m (dependencies m) [] w) as [msg w2] eqn:H.
  simpl in Hds. subst msg. apply expand_idle in H as [? ?]; [|constructor].
  exists ds. simpl in *. repeat split; [done|lia].
Qed.

(** ** One message at a time *)

Ltac split_after_setup :=
  unfold after_setup; split; [|split; [|split; [|split; [|split]]]].

(** The model changes in nothing the invariants look at, and no function
    of the installation is added. *)
Lemma after_setup_keep (m m' : Model) (ps ps' : list (list Closure)) :
  after_setup m ps ->
  view m' = view m ->
  dependencies m' = dependencies m ->
  installCount m' = installCount m ->
  (chain_work ps' <= chain_work ps)%nat ->
  Forall (Forall (closure_ok m)) ps' ->
  after_setup m' ps'.
Proof.
  intros (Hv & Hinv & Hlen & Hw & H2 & Hok) Hv' Hd Hc Hle Hok'.
  split_after_setup.
  - by rewrite Hv'.
  - by rewrite (invariants_same m m' Hd Hc).
  - by rewrite Hd.
  - lia.
  - rewrite Hv', Hd. intros Hp. destruct (H2 Hp) as (? & ? & ?).
    split; [lia|done].
  - by apply (pending_ok_same m).
Qed.

Lemma chain_work_quit (ps : list (list Closure)) :
  chain_work (ps ++ [[tea_Quit]]) = chain_work ps.
Proof.
  rewrite chain_work_app. change (chain_work [[tea_Quit]]) with 0%nat. lia.
Qed.

Lemma pending_ok_quit (m : Model) (ps : list (list Closure)) :
  Forall (Forall (closure_ok m)) ps ->
  Forall (Forall (closure_ok m)) (ps ++ [[tea_Quit]]).
Proof.
  intros H. apply Forall_app. split; [done|].
  constructor; [|constructor]. constructor; [exact I|constructor].
Qed.

Lemma idle_toggle (ds : list Dependency) (i : nat) (d : Dependency) (b : bool) :
  Forall idle ds -> ds !! i = Some d ->
  Forall idle (<[i := set_selected b d]> ds).
Proof.
  intros Hds Hd. apply Forall_insert; [done|].
  exact (Forall_lookup_1 _ _ _ _ Hds Hd).
Qed.

Lemma after_setup_quit (m : Model) (ps : list (list Closure)) :
  after_setup m ps -> after_setup m (ps ++ [[tea_Quit]]).
Proof.
  intros Hpost. pose proof Hpost as (_ & _ & _ & _ & _ & Hok).
  apply (after_setup_keep m m ps); try done.
  - by rewrite chain_work_quit.
  - by apply pending_ok_quit.
Qed.

(** A toggle on the selection page. *)
Lemma after_setup_toggle (m : Model) (ps : list (list Closure))
  (d : Dependency) (b : bool) :
  after_setup m ps ->
  view m = Page2View ->
  dependencies m !! Z.to_nat (cursor m) = Some d ->
  after_setup
    (set_dependencies
       (<[Z.to_nat (cursor m) := set_selected b d]> (dependencies m)) m) ps.
Proof.
  intros (Hv & Hinv & Hlen & Hw & H2 & Hok) Hview Hd.
  destruct (H2 Hview) as (H0 & Hidle & H7).
  apply invariants_spec in Hinv as (_ & _ & Hc).
  destruct (idle_counts _ Hidle) as [_ Hz]. rewrite Hz in Hc.
  pose proof (idle_toggle _ _ d b Hidle Hd) as Hidle'.
  split_after_setup.
  - done.
  - by apply idle_invariants.
  - simpl. by rewrite length_insert.
  - done.
  - intros _. simpl. rewrite length_insert. done.
  - by apply closure_ok_no_chain.
Qed.

(** The confirm key on the selection page. *)
Lemma after_setup_confirm (m : Model) (ps : list (list Closure)) :
  after_setup m ps ->
  view m = Page2View ->
  after_setup (set_view Page3View m)
    (ps ++ [[call_extraDependencies (set_view Page3View m)]]).
Proof.
  intros (Hv & Hinv & Hlen & Hw & H2 & Hok) Hview.
  destruct (H2 Hview) as (H0 & Hidle & H7).
  split_after_setup.
  - done.
  - by rewrite (invariants_same m (set_view Page3View m)).
  - done.
  - rewrite chain_work_app, H0. done.
  - done.
  - apply Forall_app. split; [by apply closure_ok_no_chain|].
    constructor; [|constructor]. constructor; [|constructor].
    simpl. done.
Qed.

(** A key, after the setup. *)
Lemma after_setup_key (m m' : Model) (ps : list (list Closure)) (k : Key)
  (c : Cmd) :
  after_setup m ps ->
  Update m (KeyMsg k) = Some (m', c) ->
  after_setup m' (ps ++ spawn c).
Proof.
  intros Hpost. pose proof Hpost as (Hv & Hinv & Hlen & Hw & H2 & Hok).
  unfold Update, Update_key.
  destruct (is_cancel (Type_ k)).
  { intros [= <- <-]. by apply after_setup_quit. }
  destruct (view m) eqn:Hview; cbn [eqb_page].
  - done.
  - destruct (is_toggle (Type_ k)).
    { destruct (index (dependencies m) (cursor m)) as [d|] eqn:Hd; [|done].
      apply index_Some in Hd as [_ Hd].
      intros [= <- <-]. cbn [spawn]. rewrite app_nil_r.
      destruct (selected d); by apply after_setup_toggle. }
    destruct (Type_ k); intros [= <- <-]; cbn [spawn];
      rewrite ?app_nil_r; try done.
    + by apply after_setup_confirm.
    + destruct (0 <? cursor m); [|done].
      by apply (after_setup_keep m _ ps).
    + destruct (cursor m <? len (dependencies m) - 1); [|done].
      by apply (after_setup_keep m _ ps).
  - intros [= <- <-]. cbn [spawn]. by rewrite app_nil_r.
  - intros [= <- <-]. cbn [spawn]. by rewrite app_nil_r.
  - intros [= <- <-]. cbn [spawn]. by rewrite app_nil_r.
Qed.

(** An error of a command, after the setup. *)
Lemma after_setup_error (m : Model) (ps : list (list Closure)) (e : string) :
  after_setup m ps -> after_setup (set_error e m) (ps ++ [[tea_Quit]]).
Proof.
  intros Hpost. pose proof Hpost as (_ & _ & _ & _ & _ & Hok).
  apply (after_setup_keep m _ ps); try done.
  - by rewrite chain_work_quit.
  - by apply pending_ok_quit.
Qed.

(** The result of the audit. *)
Lemma after_setup_audit (m : Model) (ps : list (list Closure))
  (a : npmAuditJSON) :
  after_setup m ps ->
  after_setup (set_view Page5View (set_audit a m)) (ps ++ [[tea_Quit]]).
Proof.
  intros (Hv & Hinv & Hlen & Hw & H2 & Hok).
  split_after_setup.
  - done.
  - by rewrite (invariants_same m (set_view Page5View (set_audit a m))).
  - done.
  - by rewrite chain_work_quit.
  - done.
  - apply pending_ok_quit. by apply (pending_ok_same m).
Qed.

(** What the expander found. *)
Lemma after_setup_extra (m mc : Model) (ps : list (list Closure))
  (ds : list Dependency) :
  after_setup m ps ->
  chain_work ps = 0%nat ->
  view m <> Page2View ->
  closure_ok m (call_extraDependencies mc) ->
  Forall idle ds ->
  (length ds <= 6 * length (dependencies mc))%nat ->
  after_setup (set_dependencies (dependencies m ++ ds) m)
    (ps ++ [[return_InstallAllMsg]]).
Proof.
  intros (Hv & Hinv & Hlen & Hw & H2 & Hok) H0 Hv2 (Hidle & H7 & H7c) Hds Hl.
  assert (Forall idle (dependencies m ++ ds)) as Hidle'
    by (apply Forall_app; done).
  apply invariants_spec in Hinv as (_ & _ & Hc).
  destruct (idle_counts _ Hidle) as [_ Hz]. rewrite Hz in Hc.
  split_after_setup.
  - done.
  - by apply idle_invariants.
  - simpl. rewrite length_app. lia.
  - rewrite chain_work_app, H0. done.
  - done.
  - apply Forall_app. split; [by apply closure_ok_no_chain|].
    constructor; [|constructor]. constructor; [|constructor].
    simpl. by destruct (idle_counts _ Hidle').
Qed.

Lemma count_installing_insert (ds : list Dependency) (i : nat)
  (d d' : Dependency) :
  ds !! i = Some d ->
  (count_installing (<[i := d']> ds) + (if installing d then 1 else 0)
   = count_installing ds + (if installing d' then 1 else 0))%nat.
Proof. apply (count_insert installing). Qed.

Lemma count_installed_insert (ds : list Dependency) (i : nat)
  (d d' : Dependency) :
  ds !! i = Some d ->
  (count_installed (<[i := d']> ds) + (if installed d then 1 else 0)
   = count_installed ds + (if installed d' then 1 else 0))%nat.
Proof. apply (count_insert installed). Qed.

Lemma count_installed_le (ds : list Dependency) :
  (count_installed ds <= length ds)%nat.
Proof. apply length_filter. Qed.

Lemma pending_ok_one (m : Model) (ps : list (list Closure)) (c : Closure) :
  chain_work ps = 0%nat -> closure_ok m c ->
  Forall (Forall (closure_ok m)) (ps ++ [[c]]).
Proof.
  intros H0 Hc. apply Forall_app. split; [by apply closure_ok_no_chain|].
  constructor; [|constructor]. constructor; [done|constructor].
Qed.

(** The sequencer marks an entry. *)
Lemma after_setup_mark (m : Model) (ps : list (list Closure)) (j : nat)
  (d : Dependency) :
  after_setup m ps ->
  chain_work ps = 0%nat ->
  view m <> Page2View ->
  count_installing (dependencies m) = 0%nat ->
  dependencies m !! j = Some d ->
  installable d = true ->
  let m1 := set_dependencies
              (<[j := set_installing true d]> (dependencies m)) m in
  after_setup m1 (ps ++ [[call_installDependency m1 (Z.of_nat j)]]).
Proof.
  intros (Hv & Hinv & Hlen & Hw & H2 & Hok) H0 Hv2 Hnone Hj Hd m1.
  apply invariants_spec in Hinv as (H1 & _ & H3).
  unfold installable in Hd.
  apply andb_true_iff in Hd as [Hd Hg%negb_true_iff].
  apply andb_true_iff in Hd as [Hsel Hed%negb_true_iff].
  pose proof (count_installing_insert _ j d (set_installing true d) Hj) as Hci.
  pose proof (count_installed_insert _ j d (set_installing true d) Hj) as Hcd.
  rewrite Hg in Hci. cbn [installing installed set_installing] in Hci, Hcd.
  rewrite Hed in Hcd.
  split_after_setup.
  - done.
  - apply invariants_spec. subst m1. cbn [dependencies set_dependencies installCount].
    split; [|split].
    + apply Forall_insert; [done|]. intros _. done.
    + lia.
    + rewrite H3. f_equal. lia.
  - subst m1. cbn [dependencies set_dependencies]. by rewrite length_insert.
  - rewrite chain_work_app, H0. done.
  - done.
  - apply pending_ok_one; [done|]. subst m1.
    cbn [closure_ok dependencies set_dependencies].
    exists (set_installing true d). split; [|done].
    apply index_Some. split; [lia|].
    rewrite Nat2Z.id. apply list_lookup_insert_eq. by eapply lookup_lt_Some.
Qed.

(** The trigger of the sequencer, when no entry is being installed. *)
Lemma after_setup_install_all (m m' : Model) (ps : list (list Closure))
  (c : Cmd) :
  after_setup m ps ->
  chain_work ps = 0%nat ->
  view m <> Page2View ->
  count_installing (dependencies m) = 0%nat ->
  Update m InstallAllMsg = Some (m', c) ->
  after_setup m' (ps ++ spawn c).
Proof.
  intros Hpost H0 Hv2 Hnone.
  unfold Update. destruct (scan_from 0 (dependencies m)) as [i|] eqn:Hs.
  - apply scan_from_Some in Hs as (j & d & -> & Hj & Hd & _).
    rewrite Nat.add_0_l, (alter_lookup _ _ _ d Hj). intros [= <- <-].
    by apply (after_setup_mark m ps j d).
  - intros [= <- <-]. destruct Hpost as (Hv & Hinv & Hlen & Hw & H2 & Hok).
    split_after_setup.
    + done.
    + by rewrite (invariants_same m (set_view Page4View m)).
    + done.
    + cbn [spawn own]. rewrite chain_work_app, H0. done.
    + done.
    + by apply pending_ok_one.
Qed.

(** The end of an install of the entry that is being installed. *)
Lemma after_setup_installed (m m' : Model) (mc : Model)
  (ps : list (list Closure)) (i : Z) (c : Cmd) :
  after_setup m ps ->
  chain_work ps = 0%nat ->
  view m <> Page2View ->
  closure_ok m (call_installDependency mc i) ->
  Update m (OnInstalledMsg i) = Some (m', c) ->
  after_setup m' (ps ++ spawn c).
Proof.
  intros (Hv & Hinv & Hlen & Hw & H2 & Hok) H0 Hv2 (d & Hd & Hing).
  apply invariants_spec in Hinv as (H1 & H2' & H3).
  unfold Update. rewrite Hd. intros [= <- <-].
  apply index_Some in Hd as [Hi Hd].
  destruct (Forall_lookup_1 _ _ _ _ H1 Hd Hing) as [Hsel Hed].
  pose proof (count_installing_insert _ _ d
                (set_installed true (set_installing false d)) Hd) as Hci.
  pose proof (count_installed_insert _ _ d
                (set_installed true (set_installing false d)) Hd) as Hcd.
  rewrite Hing in Hci. rewrite Hed in Hcd.
  cbn [installing installed set_installing set_installed] in Hci, Hcd.
  pose proof (count_installed_le (dependencies m)).
  split_after_setup.
  - done.
  - apply invariants_spec.
    cbn [dependencies set_dependencies installCount set_installCount].
    split; [|split].
    + apply Forall_insert; [done|]. intros Hx. discriminate Hx.
    + lia.
    + rewrite wrap_int_small by (unfold int_min, int_max; lia). lia.
  - cbn [dependencies set_dependencies set_installCount].
    by rewrite length_insert.
  - cbn [spawn own]. rewrite chain_work_app, H0. done.
  - done.
  - apply pending_ok_one; [done|].
    cbn [closure_ok dependencies set_dependencies set_installCount]. lia.
Qed.

(** ** Before the setup *)

Lemma before_setup_keep (m m' : Model) (ps ps' : list (list Closure)) :
  before_setup m ps ->
  view m' = view m ->
  dependencies m' = dependencies m ->
  installCount m' = installCount m ->
  chain_work ps' = 0%nat ->
  before_setup m' ps'.
Proof.
  intros (Hv & Hd & Hc & H0) Hv' Hd' Hc' H0'. unfold before_setup.
  rewrite Hv', Hd', Hc'. done.
Qed.

Lemma before_setup_key (m m' : Model) (ps : list (list Closure)) (k : Key)
  (c : Cmd) :
  before_setup m ps ->
  Update m (KeyMsg k) = Some (m', c) ->
  before_setup m' (ps ++ spawn c).
Proof.
  intros Hpre. pose proof Hpre as (Hv & Hd & Hc & H0).
  unfold Update, Update_key. rewrite Hv. cbn [eqb_page].
  destruct (is_cancel (Type_ k)).
  { intros [= <- <-]. apply (before_setup_keep m m ps); try done.
    by rewrite chain_work_quit. }
  destruct (Type_ k); intros [= <- <-];
    apply (before_setup_keep m _ ps); try done;
    rewrite chain_work_app, H0; done.
Qed.

(** The setup succeeds: the loop goes over to the selection page. *)
Lemma before_setup_done (m : Model) (ps : list (list Closure)) (p : string) :
  before_setup m ps ->
  after_setup (set_view Page2View (set_projectPath p m)) ps.
Proof.
  intros (Hv & Hd & Hc & H0).
  assert (Forall idle (dependencies m)) as Hidle
    by (rewrite Hd; apply idle_initial).
  split_after_setup.
  - done.
  - by apply idle_invariants.
  - cbn [dependencies set_view set_projectPath]. rewrite Hd. simpl. lia.
  - lia.
  - intros _. cbn [dependencies set_view set_projectPath].
    split; [done|]. split; [done|]. by rewrite Hd.
  - by apply closure_ok_no_chain.
Qed.

Lemma before_setup_invariants (m : Model) (ps : list (list Closure)) :
  before_setup m ps -> invariants m = true.
Proof.
  intros (Hv & Hd & Hc & H0). apply idle_invariants; [|done].
  rewrite Hd. apply idle_initial.
Qed.

(** ** One event at a time *)

Section Loop.

Context `{decoder : JSON}.

(** The message a function of the program returns, by the function. *)
Lemma run_closure_kind (c : Closure) (w w' : World) (msg : Msg) :
  run_closure c w = (Some msg, w') ->
  match c with
  | call_setupProject m =>
      (exists p, msg = SetupMessage p) \/ (exists e, msg = ErrorMsg e)
  | call_extraDependencies m =>
      (exists ds, msg = ExtraDepsMessage ds /\ Forall idle ds
                  /\ (length ds <= 6 * length (dependencies m))%nat)
      \/ (exists e, msg = ErrorMsg e)
  | call_installDependency m i =>
      msg = OnInstalledMsg i \/ (exists e, msg = ErrorMsg e)
  | call_runAudit m =>
      (exists a, msg = AuditMsg a) \/ (exists e, msg = ErrorMsg e)
  | return_InstallAllMsg => msg = InstallAllMsg
  | tea_Quit => msg = QuitMsg
  | lib_cmd => msg = LibMsg
  end.
Proof.
  destruct c as [m|m|m i|m| | |]; simpl; unfold bind, ret.
  - pose proof (setupProject_msg m w) as H.
    destruct (setupProject m w) as [msg0 w0]. intros [= <- <-]. exact H.
  - pose proof (extraDependencies_msg m w) as H.
    destruct (extraDependencies m w) as [msg0 w0]. intros [= <- <-]. exact H.
  - unfold installDependency, bind, ret.
    destruct (index (dependencies m) i); [|done].
    destruct (execOutput _ _ w) as [r w0].
    destruct (ee_error (snd r)); intros [= <- <-]; eauto.
  - rewrite runAudit_eq. simpl.
    destruct (p_error _), (json_Unmarshal _); intros [= <- <-]; eauto.
  - by intros [= <- <-].
  - by intros [= <- <-].
  - by intros [= <- <-].
Qed.

Lemma deliver_LibMsg (s : Sys) : deliver s LibMsg = s.
Proof.
  unfold deliver, Update. simpl. rewrite app_nil_r. by destruct s.
Qed.

(** A further [SetupMessage] on the selection page changes the project
    path only. *)
Lemma after_setup_again (m : Model) (ps : list (list Closure)) (p : string) :
  after_setup m ps ->
  view m = Page2View ->
  after_setup (set_view Page2View (set_projectPath p m)) ps.
Proof.
  intros Hpost Hv. pose proof Hpost as (_ & _ & _ & _ & _ & Hok).
  by apply (after_setup_keep m _ ps).
Qed.

Lemma confirmed_false (m : Model) :
  view m <> Page1View -> confirmed m = false -> view m = Page2View.
Proof. unfold confirmed. by destruct (view m). Qed.

(** Once a setup has succeeded, a message that a function returns keeps the
    loop as [after_setup] has it, unless it is a [SetupMessage] that comes
    after the selection has been confirmed. *)
Lemma after_setup_returns (m : Model) (ps : list (list Closure)) (n : nat)
  (c : Closure) (rest : list Closure) (w w' : World) (msg : Msg) :
  after_setup m ps ->
  ps !! n = Some (c :: rest) ->
  run_closure c w = (Some msg, w') ->
  is_SetupMessage (Some msg) && confirmed m = false ->
  let s' := deliver (mkSys m (after_call n rest ps) w' Running) msg in
  after_setup (model s') (pending s').
Proof.
  intros Hpost Hn Hrun Hnot s'.
  pose proof Hpost as (Hv & Hinv & Hlen & Hw & H2 & Hok).
  pose proof (chain_work_after_call ps n c rest Hn) as Hwork.
  destruct (Forall_after_call (closure_ok m) ps n c rest Hn Hok) as [Hc Hok'].
  assert (after_setup m (after_call n rest ps)) as Hpost'.
  { apply (after_setup_keep m m ps); try done. destruct (is_chain c); lia. }
  assert (is_chain c = true ->
          chain_work (after_call n rest ps) = 0%nat /\ view m <> Page2View)
    as Hchain.
  { intros Hch. rewrite Hch in Hwork. split; [lia|].
    intros Hp. destruct (H2 Hp) as (? & _). lia. }
  apply run_closure_kind in Hrun. subst s'. unfold deliver.
  cbn [model pending world status].
  destruct c as [mc|mc|mc i|mc| | |]; simpl in Hrun.
  - destruct Hrun as [[p ->]|[e ->]].
    + cbn [is_SetupMessage andb] in Hnot.
      change (after_setup (set_view Page2View (set_projectPath p m))
                (after_call n rest ps ++ [])).
      rewrite app_nil_r.
      apply after_setup_again; [done|]. by apply confirmed_false.
    + cbn [Update model pending]. by apply after_setup_error.
  - destruct (Hchain eq_refl) as [H0 Hv2].
    destruct Hrun as [(ds & -> & Hds & Hl)|[e ->]].
    + cbn [Update model pending spawn own].
      by apply (after_setup_extra m mc).
    + cbn [Update model pending]. by apply after_setup_error.
  - destruct (Hchain eq_refl) as [H0 Hv2].
    destruct Hrun as [->|[e ->]].
    + destruct (Update m (OnInstalledMsg i)) as [[m' c']|] eqn:HU;
        [|exact Hpost'].
      cbn [model pending]. by apply (after_setup_installed m m' mc _ i).
    + cbn [Update model pending]. by apply after_setup_error.
  - destruct (Hchain eq_refl) as [H0 Hv2].
    destruct Hrun as [[a ->]|[e ->]].
    + cbn [Update model pending spawn own]. by apply after_setup_audit.
    + cbn [Update model pending]. by apply after_setup_error.
  - destruct (Hchain eq_refl) as [H0 Hv2]. subst msg.
    destruct (Update m InstallAllMsg) as [[m' c']|] eqn:HU; [|exact Hpost'].
    cbn [model pending]. by apply (after_setup_install_all m).
  - subst msg. exact Hpost'.
  - subst msg. cbn [Update model pending spawn own]. simpl.
    by rewrite app_nil_r.
Qed.

Lemma after_setup_step (s : Sys) (ev : Event) :
  after_setup (model s) (pending s) ->
  is_SetupMessage (message_of s ev) && confirmed (model s) = false ->
  after_setup (model (step s ev)) (pending (step s ev)).
Proof.
  intros Hpost. unfold step, message_of.
  destruct (status s); [|done..].
  destruct ev as [k| |n].
  - intros _. unfold deliver.
    destruct (Update (model s) (KeyMsg k)) as [[m' c]|] eqn:HU; [|done].
    by apply (after_setup_key (model s) m' _ k).
  - intros _. by rewrite deliver_LibMsg.
  - destruct (pending s !! n) as [[|c rest]|] eqn:Hn; [| |done].
    + intros _. cbn [model pending].
      pose proof Hpost as (_ & _ & _ & _ & _ & Hok).
      apply (after_setup_keep (model s) _ (pending s)); try done.
      * by rewrite chain_work_delete_nil.
      * by apply Forall_delete_pending.
    + destruct (run_closure c (world s)) as [[msg|] w'] eqn:Hrun.
      * intros Hnot. by apply (after_setup_returns _ _ n c rest (world s)).
      * intros _. cbn [model pending].
        pose proof Hpost as (_ & _ & _ & _ & _ & Hok).
        apply (after_setup_keep (model s) _ (pending s)); try done.
        -- rewrite (chain_work_after_call _ n c rest Hn). lia.
        -- by destruct (Forall_after_call _ _ n c rest Hn Hok).
Qed.


Lemma before_setup_error (m : Model) (ps : list (list Closure)) (e : string) :
  before_setup m ps -> before_setup (set_error e m) (ps ++ [[tea_Quit]]).
Proof.
  intros Hpre. apply (before_setup_keep m _ ps); try done.
  rewrite chain_work_quit. by destruct Hpre as (_ & _ & _ & ?).
Qed.

Lemma before_setup_returns (m : Model) (ps : list (list Closure)) (n : nat)
  (c : Closure) (rest : list Closure) (w w' : World) (msg : Msg) :
  before_setup m ps ->
  ps !! n = Some (c :: rest) ->
  run_closure c w = (Some msg, w') ->
  let s' := deliver (mkSys m (after_call n rest ps) w' Running) msg in
  if is_SetupMessage (Some msg)
  then after_setup (model s') (pending s')
  else before_setup (model s') (pending s').
Proof.
  intros Hpre Hn Hrun s'. pose proof Hpre as (Hv & Hd & Hc & H0).
  pose proof (chain_work_after_call _ n c rest Hn) as Hwork.
  assert (is_chain c = false /\ chain_work (after_call n rest ps) = 0%nat)
    as [Hch H0'].
  { destruct (is_chain c); split; try done; lia. }
  assert (before_setup m (after_call n rest ps)) as Hpre'
    by (by apply (before_setup_keep m _ ps)).
  apply run_closure_kind in Hrun. subst s'.
  destruct c as [mc|mc|mc i|mc| | |]; try discriminate Hch.
  - destruct Hrun as [[p ->]|[e ->]].
    + cbn [is_SetupMessage].
      change (after_setup (set_view Page2View (set_projectPath p m))
                (after_call n rest ps ++ [])).
      rewrite app_nil_r. by apply before_setup_done.
    + cbn [is_SetupMessage]. by apply before_setup_error.
  - subst msg. exact Hpre'.
  - subst msg. cbn [is_SetupMessage]. rewrite deliver_LibMsg. exact Hpre'.
Qed.

Lemma before_setup_step (s : Sys) (ev : Event) :
  before_setup (model s) (pending s) ->
  if is_SetupMessage (message_of s ev)
  then after_setup (model (step s ev)) (pending (step s ev))
  else before_setup (model (step s ev)) (pending (step s ev)).
Proof.
  intros Hpre. pose proof Hpre as (Hv & Hd & Hc & H0).
  unfold step, message_of.
  destruct (status s); [|exact Hpre..].
  destruct ev as [k| |n]; cbn [is_SetupMessage].
  - unfold deliver.
    destruct (Update (model s) (KeyMsg k)) as [[m' c]|] eqn:HU;
      [|exact Hpre].
    by apply (before_setup_key (model s) m' _ k).
  - by rewrite deliver_LibMsg.
  - destruct (pending s !! n) as [[|c rest]|] eqn:Hn; cbn [is_SetupMessage];
      [| |exact Hpre].
    + cbn [model pending]. apply (before_setup_keep (model s) _ (pending s));
        try done. by rewrite chain_work_delete_nil.
    + destruct (run_closure c (world s)) as [[msg|] w'] eqn:Hrun; cbn [fst].
      * by apply (before_setup_returns _ _ n c rest (world s)).
      * cbn [is_SetupMessage model pending].
        apply (before_setup_keep (model s) _ (pending s)); try done.
        pose proof (chain_work_after_call _ n c rest Hn). lia.
Qed.

Lemma after_setup_invariants (m : Model) (ps : list (list Closure)) :
  after_setup m ps -> invariants m = true.
Proof. by intros (_ & ? & _). Qed.

(** The invariants hold along every run in which no [SetupMessage] comes
    after the selection has been confirmed. *)
Lemma run_invariants (evs : list Event) (s : Sys) :
  before_setup (model s) (pending s) \/ after_setup (model s) (pending s) ->
  late_setups s evs = 0%nat ->
  invariants (model (run s evs)) = true.
Proof.
  revert s. induction evs as [|ev evs IH]; intros s H Hn.
  - destruct H as [H|H];
      [by eapply before_setup_invariants|by eapply after_setup_invariants].
  - change (run s (ev :: evs)) with (run (step s ev) evs).
    cbn [late_setups] in Hn. apply IH; [|lia].
    destruct H as [Hpre|Hpost].
    + pose proof (before_setup_step s ev Hpre) as Hstep.
      destruct (is_SetupMessage (message_of s ev)); [by right|by left].
    + right. apply after_setup_step; [done|].
      destruct (is_SetupMessage (message_of s ev) && confirmed (model s));
        [lia|done].
Qed.

End Loop.

(** C2, as the code has it.  In every state the loop reaches from the
    initial model by a run of events in which no [SetupMessage] reaches the
    loop after the selection has been confirmed (that is, while the page is
    past the selection page), the three invariants hold together: an entry
    that is being installed is selected and not installed, at most one
    entry is being installed, and [installCount] is the number of installed
    entries.  Any number of setups may succeed before that. *)
Theorem invariants_hold `{decoder : JSON} (w : World) (evs : list Event) :
  late_setups (boot w) evs = 0%nat ->
  invariants (model (run (boot w) evs)) = true.
Proof.
  intros Hn. apply run_invariants; [|done]. left.
  unfold before_setup. done.
Qed.

(** ** The setup is called with an empty project path *)

Ltac scratch_spawned :=
  cbn [spawn own omap list_omap id filter list_filter fmap list_fmap is_lib];
  simpl;
  repeat (apply Forall_cons; split); try apply Forall_nil;
  cbn [from_scratch]; auto.

Lemma Update_from_scratch (m m' : Model) (msg : Msg) (c : Cmd) :
  (view m = Page1View -> projectPath m = EmptyString) ->
  Update m msg = Some (m', c) ->
  (view m' = Page1View -> projectPath m' = EmptyString)
  /\ Forall (Forall from_scratch) (spawn c).
Proof.
  intros Hm.
  assert (forall m1 c1,
             view m1 = view m \/ view m1 <> Page1View ->
             projectPath m1 = projectPath m \/ view m1 <> Page1View ->
             Forall (Forall from_scratch) (spawn c1) ->
             Some (m1, c1) = Some (m', c) ->
             (view m' = Page1View -> projectPath m' = EmptyString)
             /\ Forall (Forall from_scratch) (spawn c)) as Hgo.
  { intros m1 c1 Hv1 Hp1 Hs [= <- <-]. split; [|done].
    intros Hx. destruct Hp1 as [->|?]; [|done].
    destruct Hv1 as [Hv1|?]; [|done]. apply Hm. congruence. }
  unfold Update.
  destruct msg as [k|p|ds| |i|a|e| |].
  - unfold Update_key. destruct (is_cancel (Type_ k)).
    { apply Hgo; [by left|by left|scratch_spawned]. }
    destruct (view m) eqn:Hv; cbn [eqb_page].
    + destruct (Type_ k); apply Hgo; try (by left); scratch_spawned.
    + destruct (is_toggle (Type_ k)).
      { destruct (index _ _); [|done].
        apply Hgo; [by left|by left|scratch_spawned]. }
      destruct (Type_ k); try (apply Hgo; [by left|by left|scratch_spawned]).
      * apply Hgo; [by right|by right|scratch_spawned].
      * destruct (0 <? cursor m);
          apply Hgo; [by left|by left|scratch_spawned..].
      * destruct (cursor m <? len (dependencies m) - 1);
          apply Hgo; [by left|by left|scratch_spawned..].
    + apply Hgo; [by left|by left|scratch_spawned].
    + apply Hgo; [by left|by left|scratch_spawned].
    + apply Hgo; [by left|by left|scratch_spawned].
  - apply Hgo; [by right|by right|scratch_spawned].
  - apply Hgo; [by left|by left|scratch_spawned].
  - destruct (scan_from 0 (dependencies m)).
    + apply Hgo; [by left|by left|scratch_spawned].
    + apply Hgo; [by right|by right|scratch_spawned].
  - destruct (index _ _); [|done].
    apply Hgo; [by left|by left|scratch_spawned].
  - apply Hgo; [by right|by right|scratch_spawned].
  - apply Hgo; [by left|by left|scratch_spawned].
  - apply Hgo; [by left|by left|scratch_spawned].
  - apply Hgo; [by left|by left|scratch_spawned].
Qed.

Section Scratch.

Context `{decoder : JSON}.

Lemma deliver_from_scratch (s : Sys) (msg : Msg) :
  setups_from_scratch (model s) (pending s) ->
  setups_from_scratch (model (deliver s msg)) (pending (deliver s msg)).
Proof.
  intros Hs. pose proof Hs as [Hm Hps]. unfold deliver.
  destruct (Update (model s) msg) as [[m' c]|] eqn:HU.
  - apply Update_from_scratch in HU as [Hm' Hc]; [|done].
    destruct msg; try exact Hs;
      (split; [exact Hm'|apply Forall_app; split; [exact Hps|exact Hc]]).
  - destruct msg; exact Hs.
Qed.

Lemma step_from_scratch (s : Sys) (ev : Event) :
  setups_from_scratch (model s) (pending s) ->
  setups_from_scratch (model (step s ev)) (pending (step s ev)).
Proof.
  intros Hs. pose proof Hs as [Hm Hps]. unfold step.
  destruct (status s); [|exact Hs..].
  destruct ev as [k| |n]; [by apply deliver_from_scratch..|].
  destruct (pending s !! n) as [[|c rest]|] eqn:Hn; [| |exact Hs].
  - split; [exact Hm|]. by apply Forall_delete_pending.
  - destruct (Forall_after_call from_scratch _ n c rest Hn Hps) as [_ Hps'].
    destruct (run_closure c (world s)) as [[msg|] w'].
    + apply (deliver_from_scratch
               (mkSys (model s) (after_call n rest (pending s)) w' Running)).
      split; [exact Hm|exact Hps'].
    + split; [exact Hm|exact Hps'].
Qed.

Lemma run_from_scratch (w : World) (evs : list Event) :
  setups_from_scratch (model (run (boot w) evs)) (pending (run (boot w) evs)).
Proof.
  assert (setups_from_scratch (model (boot w)) (pending (boot w))) as H0.
  { split; [done|constructor]. }
  revert H0. generalize (boot w) as s.
  induction evs as [|ev evs IH]; intros s Hs; [exact Hs|].
  change (run s (ev :: evs)) with (run (step s ev) evs).
  apply IH. by apply step_from_scratch.
Qed.

End Scratch.

(** Where the templates go.  A [setupProject] that ends in [SetupMessage]
    has written the lint configuration under both names, [eslintrc.cjs] and
    [esbuild.js], each joined to [m.projectPath] as the model has it then.
    After an expansion in which no selected entry is named esbuild, the file
    written as [esbuild.js] still holds the lint configuration; the bundler
    configuration is written, to [esbuild.js] under the [projectPath] of
    the expander's model, when a selected entry is named esbuild and the
    expansion goes through.  With [m.projectPath] empty, as it is whenever
    the loop calls [setupProject], the file [esbuild.js] of the initializer
    is the one of the working directory. *)
Theorem esbuild_js_holds_lint_config `{decoder : JSON} (m m2 : Model)
  (w w1 w2 : World) (p : string) (msg : Msg) :
  setupProject m w = (SetupMessage p, w1) ->
  extraDependencies m2 w1 = (msg, w2) ->
  (exists k k',
     resolve w (path_Join [projectPath m; "esbuild.js"]) = Some k
     /\ resolve w (path_Join [projectPath m; "eslintrc.cjs"]) = Some k'
     /\ files w1 !! k = Some (File (Bytes EslintConfigJs))
     /\ files w1 !! k' = Some (File (Bytes EslintConfigJs))
     /\ ("esbuild" ∉ selected_names (dependencies m2) ->
         files w2 !! k = Some (File (Bytes EslintConfigJs)))
     /\ ("esbuild" ∈ selected_names (dependencies m2) ->
         is_ErrorMsg msg = false ->
         exists k2,
           resolve w (path_Join [projectPath m2; "esbuild.js"]) = Some k2
           /\ files w2 !! k2 = Some (File (Bytes EsbuildJs)))
     /\ (projectPath m = EmptyString ->
         exists c, cwd w = Some c /\ k = walk [] c ++ ["esbuild.js"]))
  /\ (forall (w0 : World) (evs : list Event) (n : nat) (rest : list Closure),
        pending (run (boot w0) evs) !! n = Some (call_setupProject m :: rest) ->
        projectPath m = EmptyString).
Proof.
  intros Hsetup Hexp. split; [by eapply setup_then_expand|].
  intros w0 evs n rest Hn.
  destruct (run_from_scratch w0 evs) as [_ Hps].
  pose proof (Forall_lookup_1 _ _ _ _ Hps Hn) as Hc.
  by apply Forall_cons in Hc as [Hc _].
Qed.

(** * Further properties of the commands and of the loop *)

(** ** The severity label *)

Lemma append_space_not_empty (s : string) : s +:+ " " <> EmptyString.
Proof. destruct s; discriminate. Qed.

(** [severityStatus] gives the empty text exactly when no count is
    positive; a negative count gives no label either. *)
Theorem severityStatus_empty `{style : Style} (a : npmAuditJSON) :
  severityStatus a = EmptyString <->
  Critical (MetadataVulnerabilities a) <= 0
  /\ High (MetadataVulnerabilities a) <= 0
  /\ Moderate (MetadataVulnerabilities a) <= 0
  /\ Low (MetadataVulnerabilities a) <= 0
  /\ Info (MetadataVulnerabilities a) <= 0.
Proof.
  unfold severityStatus.
  destruct (Z.ltb_spec 0 (Critical (MetadataVulnerabilities a))).
  { split; [intros Hx; by apply append_space_not_empty in Hx|lia]. }
  destruct (Z.ltb_spec 0 (High (MetadataVulnerabilities a))).
  { split; [intros Hx; by apply append_space_not_empty in Hx|lia]. }
  destruct (Z.ltb_spec 0 (Moderate (MetadataVulnerabilities a))).
  { split; [intros Hx; by apply append_space_not_empty in Hx|lia]. }
  destruct (Z.ltb_spec 0 (Low (MetadataVulnerabilities a))).
  { split; [intros Hx; by apply append_space_not_empty in Hx|lia]. }
  destruct (Z.ltb_spec 0 (Info (MetadataVulnerabilities a))).
  { split; [intros Hx; by apply append_space_not_empty in Hx|lia]. }
  split; [lia|done].
Qed.

(** ** The expander, for every list *)

Lemma implied_by_cons (d : Dependency) (ds : list Dependency) :
  implied_by (d :: ds)
  = if selected d then implied d ++ implied_by ds else implied_by ds.
Proof.
  unfold implied_by. rewrite filter_cons.
  destruct (selected d); simpl; reflexivity.
Qed.

Lemma expand_appends_implied (m : Model) (rest deps ds : list Dependency)
  (w w2 : World) :
  extraDependencies_from m rest deps w = (ExtraDepsMessage ds, w2) ->
  ds = deps ++ implied_by rest.
Proof.
  revert deps w. induction rest as [|d rest IH]; intros deps w H.
  { injection H as <- <-. by rewrite app_nil_r. }
  rewrite implied_by_cons. destruct (selected d) eqn:Hs.
  2:{ rewrite expand_skip in H by done. eauto. }
  apply expand_round in H as (e1 & wa & e2 & wb & e3 & wc & _ & _ & _ & H);
    [|done].
  destruct H as [[Hx _]|(_ & _ & _ & deps' & Hd' & H)]; [done|].
  rewrite (IH _ _ H). subst deps'. unfold implied.
  destruct (String.eqb (name d) "react"), (String.eqb (name d) "kysely");
    simpl; rewrite <- ?app_assoc; simpl; rewrite ?app_nil_r; reflexivity.
Qed.

(** The expander either fails, or returns exactly the entries implied by
    the selected entries of the list: five for each selected entry named
    react, one for each selected entry named kysely, in the order of the
    list, whatever the list already holds. *)
Theorem expander_adds_implied (m : Model) (w : World) :
  (exists e, fst (extraDependencies m w) = ErrorMsg e)
  \/ fst (extraDependencies m w)
     = ExtraDepsMessage (implied_by (dependencies m)).
Proof.
  destruct (extraDependencies_msg m w) as [(ds & Hds & _)|He]; [right|by left].
  rewrite Hds. f_equal. unfold extraDependencies in Hds.
  destruct (extraDependencies_from m (dependencies m) [] w) as [msg w2] eqn:H.
  simpl in Hds. subst msg. by apply expand_appends_implied in H.
Qed.

Lemma expand_without_files (m : Model) (rest deps : list Dependency)
  (w : World) :
  Forall (fun d => selected d = true -> copies_a_file d = false) rest ->
  extraDependencies_from m rest deps w
  = (ExtraDepsMessage (deps ++ implied_by rest), w).
Proof.
  intros Hrest. revert deps.
  induction Hrest as [|d rest Hd _ IH]; intros deps.
  { simpl. by rewrite app_nil_r. }
  rewrite implied_by_cons. destruct (selected d) eqn:Hs.
  2:{ rewrite expand_skip by done. apply IH. }
  specialize (Hd eq_refl). unfold copies_a_file in Hd.
  apply orb_false_iff in Hd as [Hd H3]. apply orb_false_iff in Hd as [H1 H2].
  cbn [extraDependencies_from]. rewrite Hs, H1, H2, H3. cbn [negb copy_if].
  unfold bind, ret, or_else. rewrite IH. f_equal. f_equal. unfold implied.
  destruct (String.eqb (name d) "react"), (String.eqb (name d) "kysely");
    simpl; rewrite <- ?app_assoc; simpl; rewrite ?app_nil_r; reflexivity.
Qed.

(** When no selected entry is named typescript, esbuild or tailwindcss, the
    expander cannot fail and leaves the file tree as it is. *)
Theorem expander_without_files (m : Model) (w : World) :
  Forall (fun d => selected d = true -> copies_a_file d = false)
    (dependencies m) ->
  extraDependencies m w
  = (ExtraDepsMessage (implied_by (dependencies m)), w).
Proof.
  intros H. unfold extraDependencies.
  by rewrite (expand_without_files m (dependencies m) [] w H).
Qed.

(** ** What [Update] never does to the list *)

Lemma kept_refl (d : Dependency) : kept d d.
Proof. by repeat split. Qed.

Lemma insert_kept (ds : list Dependency) (j : nat) (d0 d0' : Dependency) :
  ds !! j = Some d0 -> kept d0 d0' ->
  forall i d, ds !! i = Some d ->
    exists d', <[j := d0']> ds !! i = Some d' /\ kept d d'.
Proof.
  intros Hj Hk i d Hi. destruct (decide (i = j)) as [->|Hne].
  - exists d0'. split.
    + apply list_lookup_insert_eq. by eapply lookup_lt_Some.
    + congruence.
  - exists d. split; [by rewrite list_lookup_insert_ne|apply kept_refl].
Qed.

(** Whatever the message, [Update] keeps every entry of the list at its
    place, with its name and its development flag, never clears
    [installed], and never takes an entry away. *)
Theorem Update_keeps_entries (m m' : Model) (msg : Msg) (c : Cmd) :
  Update m msg = Some (m', c) ->
  forall i d, dependencies m !! i = Some d ->
    exists d', dependencies m' !! i = Some d' /\ kept d d'.
Proof.
  assert (forall m1 c1,
             dependencies m1 = dependencies m ->
             Some (m1, c1) = Some (m', c) ->
             forall i d, dependencies m !! i = Some d ->
               exists d', dependencies m' !! i = Some d' /\ kept d d') as Hsame.
  { intros m1 c1 Hd [= <- <-] i d Hi. exists d. rewrite Hd.
    split; [done|apply kept_refl]. }
  unfold Update. destruct msg as [k|p|ds| |i0|a|e| |].
  - unfold Update_key. destruct (is_cancel (Type_ k)); [by apply Hsame|].
    destruct (eqb_page (view m) Page1View).
    { destruct (Type_ k); by apply Hsame. }
    destruct (eqb_page (view m) Page2View); [|by apply Hsame].
    destruct (is_toggle (Type_ k)).
    + destruct (index (dependencies m) (cursor m)) as [d0|] eqn:Hd0; [|done].
      apply index_Some in Hd0 as [_ Hd0]. intros [= <- <-].
      apply (insert_kept _ _ d0); [done|]. destruct (selected d0); by repeat split.
    + destruct (Type_ k); try (by apply Hsame).
      * destruct (0 <? cursor m); by apply Hsame.
      * destruct (cursor m <? len (dependencies m) - 1); by apply Hsame.
  - by apply Hsame.
  - intros [= <- <-] i d Hi. exists d.
    split; [by apply lookup_app_l_Some|apply kept_refl].
  - destruct (scan_from 0 (dependencies m)) as [j|] eqn:Hs; [|by apply Hsame].
    apply scan_from_Some in Hs as (j' & d0 & -> & Hj & _).
    rewrite Nat.add_0_l, (alter_lookup _ _ _ d0 Hj). intros [= <- <-].
    apply (insert_kept _ _ d0); [done|]. by repeat split.
  - destruct (index (dependencies m) i0) as [d0|] eqn:Hd0; [|done].
    apply index_Some in Hd0 as [_ Hd0]. intros [= <- <-].
    apply (insert_kept _ _ d0); [done|]. by repeat split.
  - by apply Hsame.
  - by apply Hsame.
  - by apply Hsame.
  - by apply Hsame.
Qed.

(** ** The sequencer, further *)

Lemma installDependency_fails (m : Model) (i : nat) (d : Dependency)
  (w : World) (e : string) :
  dependencies m !! i = Some d ->
  p_error (run_process w (install_args d) (projectPath m)) = Some e ->
  installDependency m (Z.of_nat i) w = (Some (ErrorMsg e), w).
Proof.
  intros Hi Hfail. unfold installDependency, index.
  destruct (Z.leb_spec 0 (Z.of_nat i)); [|lia].
  rewrite Nat2Z.id, Hi. unfold bind, execOutput. rewrite Hfail. reflexivity.
Qed.

Lemma finish_not_installable (d : Dependency) :
  installable d = false -> finish d = d.
Proof. unfold finish. by intros ->. Qed.

Lemma finish_installable (d : Dependency) :
  installable d = true ->
  finish d = set_installed true (set_installing false d).
Proof. unfold finish. by intros ->. Qed.

Lemma finish_done (d : Dependency) :
  finish (set_installed true (set_installing false d))
  = set_installed true (set_installing false d).
Proof.
  apply finish_not_installable. unfold installable. simpl.
  by rewrite andb_false_r.
Qed.

Lemma finish_idle (d : Dependency) :
  idle d -> finish d = if selected d then set_installed true d else d.
Proof.
  intros [Hi Hd]. unfold finish, installable. rewrite Hi, Hd.
  destruct d as [n s dv ig id]. simpl in *. subst ig.
  by destruct s.
Qed.

Lemma fmap_finish_none (ds : list Dependency) :
  Forall (fun d => installable d = false) ds -> finish <$> ds = ds.
Proof.
  induction 1 as [|d ds Hd _ IH]; [done|].
  rewrite fmap_cons, IH, finish_not_installable; done.
Qed.

Lemma fmap_finish_insert (ds : list Dependency) (j : nat) (d : Dependency) :
  ds !! j = Some d -> installable d = true ->
  finish <$> <[j := set_installed true (set_installing false d)]> ds
  = finish <$> ds.
Proof.
  intros Hj Hd. rewrite list_fmap_insert, finish_done.
  apply list_insert_id. rewrite list_lookup_fmap, Hj. simpl.
  by rewrite finish_installable.
Qed.

Section SequencerMore.

Context `{decoder : JSON}.

(** The install of the marked entry fails: the error reaches the model, the
    entry stays marked, nothing is counted, no other install is called, and
    the next step ends the loop. *)
Theorem failed_install_stops (m : Model) (w : World) (i : nat)
  (d : Dependency) (e : string) :
  dependencies m !! i = Some d ->
  installable d = true ->
  (forall j d', (j < i)%nat -> dependencies m !! j = Some d' ->
                installable d' = false) ->
  p_error (run_process w (install_args d) (projectPath m)) = Some e ->
  let m1 := set_error e
              (set_dependencies
                 (<[i := set_installing true d]> (dependencies m)) m) in
  run (installing_starts m w) [finishes 0; finishes 0]
  = mkSys m1 [[tea_Quit]] w Running
  /\ run (installing_starts m w) [finishes 0; finishes 0; finishes 0]
     = mkSys m1 [] w Exited
  /\ installCount m1 = installCount m.
Proof.
  intros Hi Hd Hlt Hfail m1.
  assert (run (installing_starts m w) [finishes 0; finishes 0]
          = mkSys m1 [[tea_Quit]] w Running) as Hrun.
  { unfold run, installing_starts. simpl.
    unfold step at 2. simpl. unfold deliver.
    rewrite (Update_InstallAllMsg_found m i d Hi Hd Hlt). simpl.
    assert (dependencies
              (set_dependencies (<[i:=set_installing true d]> (dependencies m)) m)
              !! i = Some (set_installing true d)) as Hi1.
    { simpl. apply list_lookup_insert_eq. by eapply lookup_lt_Some. }
    unfold step. simpl.
    rewrite (installDependency_fails _ i _ w e Hi1) by exact Hfail.
    reflexivity. }
  split; [exact Hrun|]. split; [|reflexivity].
  change [finishes 0; finishes 0; finishes 0]
    with ([finishes 0; finishes 0] ++ [finishes 0]).
  rewrite run_app, Hrun. reflexivity.
Qed.

(** The model the sequencer ends with when every install succeeds. *)
Lemma sequencer_model (r : nat) (m : Model) (w : World) :
  count_installable (dependencies m) = r ->
  int_min <= installCount m ->
  installCount m + Z.of_nat r <= int_max ->
  all_succeed w ->
  run (installing_starts m w) (repeat (finishes 0) (2 * r + 1))
  = (let m' := set_view Page4View
                 (set_installCount (installCount m + Z.of_nat r)
                    (set_dependencies (finish <$> dependencies m) m)) in
     mkSys m' [[call_runAudit m']] w Running).
Proof.
  revert m. induction r as [|r IH]; intros m Hr Hlo Hhi Hok.
  - apply count_installable_0 in Hr.
    change (repeat (finishes 0) (2 * 0 + 1)) with [finishes 0].
    rewrite (sequencer_end m w Hr), (fmap_finish_none _ Hr), Z.add_0_r.
    by destruct m.
  - destruct (count_installable_pos _ _ Hr) as [i Hs].
    apply scan_from_Some in Hs as (j & d & -> & Hi & Hd & Hlt).
    assert (repeat (finishes 0) (2 * S r + 1)
            = [finishes 0; finishes 0] ++ repeat (finishes 0) (2 * r + 1))
      as Hrep.
    { replace (2 * S r + 1)%nat with (2 + (2 * r + 1))%nat by lia. done. }
    rewrite Hrep, run_app, (sequencer_round m w j d Hi Hd Hlt Hok).
    set (m2 := set_installCount (wrap_int (installCount m + 1))
                 (set_dependencies
                    (<[j := set_installed true (set_installing false d)]>
                       (dependencies m)) m)).
    assert (installCount m2 = installCount m + 1) as Hc2.
    { simpl. apply wrap_int_small. lia. }
    rewrite (IH m2); [| |lia|lia|done].
    + cbv zeta. rewrite Hc2.
      change (dependencies m2)
        with (<[j := set_installed true (set_installing false d)]>
                (dependencies m)).
      rewrite (fmap_finish_insert _ j d Hi Hd).
      replace (installCount m + 1 + Z.of_nat r)
        with (installCount m + Z.of_nat (S r)) by lia.
      by destruct m.
    + pose proof (count_insert installable (dependencies m) j d
                    (set_installed true (set_installing false d)) Hi) as Hins.
      assert (installable (set_installed true (set_installing false d)) = false)
        as Hd' by (unfold installable; simpl; by rewrite andb_false_r).
      rewrite Hd, Hd' in Hins. unfold count_installable in *.
      change (dependencies m2)
        with (<[j := set_installed true (set_installing false d)]>
                (dependencies m)). lia.
Qed.

(** From a list with nothing installed, when every install succeeds the
    sequencer ends with exactly the selected entries installed, the others
    as they were, the count at their number and the audit called. *)
Theorem sequencer_installs_selected (m : Model) (w : World) :
  Forall idle (dependencies m) ->
  installCount m = 0 ->
  len (dependencies m) <= int_max ->
  all_succeed w ->
  run (installing_starts m w)
    (repeat (finishes 0) (2 * count_selected (dependencies m) + 1))
  = (let m' := set_view Page4View
                 (set_installCount
                    (Z.of_nat (count_selected (dependencies m)))
                    (set_dependencies
                       ((fun d => if selected d then set_installed true d
                                  else d) <$> dependencies m) m)) in
     mkSys m' [[call_runAudit m']] w Running).
Proof.
  intros Hidle Hc Hlen Hok.
  rewrite (sequencer_model (count_selected (dependencies m)) m w);
    [|by apply count_installable_idle|unfold int_min; lia| |done].
  - cbv zeta. rewrite Hc, Z.add_0_l.
    assert (finish <$> dependencies m
            = (fun d => if selected d then set_installed true d else d)
                <$> dependencies m) as ->; [|done].
    apply Forall_fmap_ext_1. eapply Forall_impl; [exact Hidle|].
    intros d Hd. by apply finish_idle.
  - rewrite Hc. unfold count_selected, len in *.
    pose proof (length_filter (fun d => selected d = true) (dependencies m)).
    lia.
Qed.

(** A piece of work other than the one at place [j] is still there after
    the call at place [j]. *)
Lemma lookup_after_call (ps : list (list Closure)) (n j : nat)
  (q rest : list Closure) :
  ps !! n = Some q -> n <> j ->
  exists n', after_call j rest ps !! n' = Some q.
Proof.
  intros Hn Hne. unfold after_call. destruct rest as [|c rest].
  - destruct (decide (n < j)%nat).
    + exists n. by rewrite list_lookup_delete_lt.
    + exists (pred n). rewrite list_lookup_delete_ge by lia.
      by replace (S (pred n)) with n by lia.
  - exists n. by rewrite list_lookup_insert_ne by congruence.
Qed.

(** A [tea.Quit] that is queued stays queued for as long as the loop
    runs. *)
Lemma quit_stays_queued (s : Sys) (ev : Event) (n : nat) :
  pending s !! n = Some [tea_Quit] ->
  status (step s ev) = Running ->
  exists n', pending (step s ev) !! n' = Some [tea_Quit].
Proof.
  intros Hn. unfold step. destruct (status s) eqn:Hs; try (by eauto).
  assert (forall s1 msg n1,
             pending s1 !! n1 = Some [tea_Quit] ->
             status (deliver s1 msg) = Running ->
             exists n', pending (deliver s1 msg) !! n' = Some [tea_Quit])
    as Hdeliver.
  { intros s1 msg n1 H1. unfold deliver.
    destruct msg; try done;
      (destruct (Update (model s1) _) as [[m' c]|]; cbn [pending]; [|by eauto]);
      intros _; exists n1; by apply lookup_app_l_Some. }
  destruct ev as [k| |j].
  - by apply (Hdeliver s _ n).
  - by apply (Hdeliver s _ n).
  - destruct (pending s !! j) as [[|c rest]|] eqn:Hj; [| |by eauto].
    + intros _. cbn [pending].
      assert (n <> j) as Hne by congruence.
      destruct (lookup_after_call (pending s) n j [tea_Quit] [] Hn Hne)
        as [n' Hn'].
      by exists n'.
    + destruct (decide (n = j)) as [->|Hne].
      { rewrite Hn in Hj. injection Hj as <- <-. by cbn. }
      destruct (lookup_after_call (pending s) n j [tea_Quit] rest Hn Hne)
        as [n' Hn'].
      destruct (run_closure c (world s)) as [[msg|] w'].
      * by apply (Hdeliver (mkSys (model s) _ w' Running) msg n').
      * done.
Qed.

(** Once the loop has ended, nothing happens any more. *)
Lemma run_stopped (evs : list Event) (s : Sys) :
  status s <> Running -> run s evs = s.
Proof.
  intros Hs. induction evs as [|ev evs IH]; [done|].
  change (run s (ev :: evs)) with (run (step s ev) evs).
  assert (step s ev = s) as ->; [|exact IH].
  unfold step. by destruct (status s).
Qed.

Lemma quit_stays_queued_run (evs : list Event) (s : Sys) (n : nat) :
  pending s !! n = Some [tea_Quit] ->
  status (run s evs) = Running ->
  exists n', pending (run s evs) !! n' = Some [tea_Quit].
Proof.
  revert s n. induction evs as [|ev evs IH]; intros s n Hn Hs; [by eauto|].
  change (run s (ev :: evs)) with (run (step s ev) evs) in *.
  destruct (status (step s ev)) eqn:Hstep.
  - destruct (quit_stays_queued s ev n Hn Hstep) as [n' Hn']. by eapply IH.
  - rewrite run_stopped in Hs by (by rewrite Hstep). congruence.
  - rewrite run_stopped in Hs by (by rewrite Hstep). congruence.
Qed.

(** A cancel key is never lost.  After it, whatever comes next -- other
    keys, messages of the library, the end of commands that were already
    under way, which [Update] still takes -- for as long as the loop runs
    the [tea.Quit] of the key is queued, and the step that delivers it ends
    the loop there and then, with the model and the file tree as they are at
    that moment. *)
Theorem cancel_is_never_lost (s : Sys) (k : Key) (evs : list Event) :
  status s = Running ->
  is_cancel (Type_ k) = true ->
  status (run s (key_pressed k :: evs)) = Running ->
  exists n,
    pending (run s (key_pressed k :: evs)) !! n = Some [tea_Quit]
    /\ step (run s (key_pressed k :: evs)) (finishes n)
       = mkSys (model (run s (key_pressed k :: evs)))
           (delete n (pending (run s (key_pressed k :: evs))))
           (world (run s (key_pressed k :: evs))) Exited.
Proof.
  intros Hs Hk Hrun.
  change (run s (key_pressed k :: evs))
    with (run (step s (key_pressed k)) evs) in *.
  destruct (quit_stays_queued_run evs (step s (key_pressed k))
              (length (pending s))) as [n Hn]; [|done|].
  { rewrite (step_cancel s k Hs Hk). cbn [pending].
    rewrite lookup_app_r by done. by rewrite Nat.sub_diag. }
  exists n. split; [done|].
  generalize dependent (run (step s (key_pressed k)) evs).
  intros s' Hrun Hn. unfold step. by rewrite Hrun, Hn.
Qed.

End SequencerMore.

(** ** The expansion and the installs, one after the other *)

Lemma implied_selected (d : Dependency) :
  Forall (fun x => selected x = true) (implied d).
Proof.
  unfold implied.
  destruct (String.eqb (name d) "react"), (String.eqb (name d) "kysely");
    repeat constructor.
Qed.

Lemma implied_by_selected (ds : list Dependency) :
  Forall (fun x => selected x = true) (implied_by ds).
Proof.
  unfold implied_by. apply Forall_concat, Forall_fmap.
  apply Forall_forall. intros d _. apply implied_selected.
Qed.

Lemma count_selected_app (ds ds' : list Dependency) :
  count_selected (ds ++ ds') = (count_selected ds + count_selected ds')%nat.
Proof. unfold count_selected. by rewrite filter_app, length_app. Qed.

Lemma count_selected_all (ds : list Dependency) :
  Forall (fun x => selected x = true) ds -> count_selected ds = length ds.
Proof.
  unfold count_selected. induction 1 as [|d ds Hd _ IH]; [done|].
  rewrite filter_cons_True by done. simpl. by rewrite IH.
Qed.

Section Compose.

Context `{decoder : JSON}.

Lemma expansion_step (m : Model) (w w' : World) (ds : list Dependency) :
  extraDependencies m w = (ExtraDepsMessage ds, w') ->
  run (expansion_starts m w) [finishes 0]
  = installing_starts (set_dependencies (dependencies m ++ ds) m) w'.
Proof.
  intros Hexp. unfold run, expansion_starts, installing_starts. simpl.
  unfold step. simpl. unfold bind, ret. rewrite Hexp. reflexivity.
Qed.

(** From the confirm key of the selection page to the audit: when the
    expansion goes through and every install succeeds, the loop calls the
    expander, appends what the selected entries imply, installs every
    selected entry, and reaches the fourth page with [installCount] at the
    number of selected entries plus the number of implied ones. *)
Theorem expansion_then_installs (m : Model) (w w' : World)
  (ds : list Dependency) :
  extraDependencies m w = (ExtraDepsMessage ds, w') ->
  Forall idle (dependencies m) ->
  installCount m = 0 ->
  len (dependencies m) + len ds <= int_max ->
  all_succeed w' ->
  let r := (count_selected (dependencies m) + length ds)%nat in
  ds = implied_by (dependencies m)
  /\ exists m',
       run (expansion_starts m w) (finishes 0 :: repeat (finishes 0) (2 * r + 1))
       = mkSys m' [[call_runAudit m']] w' Running
       /\ view m' = Page4View
       /\ installCount m' = Z.of_nat r
       /\ length (dependencies m') = (length (dependencies m) + length ds)%nat.
Proof.
  intros Hexp Hidle Hc Hlen Hok r.
  assert (ds = implied_by (dependencies m)) as Hds.
  { unfold extraDependencies in Hexp.
    by apply expand_appends_implied in Hexp. }
  split; [exact Hds|].
  assert (Forall idle ds) as Hidle'.
  { unfold extraDependencies in Hexp.
    apply expand_idle in Hexp as [? _]; [done|constructor]. }
  set (m1 := set_dependencies (dependencies m ++ ds) m).
  assert (count_selected (dependencies m1) = r) as Hr.
  { unfold m1, r. cbn [dependencies set_dependencies].
    rewrite count_selected_app. f_equal. apply count_selected_all.
    rewrite Hds. apply implied_by_selected. }
  destruct (sequencer_runs r m1 w') as (m' & Hrun & Hv & Hc' & Hl & _).
  - rewrite <- Hr. apply count_installable_idle. by apply Forall_app.
  - unfold int_min. unfold m1. cbn [installCount set_dependencies]. lia.
  - unfold m1. cbn [installCount set_dependencies]. rewrite Hc.
    unfold r, len, count_selected in *.
    pose proof (length_filter (fun d => selected d = true) (dependencies m)).
    lia.
  - done.
  - exists m'.
    change (finishes 0 :: repeat (finishes 0) (2 * r + 1))
      with ([finishes 0] ++ repeat (finishes 0) (2 * r + 1)).
    rewrite run_app, (expansion_step m w w' ds Hexp). fold m1.
    split; [exact Hrun|]. split; [exact Hv|].
    split; [rewrite Hc'; unfold m1; cbn [installCount set_dependencies]; lia|].
    rewrite Hl. unfold m1. cbn [dependencies set_dependencies].
    by rewrite length_app.
Qed.

End Compose.

(** ** The initializer, further *)

(** The path cannot be looked up (no working directory), or a regular file
    lies on the way to it: [setupProject] fails and writes nothing; in the
    second case the error is the one of a path conflict, although no entry
    is at the path. *)
Theorem setupProject_blocked (m : Model) (w : World) :
  (cwd w = None -> exists e, setupProject m w = (ErrorMsg e, w))
  /\ (forall c k,
        cwd w = Some c ->
        resolve w (path_Join [c; textinput m]) = Some k ->
        stat (files w) k = ENOTDIR ->
        setupProject m w
        = (ErrorMsg (path_conflict (path_Join [c; textinput m])), w)).
Proof.
  split.
  - intros Hc. eexists.
    unfold setupProject, bind, getProjectPath, bind, os_Getwd.
    rewrite Hc. reflexivity.
  - intros c k Hc Hk Hn.
    unfold setupProject, bind, getProjectPath, bind, os_Getwd.
    rewrite Hc. simpl. unfold os_Open. rewrite Hk, Hn. reflexivity.
Qed.

Lemma mkdir_from_ok (fs fs' : gmap (list string) Node)
  (above below : list string) :
  mkdir_from fs above below = (true, fs') ->
  node_at fs' (above ++ below) = Some Dir.
Proof.
  revert fs above. induction below as [|c below IH]; intros fs above.
  - rewrite app_nil_r. simpl.
    destruct (node_at fs above) as [[x|]|] eqn:Hn.
    + intros [= ].
    + by intros [= <-].
    + intros [= <-]. destruct above as [|a above]; [done|].
      simpl. apply lookup_insert_eq.
  - simpl. destruct (node_at fs above) as [[x|]|] eqn:Hn.
    + intros [= ].
    + intros H. apply IH in H. by rewrite <- app_assoc in H.
    + intros H. apply IH in H. by rewrite <- app_assoc in H.
Qed.

Lemma os_MkdirAll_ok (p : string) (w w' : World) :
  os_MkdirAll p w = (None, w') -> is_directory w' p = true.
Proof.
  unfold os_MkdirAll, is_directory. destruct (resolve w p) as [k|] eqn:Hk.
  2:{ by intros [= ]. }
  destruct (mkdir_from (files w) [] k) as [ok fs'] eqn:Hm.
  destruct ok; [|by intros [= ]]. intros [= <-].
  rewrite (resolve_cwd w) by done. rewrite Hk. simpl.
  apply mkdir_from_ok in Hm. simpl in Hm. by rewrite Hm.
Qed.

(** [os.WriteFile] never replaces a directory. *)
Lemma os_WriteFile_keeps_dirs (p : string) (data : Content) (w w' : World)
  (err : option string) (k : list string) :
  os_WriteFile p data w = (err, w') ->
  node_at (files w) k = Some Dir -> node_at (files w') k = Some Dir.
Proof.
  unfold os_WriteFile. destruct (resolve w p) as [k0|]; [|by intros [= <- <-]].
  destruct (stat (files w) (removelast k0)) as [[c|]| |];
    try (by intros [= <- <-]).
  destruct (node_at (files w) k0) as [[c|]|] eqn:Hn;
    try (by intros [= <- <-]); intros [= <- <-] Hk;
    (destruct k as [|a k]; [done|]); simpl in *;
    (destruct (decide (k0 = a :: k)) as [->|Hne];
     [simpl in Hn; congruence|by rewrite lookup_insert_ne]).
Qed.

Lemma is_directory_kept (p q : string) (data : Content) (w w' : World)
  (err : option string) :
  os_WriteFile p data w = (err, w') ->
  is_directory w q = true -> is_directory w' q = true.
Proof.
  intros Hw. unfold is_directory.
  pose proof (os_WriteFile_spec _ _ _ _ _ Hw) as (Hc & _).
  rewrite (resolve_cwd w w') by done.
  destruct (resolve w q) as [k|]; [|done].
  destruct (node_at (files w) k) as [[c|]|] eqn:Hn; try done.
  by rewrite (os_WriteFile_keeps_dirs _ _ _ _ _ _ Hw Hn).
Qed.

Lemma read_file_written (p : string) (data : Content) (w w' : World) :
  os_WriteFile p data w = (None, w') -> read_file w' p = Some data.
Proof.
  intros Hw. apply os_WriteFile_spec in Hw as (Hc & _ & Hk).
  destruct (Hk eq_refl) as (k & Hr & Hf). unfold read_file.
  by rewrite (resolve_cwd w w'), Hr, Hf.
Qed.

(** A write to a path with another file name leaves the file as it is. *)
Lemma read_file_kept (p q b b' : string) (data : Content) (w w' : World)
  (err : option string) :
  plain_name b = true -> ends_in p b ->
  plain_name b' = true -> ends_in q b' -> b <> b' ->
  os_WriteFile p data w = (err, w') ->
  read_file w' q = read_file w q.
Proof.
  intros Hb Hp Hb' Hq Hne Hw.
  apply os_WriteFile_spec in Hw as (Hc & Hother & _). unfold read_file.
  rewrite (resolve_cwd w w') by done.
  destruct (resolve w q) as [k|] eqn:Hk; [|done].
  rewrite Hother; [done|]. intros Hr.
  pose proof (last_resolve w p b k Hb Hp Hr).
  pose proof (last_resolve w q b' k Hb' Hq Hk). congruence.
Qed.

Lemma getProjectPath_ok (projectName p : string) (w w' : World) :
  getProjectPath projectName w = ((p, None), w') ->
  exists c, cwd w = Some c /\ p = path_Join [c; projectName]
            /\ os_Open w p = ErrNotExist
            /\ os_MkdirAll (path_Join [p; "src"]) w = (None, w').
Proof.
  unfold getProjectPath, bind, os_Getwd, ret.
  destruct (cwd w) as [c|]; simpl; [|by intros [= ]].
  destruct (os_Open w (path_Join [c; projectName])) eqn:Ho;
    try (by intros [= ]).
  destruct (os_MkdirAll _ w) as [[e|] w1] eqn:Hm; intros [= <- <-].
  exists c. by rewrite Ho.
Qed.

(** A [setupProject] that ends in [SetupMessage]: the path it returns joins
    the working directory and the text of the name field, nothing was there
    before, and afterwards the path holds the directory [src], the package
    manifest made from the name and the compiler configuration. *)
Theorem setupProject_files (m : Model) (w w1 : World) (p : string) :
  setupProject m w = (SetupMessage p, w1) ->
  exists c,
    cwd w = Some c
    /\ p = path_Join [c; textinput m]
    /\ os_Open w p = ErrNotExist
    /\ is_directory w1 (path_Join [p; "src"]) = true
    /\ read_file w1 (path_Join [p; "package.json"])
       = Some (MarshalIndent (PackageData (generatePackageJSON (textinput m))))
    /\ read_file w1 (path_Join [p; "tsconfig.json"])
       = Some (MarshalIndent (TsconfigData generateTsconfigJSON)).
Proof.
  intros Hsetup.
  apply setupProject_steps in Hsetup
    as (wa & wb & wc & wd & Ha & Hb & Hc & Hd & He).
  apply getProjectPath_ok in Ha as (c & Hcwd & Hp & Ho & Hm).
  exists c. repeat (split; [done|]).
  unfold writeJson in Hb, Hc. unfold copyStaticFile in Hd, He.
  assert (forall a f, ends_in (path_Join [a; f]) f \/ plain_name f = false)
    as Hend.
  { intros a f. destruct (plain_name f) eqn:Hf; [left|by right].
    apply ends_in_path_Join; [done|by apply ends_in_plain]. }
  split; [|split].
  - apply os_MkdirAll_ok in Hm.
    eapply is_directory_kept; [exact He|].
    eapply is_directory_kept; [exact Hd|].
    eapply is_directory_kept; [exact Hc|].
    eapply is_directory_kept; [exact Hb|]. exact Hm.
  - rewrite (read_file_kept _ _ "esbuild.js" "package.json" _ _ _ _
               eq_refl ltac:(by destruct (Hend (projectPath m) "esbuild.js"))
               eq_refl ltac:(by destruct (Hend p "package.json"))
               ltac:(done) He).
    rewrite (read_file_kept _ _ "eslintrc.cjs" "package.json" _ _ _ _
               eq_refl ltac:(by destruct (Hend (projectPath m) "eslintrc.cjs"))
               eq_refl ltac:(by destruct (Hend p "package.json"))
               ltac:(done) Hd).
    rewrite (read_file_kept _ _ "tsconfig.json" "package.json" _ _ _ _
               eq_refl ltac:(by destruct (Hend p "tsconfig.json"))
               eq_refl ltac:(by destruct (Hend p "package.json"))
               ltac:(done) Hc).
    by apply read_file_written in Hb.
  - rewrite (read_file_kept _ _ "esbuild.js" "tsconfig.json" _ _ _ _
               eq_refl ltac:(by destruct (Hend (projectPath m) "esbuild.js"))
               eq_refl ltac:(by destruct (Hend p "tsconfig.json"))
               ltac:(done) He).
    rewrite (read_file_kept _ _ "eslintrc.cjs" "tsconfig.json" _ _ _ _
               eq_refl ltac:(by destruct (Hend (projectPath m) "eslintrc.cjs"))
               eq_refl ltac:(by destruct (Hend p "tsconfig.json"))
               ltac:(done) Hd).
    by apply read_file_written in Hc.
Qed.

(** ** No index is ever out of range *)

Lemma weight_app (ds ds' : list Dependency) :
  weight (ds ++ ds') = (weight ds + weight ds')%nat.
Proof. unfold weight. by rewrite fmap_app, concat_app, length_app. Qed.

Lemma weight_cons (d : Dependency) (ds : list Dependency) :
  weight (d :: ds) = (length (implied d) + weight ds)%nat.
Proof. unfold weight. by rewrite fmap_cons, concat_cons, length_app. Qed.

Lemma implied_same_name (d d' : Dependency) :
  name d' = name d -> implied d' = implied d.
Proof. unfold implied. by intros ->. Qed.

Lemma weight_insert (ds : list Dependency) (j : nat) (d d' : Dependency) :
  ds !! j = Some d -> name d' = name d ->
  weight (<[j := d']> ds) = weight ds.
Proof.
  intros Hj Hn. unfold weight. rewrite list_fmap_insert.
  rewrite list_insert_id; [done|].
  rewrite list_lookup_fmap, Hj. simpl. by rewrite (implied_same_name d d').
Qed.

Lemma weight_none (ds : list Dependency) :
  Forall (fun d => implied d = []) ds -> weight ds = 0%nat.
Proof.
  induction 1 as [|d ds Hd _ IH]; [done|]. by rewrite weight_cons, Hd, IH.
Qed.

Lemma implied_implies_nothing (d : Dependency) :
  Forall (fun x => implied x = []) (implied d).
Proof.
  unfold implied at 2.
  destruct (String.eqb (name d) "react"), (String.eqb (name d) "kysely");
    repeat constructor.
Qed.

Lemma weight_implied_by (ds : list Dependency) : weight (implied_by ds) = 0%nat.
Proof.
  apply weight_none. unfold implied_by. apply Forall_concat, Forall_fmap.
  apply Forall_forall. intros d _. apply implied_implies_nothing.
Qed.

Lemma length_implied_by (ds : list Dependency) :
  (length (implied_by ds) <= weight ds)%nat.
Proof.
  induction ds as [|d ds IH]; [done|].
  rewrite implied_by_cons, weight_cons.
  destruct (selected d); rewrite ?length_app; lia.
Qed.

Lemma in_range_longer (m m' : Model) (c : Closure) :
  (length (dependencies m) <= length (dependencies m'))%nat ->
  in_range m c -> in_range m' c.
Proof. intros Hl. destruct c; simpl; try done. intros (? & ? & ?). lia. Qed.

Lemma pending_in_range_longer (m m' : Model) (ps : list (list Closure)) :
  (length (dependencies m) <= length (dependencies m'))%nat ->
  Forall (Forall (in_range m)) ps -> Forall (Forall (in_range m')) ps.
Proof.
  intros Hl Hps. eapply Forall_impl; [exact Hps|]. intros p Hp.
  eapply Forall_impl; [exact Hp|]. intros c. by apply in_range_longer.
Qed.

(** The next state of the loop is safe when its list is at least as long,
    within the bound and as light, its cursor is on an entry, and the new
    functions are in range. *)
Lemma safe_parts_next (n : nat) (m m' : Model) (ps qs : list (list Closure)) :
  safe_parts n m ps ->
  0 <= cursor m' < len (dependencies m') ->
  (length (dependencies m) <= length (dependencies m') <= 7 + 6 * S n)%nat ->
  (weight (dependencies m') <= 6)%nat ->
  Forall (Forall (in_range m')) qs ->
  safe_parts (S n) m' (ps ++ qs).
Proof.
  intros (Hc & Hl & Hw & Hps) Hc' [Hl1 Hl2] Hw' Hqs.
  split; [done|]. split; [done|]. split; [done|].
  apply Forall_app. split; [|done]. by apply (pending_in_range_longer m).
Qed.

(** The next state when the list and the cursor stay. *)
Lemma safe_parts_same (n : nat) (m m' : Model) (ps qs : list (list Closure)) :
  safe_parts n m ps ->
  cursor m' = cursor m ->
  dependencies m' = dependencies m ->
  Forall (Forall (in_range m')) qs ->
  safe_parts (S n) m' (ps ++ qs).
Proof.
  intros Hs Hc Hd Hqs. pose proof Hs as (Hc0 & Hl & Hw & Hps).
  apply (safe_parts_next n m); try done; rewrite ?Hc, ?Hd; try done. lia.
Qed.

Ltac in_range_spawned :=
  cbn [spawn own omap list_omap id filter list_filter fmap list_fmap is_lib];
  simpl;
  repeat (apply Forall_cons; split); try apply Forall_nil;
  cbn [in_range]; auto.

(** [Update] takes every message that is as [sent_ok] has it, and keeps
    the loop safe. *)
Lemma Update_safe (n : nat) (m : Model) (ps : list (list Closure)) (msg : Msg) :
  safe_parts n m ps ->
  sent_ok m msg ->
  Z.of_nat (7 + 6 * S n) <= int_max ->
  exists m' c, Update m msg = Some (m', c)
               /\ safe_parts (S n) m' (ps ++ spawn c).
Proof.
  intros Hs Hmsg Hbound. pose proof Hs as (Hc & Hl & Hw & Hps).
  assert (forall m1 c1,
             cursor m1 = cursor m -> dependencies m1 = dependencies m ->
             Forall (Forall (in_range m1)) (spawn c1) ->
             exists m' c, Some (m1, c1) = Some (m', c)
                          /\ safe_parts (S n) m' (ps ++ spawn c)) as Hsame.
  { intros m1 c1 H1 H2 H3. exists m1, c1. split; [done|].
    by apply (safe_parts_same n m). }
  unfold len in Hc. unfold int_max in Hbound.
  unfold Update. destruct msg as [k|p|ds| |i|a|e| |].
  - unfold Update_key. destruct (is_cancel (Type_ k)).
    { apply Hsame; [done|done|in_range_spawned]. }
    destruct (eqb_page (view m) Page1View).
    { destruct (Type_ k); apply Hsame; try done; in_range_spawned. }
    destruct (eqb_page (view m) Page2View);
      [|apply Hsame; [done|done|in_range_spawned]].
    destruct (is_toggle (Type_ k)).
    + destruct (index_in_range (dependencies m) (cursor m)) as [d Hd];
        [unfold len; lia|].
      rewrite Hd. apply index_Some in Hd as [_ Hd].
      eexists _, _. split; [reflexivity|].
      apply (safe_parts_next n m); [exact Hs|..].
      * cbn [dependencies cursor set_dependencies]. unfold len.
        rewrite length_insert. lia.
      * cbn [dependencies set_dependencies]. rewrite length_insert. lia.
      * cbn [dependencies set_dependencies].
        rewrite (weight_insert _ _ d); [done|done|]. by destruct (selected d).
      * in_range_spawned.
    + destruct (Type_ k);
        try (apply Hsame; [done|done|solve [in_range_spawned]]).
      * eexists _, _. split; [reflexivity|].
        destruct (Z.ltb_spec 0 (cursor m)).
        -- apply (safe_parts_next n m); [exact Hs|..].
           ++ cbn [dependencies cursor set_cursor].
              rewrite wrap_int_small by (unfold int_min, int_max; lia).
              unfold len. lia.
           ++ cbn [dependencies set_cursor]. lia.
           ++ exact Hw.
           ++ in_range_spawned.
        -- apply (safe_parts_same n m); [exact Hs|done|done|in_range_spawned].
      * eexists _, _. split; [reflexivity|].
        destruct (Z.ltb_spec (cursor m) (len (dependencies m) - 1)) as [Hlt|Hge].
        -- unfold len in Hlt. apply (safe_parts_next n m); [exact Hs|..].
           ++ cbn [dependencies cursor set_cursor].
              rewrite wrap_int_small by (unfold int_min, int_max; lia).
              unfold len. lia.
           ++ cbn [dependencies set_cursor]. lia.
           ++ exact Hw.
           ++ in_range_spawned.
        -- apply (safe_parts_same n m); [exact Hs|done|done|in_range_spawned].
  - apply Hsame; [done|done|in_range_spawned].
  - destruct Hmsg as [Hds Hwd]. eexists _, _. split; [reflexivity|].
    apply (safe_parts_next n m); [exact Hs|..].
    + cbn [dependencies cursor set_dependencies]. unfold len.
      rewrite length_app. lia.
    + cbn [dependencies set_dependencies]. rewrite length_app. lia.
    + cbn [dependencies set_dependencies]. rewrite weight_app. lia.
    + in_range_spawned.
  - destruct (scan_from 0 (dependencies m)) as [j|] eqn:Hsc.
    + apply scan_from_Some in Hsc as (j' & d & -> & Hj & _).
      rewrite Nat.add_0_l, (alter_lookup _ _ _ d Hj).
      pose proof (lookup_lt_Some _ _ _ Hj).
      eexists _, _. split; [reflexivity|].
      apply (safe_parts_next n m); [exact Hs|..].
      * cbn [dependencies cursor set_dependencies]. unfold len.
        rewrite length_insert. lia.
      * cbn [dependencies set_dependencies]. rewrite length_insert. lia.
      * cbn [dependencies set_dependencies].
        by rewrite (weight_insert _ _ d).
      * in_range_spawned. cbn [dependencies set_dependencies].
        rewrite Nat2Z.id, length_insert. lia.
    + apply Hsame; [done|done|in_range_spawned].
  - destruct Hmsg as [Hi0 Hi].
    destruct (index_in_range (dependencies m) i) as [d Hd]; [unfold len; lia|].
    rewrite Hd. apply index_Some in Hd as [_ Hd].
    eexists _, _. split; [reflexivity|].
    apply (safe_parts_next n m); [exact Hs|..].
    + cbn [dependencies cursor set_dependencies set_installCount]. unfold len.
      rewrite length_insert. lia.
    + cbn [dependencies set_dependencies set_installCount].
      rewrite length_insert. lia.
    + cbn [dependencies set_dependencies set_installCount].
      by rewrite (weight_insert _ _ d).
    + in_range_spawned.
  - apply Hsame; [done|done|in_range_spawned].
  - apply Hsame; [done|done|in_range_spawned].
  - apply Hsame; [done|done|in_range_spawned].
  - apply Hsame; [done|done|in_range_spawned].
Qed.

Lemma safe_parts_later (n : nat) (m : Model) (ps : list (list Closure)) :
  safe_parts n m ps -> safe_parts (S n) m ps.
Proof.
  intros (? & ? & ? & ?).
  split; [done|]. split; [lia|]. split; done.
Qed.

Lemma in_range_after_call (m : Model) (n : nat) (c : Closure)
  (rest : list Closure) (ps : list (list Closure)) :
  ps !! n = Some (c :: rest) ->
  Forall (Forall (in_range m)) ps ->
  in_range m c /\ Forall (Forall (in_range m)) (after_call n rest ps).
Proof.
  intros Hn Hps.
  pose proof (Forall_lookup_1 _ _ _ _ Hps Hn) as Hp.
  apply Forall_cons in Hp as [Hc Hrest]. split; [done|].
  unfold after_call. destruct rest as [|c' rest].
  - by apply Forall_delete.
  - by apply Forall_insert.
Qed.

Section NoPanic.

Context `{decoder : JSON}.

(** A function of the program that is in range returns a message, and one
    that [Update] takes. *)
Lemma run_closure_sent_ok (m : Model) (c : Closure) (w : World) :
  in_range m c ->
  exists msg w', run_closure c w = (Some msg, w') /\ sent_ok m msg.
Proof.
  intros Hc.
  destruct (run_closure c w) as [[msg|] w'] eqn:Hrun.
  - exists msg, w'. split; [done|].
    pose proof Hrun as Hkind. apply run_closure_kind in Hkind.
    destruct c as [mc|mc|mc i|mc| | |]; simpl in Hkind, Hc.
    + by destruct Hkind as [[p ->]|[e ->]].
    + destruct Hkind as [(ds & -> & _)|[e ->]]; [|done].
      simpl in Hrun. unfold bind, ret in Hrun.
      destruct (extraDependencies mc w) as [msg0 w0] eqn:Hexp.
      injection Hrun as -> ->. unfold extraDependencies in Hexp.
      apply expand_appends_implied in Hexp. simpl in Hexp. subst ds.
      split; [|apply weight_implied_by].
      pose proof (length_implied_by (dependencies mc)). lia.
    + destruct Hkind as [->|[e ->]]; [|done]. simpl. lia.
    + by destruct Hkind as [[a ->]|[e ->]].
    + by subst msg.
    + by subst msg.
    + by subst msg.
  - exfalso. destruct c as [mc|mc|mc i|mc| | |]; simpl in Hrun, Hc;
      unfold bind, ret in Hrun;
      try (destruct (setupProject mc w); discriminate);
      try (destruct (extraDependencies mc w); discriminate);
      try (destruct (runAudit mc w); discriminate);
      try discriminate.
    destruct Hc as (Hi0 & Hi & _).
    destruct (index_in_range (dependencies mc) i) as [d Hd];
      [unfold len; lia|].
    unfold installDependency, bind, ret in Hrun. rewrite Hd in Hrun.
    destruct (execOutput _ _ w) as [r w0].
    destruct (ee_error (snd r)); discriminate.
Qed.

(** A message that [Update] takes leaves the loop safe. *)
Lemma deliver_safe (n : nat) (s : Sys) (msg : Msg) :
  safe n s -> sent_ok (model s) msg ->
  Z.of_nat (7 + 6 * S n) <= int_max ->
  safe (S n) (deliver s msg).
Proof.
  intros [Hst Hs] Hmsg Hbound.
  destruct (Update_safe n (model s) (pending s) msg Hs Hmsg Hbound)
    as (m' & c & HU & Hs').
  assert (safe (S n) (mkSys m' (pending s ++ spawn c) (world s) (status s)))
    as Hgo by (by split).
  assert (safe (S n) (mkSys (model s) (pending s) (world s) Exited))
    as Hquit by (split; [done|by apply safe_parts_later]).
  unfold deliver. destruct msg; try exact Hquit; by rewrite HU.
Qed.

Lemma step_safe (n : nat) (s : Sys) (ev : Event) :
  safe n s -> Z.of_nat (7 + 6 * S n) <= int_max -> safe (S n) (step s ev).
Proof.
  intros Hs Hbound. pose proof Hs as [Hst Hparts].
  assert (safe (S n) s) as Hlater
    by (split; [done|by apply safe_parts_later]).
  unfold step. destruct (status s) eqn:Hstatus; try exact Hlater.
  destruct ev as [k| |j].
  - by apply deliver_safe.
  - by apply deliver_safe.
  - destruct (pending s !! j) as [[|c rest]|] eqn:Hj; [| |exact Hlater].
    + split; [done|]. cbn [model pending].
      destruct Hparts as (? & ? & ? & Hps).
      split; [done|]. split; [lia|]. split; [done|].
      by apply Forall_delete.
    + destruct Hparts as (Hc & Hl & Hw & Hps).
      destruct (in_range_after_call _ _ _ _ _ Hj Hps) as [Hin Hps'].
      destruct (run_closure_sent_ok (model s) c (world s) Hin)
        as (msg & w' & -> & Hmsg).
      apply deliver_safe; [|exact Hmsg|exact Hbound].
      split; [done|]. cbn [model pending].
      split; [done|]. split; [done|]. split; done.
Qed.

Lemma run_safe (evs : list Event) (n : nat) (s : Sys) :
  safe n s ->
  Z.of_nat (7 + 6 * (n + length evs)) <= int_max ->
  safe (n + length evs) (run s evs).
Proof.
  revert n s. induction evs as [|ev evs IH]; intros n s Hs Hbound.
  { simpl. by rewrite Nat.add_0_r. }
  cbn [run fold_left length] in *.
  replace (n + S (length evs))%nat with (S n + length evs)%nat in * by lia.
  apply IH; [|exact Hbound]. apply step_safe; [exact Hs|lia].
Qed.

Lemma boot_safe (w : World) : safe 0 (boot w).
Proof.
  split; [done|]. unfold boot. cbn [model pending].
  split; [by vm_compute|]. split; [vm_compute; lia|].
  split; [vm_compute; lia|]. by vm_compute.
Qed.

(** The program never takes an entry of the list of dependencies at an index
    out of range, whatever is typed and however the commands end, and the
    cursor is on an entry at every moment. *)
Theorem no_index_out_of_range (w : World) (evs : list Event) :
  Z.of_nat (length evs) < 2 ^ 60 ->
  status (run (boot w) evs) <> Panicked
  /\ 0 <= cursor (model (run (boot w) evs))
       < len (dependencies (model (run (boot w) evs))).
Proof.
  intros Hlen.
  destruct (run_safe evs 0 (boot w) (boot_safe w)) as [Hst (Hc & _)].
  { unfold int_max. lia. }
  done.
Qed.

End NoPanic.

(** ** The end of a session *)

Section AuditEnd.

Context `{decoder : JSON}.

(** Once the audit is called, the loop ends two steps later whatever the
    audit command does: with the report in the model and the last page
    shown, or with the error in the model; nothing is left to be called. *)
Theorem audit_ends_the_loop (m mc : Model) (w : World) :
  let s := run (mkSys m [[call_runAudit mc]] w Running)
             [finishes 0; finishes 0] in
  status s = Exited /\ pending s = []
  /\ match fst (runAudit mc w) with
     | AuditMsg a => model s = set_view Page5View (set_audit a m)
     | ErrorMsg e => model s = set_error e m
     | _ => False
     end.
Proof.
  assert (step (mkSys m [[call_runAudit mc]] w Running) (finishes 0)
          = deliver (mkSys m [] w Running) (fst (runAudit mc w))) as Hcall.
  { unfold step. cbn [status pending model world].
    change ([[call_runAudit mc]] !! 0%nat) with (Some [call_runAudit mc]).
    cbn [run_closure]. unfold bind, ret. rewrite runAudit_eq. reflexivity. }
  unfold run. cbn [fold_left]. rewrite Hcall. clear Hcall.
  rewrite runAudit_eq. cbv zeta. cbn [fst].
  destruct (p_error _), (json_Unmarshal _); unfold deliver;
    cbn [Update model pending world status app spawn];
    (change (own [None; Some lib_cmd; Some tea_Quit]) with [tea_Quit]
     || change (own [Some tea_Quit]) with [tea_Quit]);
    cbn [fmap list_fmap];
    repeat split; reflexivity.
Qed.

End AuditEnd.

(** A setup that fails after the directories were made leaves them behind:
    the project directory was not there before, and it is there afterwards
    with its [src]. *)
Theorem failed_setup_leaves_directory (m : Model) (w wa w1 : World)
  (p e : string) :
  getProjectPath (textinput m) w = ((p, None), wa) ->
  setupProject m w = (ErrorMsg e, w1) ->
  os_Open w p = ErrNotExist
  /\ is_directory w1 (path_Join [p; "src"]) = true.
Proof.
  intros Hpath Hsetup.
  pose proof Hpath as Hok.
  apply getProjectPath_ok in Hok as (c & _ & _ & Ho & Hm).
  split; [exact Ho|]. apply os_MkdirAll_ok in Hm.
  unfold setupProject, bind in Hsetup. rewrite Hpath in Hsetup.
  cbn [fst snd or_else] in Hsetup.
  unfold writeJson in Hsetup. unfold copyStaticFile in Hsetup.
  destruct (os_WriteFile _ _ wa) as [e1 wb] eqn:H1.
  pose proof (is_directory_kept _ _ _ _ _ _ H1 Hm) as Hb.
  destruct e1 as [x|]; cbn [or_else ret] in Hsetup.
  { by injection Hsetup as _ <-. }
  destruct (os_WriteFile _ _ wb) as [e2 wc] eqn:H2.
  pose proof (is_directory_kept _ _ _ _ _ _ H2 Hb) as Hc.
  destruct e2 as [x|]; cbn [or_else ret] in Hsetup.
  { by injection Hsetup as _ <-. }
  destruct (os_WriteFile _ _ wc) as [e3 wd] eqn:H3.
  pose proof (is_directory_kept _ _ _ _ _ _ H3 Hc) as Hd.
  destruct e3 as [x|]; cbn [or_else ret] in Hsetup.
  { by injection Hsetup as _ <-. }
  destruct (os_WriteFile _ _ wd) as [e4 we] eqn:H4.
  pose proof (is_directory_kept _ _ _ _ _ _ H4 Hd) as He.
  destruct e4 as [x|]; cbn [or_else ret] in Hsetup.
  { by injection Hsetup as _ <-. }
  discriminate Hsetup.
Qed.

(** ** The confirm key with nothing typed *)

Lemma path_Join_empty (c : string) :
  c <> EmptyString -> path_Join [c; EmptyString] = path_Clean c.
Proof. intros Hc. by destruct c. Qed.

Lemma setupProject_empty_name (m : Model) (w : World) (c : string) :
  cwd w = Some c -> c <> EmptyString ->
  os_Open w (path_Clean c) = open_ok ->
  textinput m = EmptyString ->
  setupProject m w = (ErrorMsg (path_conflict (path_Clean c)), w).
Proof.
  intros Hcwd Hc Ho Ht.
  unfold setupProject, bind, getProjectPath, bind, os_Getwd.
  rewrite Hcwd, Ht. cbn [fst snd]. rewrite (path_Join_empty c Hc), Ho.
  reflexivity.
Qed.

Section EmptyName.

Context `{decoder : JSON}.

(** The confirm key pressed at the start, with nothing typed: the setup
    takes the working directory itself for the project path, finds it
    there, and the session ends with the error of a path conflict and
    nothing written. *)
Theorem empty_name_fails (w : World) (c : string) :
  cwd w = Some c -> c <> EmptyString ->
  os_Open w (path_Clean c) = open_ok ->
  let s := run (boot w) [key_pressed (key KeyEnter); finishes 0; finishes 0] in
  status s = Exited
  /\ error (model s) = path_conflict (path_Clean c)
  /\ world s = w.
Proof.
  intros Hcwd Hc Ho.
  assert (step (boot w) (key_pressed (key KeyEnter))
          = mkSys initialModel [[call_setupProject initialModel]] w Running)
    as H1 by reflexivity.
  assert (step (mkSys initialModel [[call_setupProject initialModel]] w Running)
            (finishes 0)
          = mkSys (set_error (path_conflict (path_Clean c)) initialModel)
              [[tea_Quit]] w Running) as H2.
  { unfold step. cbn [status pending model world].
    change ([[call_setupProject initialModel]] !! 0%nat)
      with (Some [call_setupProject initialModel]).
    cbn [run_closure]. unfold bind, ret.
    rewrite (setupProject_empty_name initialModel w c) by done.
    reflexivity. }
  cbv zeta. unfold run. cbn [fold_left]. rewrite H1, H2.
  repeat split; reflexivity.
Qed.

End EmptyName.

(** * The properties at work on concrete inputs *)

#[local] Existing Instance sample_JSON.
#[local] Existing Instance plain_Style.

Lemma severity_by_priority_witness :
  severityStatus high_and_moderate
  = match highest_nonzero (MetadataVulnerabilities high_and_moderate) with
    | Some s =>
        lipgloss_Render (severity_colour s)
          ("Severity: " +:+ severity_name s) +:+ " "
    | None => EmptyString
    end
  /\ (Critical (MetadataVulnerabilities high_and_moderate) = 0 ->
      High (MetadataVulnerabilities high_and_moderate) = 1 ->
      Moderate (MetadataVulnerabilities high_and_moderate) = 5 ->
      severityStatus high_and_moderate = "Severity: High ")
  /\ (Critical (MetadataVulnerabilities high_and_moderate) = 0 ->
      High (MetadataVulnerabilities high_and_moderate) = 0 ->
      Moderate (MetadataVulnerabilities high_and_moderate) = 0 ->
      Low (MetadataVulnerabilities high_and_moderate) = 0 ->
      Info (MetadataVulnerabilities high_and_moderate) = 0 ->
      severityStatus high_and_moderate = EmptyString).
Proof.
  apply (severity_by_priority (style := plain_Style) high_and_moderate).
  vm_compute. repeat split; discriminate.
Defined.

Lemma runAudit_error_iff_witness :
  let failed := world_answering (mkProcResult sample_document EmptyString (Some "exit status 1")) in
  let passed := world_answering (mkProcResult sample_document EmptyString None) in
  fst (runAudit initialModel failed) = AuditMsg sample_report
  /\ fst (runAudit initialModel passed) = AuditMsg sample_report
  /\ forall a a',
       fst (runAudit initialModel failed) = AuditMsg a ->
       fst (runAudit initialModel passed) = AuditMsg a' ->
       a = a'
       /\ severityStatus a = severityStatus a'.
Proof.
  intros failed passed.
  exact (proj2 (runAudit_error_iff (decoder := sample_JSON) (style := plain_Style)
                  initialModel failed)
           passed sample_report eq_refl eq_refl).
Defined.


Lemma invariants_hold_witness :
  setups (boot fresh_world) two_early_setups = 2%nat
  /\ late_setups (boot fresh_world) two_early_setups = 0%nat
  /\ invariants (model (run (boot fresh_world) two_early_setups)) = true.
Proof.
  assert (late_setups (boot fresh_world) two_early_setups = 0%nat) as H
    by (vm_compute; reflexivity).
  split; [vm_compute; reflexivity|]. split; [exact H|].
  apply (invariants_hold fresh_world two_early_setups H).
Defined.

(** C2, as it is stated, fails.  A second name is confirmed before the
    first setup has come back; both setups succeed, and the second
    [SetupMessage] comes after the selection has been confirmed: it brings
    the loop back to the selection page while the installation is under
    way.  A toggle then deselects the entry that is being installed, and a
    second confirm starts a second sequencer, which marks a second entry. *)
Lemma invariants_fail_after_two_setups :
  status (run (boot fresh_world) two_setups) = Running
  /\ invariant1 (model (run (boot fresh_world) two_setups)) = false
  /\ invariants (model (run (boot fresh_world) two_setups)) = false
  /\ status (run (boot fresh_world) two_setups_go_on) = Running
  /\ invariant2 (model (run (boot fresh_world) two_setups_go_on)) = false
  /\ setups (boot fresh_world) two_setups = 2%nat
  /\ late_setups (boot fresh_world) two_setups = 1%nat.
Proof. vm_compute. repeat split. Qed.

Lemma exit_status_witness :
  (terminal_error reporting_world = None ->
   status (run (boot reporting_world)
             (until_audit ++ [finishes 0; finishes 0])) = Exited
   /\ mkProcess 0 [] [] = mkProcess 0 [] [])
  /\ main no_tty_world [] = Some (mkProcess 1 ["could not open a new TTY"] [])
  /\ (exists n,
        main fresh_world ([] ++ [key_pressed (key KeyEsc); finishes n])
        = Some (mkProcess 0 [] []))
  /\ (error (model (run (boot taken_world) (until_setup ++ [finishes 0])))
      = path_conflict "/home/user/demo"
      /\ main taken_world (until_setup ++ [finishes 0]) = None
      /\ exists k,
           main taken_world (until_setup ++ [finishes 0; finishes k])
           = Some (mkProcess 0 [] []))
  /\ (view (model (run (boot reporting_world) (until_audit ++ [finishes 0])))
      = Page5View
      /\ audit (model (run (boot reporting_world)
                         (until_audit ++ [finishes 0]))) = sample_report
      /\ main reporting_world (until_audit ++ [finishes 0]) = None
      /\ exists k,
           main reporting_world (until_audit ++ [finishes 0; finishes k])
           = Some (mkProcess 0 [] [])).
Proof.
  assert (main reporting_world (until_audit ++ [finishes 0; finishes 0])
          = Some (mkProcess 0 [] [])) as Hmain by (vm_compute; reflexivity).
  split; [|split; [|split; [|split]]].
  - apply (proj1 (proj1 (exit_status reporting_world) _ _ Hmain)).
  - apply (proj1 (proj2 (exit_status no_tty_world))). reflexivity.
  - apply (proj1 (proj2 (proj2 (exit_status fresh_world))) [] (key KeyEsc));
      reflexivity.
  - apply (proj1 (proj2 (proj2 (proj2 (exit_status taken_world))))
             until_setup 0%nat
             (call_setupProject demo_model) [] taken_world).
    + reflexivity.
    + vm_compute. reflexivity.
    + vm_compute. reflexivity.
    + vm_compute. reflexivity.
  - apply (proj2 (proj2 (proj2 (proj2 (exit_status reporting_world))))
             until_audit 0%nat
             (call_runAudit
                (model (run (boot reporting_world) until_audit))) []
             (world (run (boot reporting_world) until_audit))).
    + reflexivity.
    + vm_compute. reflexivity.
    + vm_compute. reflexivity.
    + vm_compute. reflexivity.
Defined.

(** C3, as it is stated, fails.  The setup runs into an entry that is
    already there: the error reaches the model, the loop ends, and the
    process exits with status 0, with nothing on the standard error. *)
Lemma fatal_error_exits_with_0 :
  error (model (run (boot taken_world) conflict))
  = path_conflict "/home/user/demo"
  /\ status (run (boot taken_world) conflict) = Exited
  /\ main taken_world conflict = Some (mkProcess 0 [] []).
Proof. vm_compute. repeat split. Qed.

Lemma expansion_of_typescript_and_react_witness :
  fst (extraDependencies typescript_and_react demo_world)
  = ExtraDepsMessage react_extras
  /\ (exists m' c,
        Update typescript_and_react (ExtraDepsMessage react_extras)
        = Some (m', c)
        /\ dependencies m' = dependencies typescript_and_react ++ react_extras
        /\ length (dependencies m')
           = (length (dependencies typescript_and_react) + 5)%nat)
  /\ Forall (fun d => selected d = true /\ installing d = false
                      /\ installed d = false) react_extras
  /\ (fun d => (name d, devDependency d)) <$> react_extras
     = [ ("@types/react", true); ("@types/react-dom", true);
         ("eslint-plugin-react", true);
         ("@typescript-eslint/eslint-plugin", true);
         ("@typescript-eslint/parser", true) ].
Proof.
  apply (expansion_of_typescript_and_react typescript_and_react demo_world).
  - vm_compute. reflexivity.
  - vm_compute. reflexivity.
Defined.

Lemma setupProject_path_conflict_witness :
  setupProject demo_model taken_world
  = (ErrorMsg (path_conflict (path_Join ["/home/user"; textinput demo_model])),
     taken_world).
Proof.
  apply (setupProject_path_conflict demo_model taken_world "/home/user"
           ["home"; "user"; "demo"] Dir).
  - reflexivity.
  - vm_compute. reflexivity.
  - vm_compute. reflexivity.
Defined.

Lemma esbuild_js_holds_lint_config_witness :
  let w2 := snd (extraDependencies typescript_and_react demo_world) in
  let msg := fst (extraDependencies typescript_and_react demo_world) in
  (exists k k',
     resolve fresh_world (path_Join [projectPath demo_model; "esbuild.js"])
     = Some k
     /\ resolve fresh_world (path_Join [projectPath demo_model; "eslintrc.cjs"])
        = Some k'
     /\ files demo_world !! k = Some (File (Bytes EslintConfigJs))
     /\ files demo_world !! k' = Some (File (Bytes EslintConfigJs))
     /\ ("esbuild" ∉ selected_names (dependencies typescript_and_react) ->
         files w2 !! k = Some (File (Bytes EslintConfigJs)))
     /\ ("esbuild" ∈ selected_names (dependencies typescript_and_react) ->
         is_ErrorMsg msg = false ->
         exists k2,
           resolve fresh_world
             (path_Join [projectPath typescript_and_react; "esbuild.js"])
           = Some k2
           /\ files w2 !! k2 = Some (File (Bytes EsbuildJs)))
     /\ (projectPath demo_model = EmptyString ->
         exists c, cwd fresh_world = Some c
                   /\ k = walk [] c ++ ["esbuild.js"]))
  /\ (forall (w0 : World) (evs : list Event) (n : nat) (rest : list Closure),
        pending (run (boot w0) evs) !! n
        = Some (call_setupProject demo_model :: rest) ->
        projectPath demo_model = EmptyString).
Proof.
  intros w2 msg.
  apply (esbuild_js_holds_lint_config demo_model typescript_and_react
           fresh_world demo_world w2 "/home/user/demo" msg).
  - apply injective_projections; [vm_compute; reflexivity|reflexivity].
  - apply surjective_pairing.
Defined.

(** C10.  The code on a new project [demo] in [/home/user].  The setup
    joins the two file names to [m.projectPath], which is still empty when
    [setupProject] runs, and not to the project path it has just made, to
    which it joins [package.json] and [tsconfig.json]: the lint
    configuration goes to [eslintrc.cjs] and [esbuild.js] of the working
    directory, and the project root holds neither.  The expander, which runs
    with [m.projectPath] set, writes the bundler configuration to
    [esbuild.js] of the project root when esbuild is selected, so that it
    replaces nothing, and the file of the working directory keeps the lint
    configuration; with esbuild deselected the project root has no
    [esbuild.js] at the end. *)
Lemma no_esbuild_js_in_project_root :
  fst (setupProject demo_model fresh_world) = SetupMessage "/home/user/demo"
  /\ files demo_world !! ["home"; "user"; "demo"; "esbuild.js"] = None
  /\ files demo_world !! ["home"; "user"; "demo"; "eslintrc.cjs"] = None
  /\ files demo_world !! ["home"; "user"; "esbuild.js"]
     = Some (File (Bytes EslintConfigJs))
  /\ files demo_world !! ["home"; "user"; "eslintrc.cjs"]
     = Some (File (Bytes EslintConfigJs))
  /\ files demo_world !! ["home"; "user"; "demo"; "package.json"]
     = Some (File (MarshalIndent (PackageData (generatePackageJSON "demo"))))
  /\ projectPath (model (run (boot fresh_world) without_esbuild))
     = "/home/user/demo"
  /\ files (world (run (boot fresh_world) without_esbuild))
       !! ["home"; "user"; "demo"; "esbuild.js"] = None
  /\ files (world (run (boot fresh_world) without_esbuild))
       !! ["home"; "user"; "esbuild.js"]
     = Some (File (Bytes EslintConfigJs))
  /\ files (world (run (boot fresh_world) with_esbuild))
       !! ["home"; "user"; "demo"; "esbuild.js"]
     = Some (File (Bytes EsbuildJs))
  /\ files (world (run (boot fresh_world) with_esbuild))
       !! ["home"; "user"; "esbuild.js"]
     = Some (File (Bytes EslintConfigJs)).
Proof. vm_compute. repeat split. Qed.

Lemma expander_without_files_witness :
  extraDependencies without_files demo_world
  = (ExtraDepsMessage (implied_by (dependencies without_files)), demo_world).
Proof.
  apply (expander_without_files without_files demo_world).
  unfold without_files. cbn [dependencies set_view set_projectPath
                               set_dependencies].
  repeat (apply Forall_cons; split); try apply Forall_nil;
    vm_compute; first [exact I|congruence].
Defined.

Lemma Update_keeps_entries_witness :
  exists d',
    dependencies
      (set_dependencies
         (<[0%nat := set_installing true (newDependency "typescript" true true)]>
            (dependencies initialModel)) initialModel) !! 0%nat = Some d'
    /\ kept (newDependency "typescript" true true) d'.
Proof.
  set (m1 := set_dependencies
               (<[0%nat := set_installing true
                             (newDependency "typescript" true true)]>
                  (dependencies initialModel)) initialModel).
  apply (Update_keeps_entries initialModel m1 InstallAllMsg
           (cmd_func (call_installDependency m1 0))).
  - reflexivity.
  - reflexivity.
Defined.

Lemma failed_install_stops_witness :
  let d := newDependency "typescript" true true in
  let m1 := set_error "exit status 1"
              (set_dependencies
                 (<[0%nat := set_installing true d]> (dependencies initialModel))
                 initialModel) in
  run (installing_starts initialModel npm_down) [finishes 0; finishes 0]
  = mkSys m1 [[tea_Quit]] npm_down Running
  /\ run (installing_starts initialModel npm_down)
       [finishes 0; finishes 0; finishes 0]
     = mkSys m1 [] npm_down Exited
  /\ installCount m1 = installCount initialModel.
Proof.
  intros d.
  apply (failed_install_stops initialModel npm_down 0%nat d "exit status 1").
  - reflexivity.
  - reflexivity.
  - intros j d' Hj. lia.
  - reflexivity.
Defined.

Lemma sequencer_installs_selected_witness :
  run (installing_starts initialModel fresh_world)
    (repeat (finishes 0) (2 * count_selected (dependencies initialModel) + 1))
  = (let m' := set_view Page4View
                 (set_installCount
                    (Z.of_nat (count_selected (dependencies initialModel)))
                    (set_dependencies
                       ((fun d => if selected d then set_installed true d
                                  else d) <$> dependencies initialModel)
                       initialModel)) in
     mkSys m' [[call_runAudit m']] fresh_world Running).
Proof.
  apply (sequencer_installs_selected initialModel fresh_world).
  - apply idle_initial.
  - reflexivity.
  - vm_compute. discriminate.
  - intros args dir. reflexivity.
Defined.

Lemma cancel_is_never_lost_witness :
  exists n,
    pending (run (boot fresh_world)
               (key_pressed (key KeyEsc) :: until_setup ++ [finishes 1]))
      !! n = Some [tea_Quit]
    /\ step (run (boot fresh_world)
               (key_pressed (key KeyEsc) :: until_setup ++ [finishes 1]))
         (finishes n)
       = mkSys (model (run (boot fresh_world)
                         (key_pressed (key KeyEsc)
                          :: until_setup ++ [finishes 1])))
           (delete n (pending (run (boot fresh_world)
                                 (key_pressed (key KeyEsc)
                                  :: until_setup ++ [finishes 1]))))
           (world (run (boot fresh_world)
                     (key_pressed (key KeyEsc)
                      :: until_setup ++ [finishes 1]))) Exited.
Proof.
  apply (cancel_is_never_lost (boot fresh_world) (key KeyEsc)
           (until_setup ++ [finishes 1])).
  - reflexivity.
  - reflexivity.
  - vm_compute. reflexivity.
Defined.

Lemma expansion_then_installs_witness :
  let ds := implied_by (dependencies without_files) in
  let r := (count_selected (dependencies without_files) + length ds)%nat in
  ds = implied_by (dependencies without_files)
  /\ exists m',
       run (expansion_starts without_files demo_world)
         (finishes 0 :: repeat (finishes 0) (2 * r + 1))
       = mkSys m' [[call_runAudit m']] demo_world Running
       /\ view m' = Page4View
       /\ installCount m' = Z.of_nat r
       /\ length (dependencies m')
          = (length (dependencies without_files) + length ds)%nat.
Proof.
  intros ds.
  apply (expansion_then_installs without_files demo_world demo_world ds).
  - vm_compute. reflexivity.
  - unfold without_files. cbn [dependencies set_view set_projectPath
                                 set_dependencies].
    repeat (apply Forall_cons; split); try apply Forall_nil;
      first [exact I|by split].
  - reflexivity.
  - vm_compute. discriminate.
  - intros args dir. vm_compute. reflexivity.
Defined.

Lemma setupProject_blocked_witness :
  setupProject notes_model notes_world
  = (ErrorMsg (path_conflict (path_Join ["/home/user"; textinput notes_model])),
     notes_world).
Proof.
  apply (proj2 (setupProject_blocked notes_model notes_world) "/home/user"
           ["home"; "user"; "notes"; "demo"]).
  - reflexivity.
  - vm_compute. reflexivity.
  - vm_compute. reflexivity.
Defined.

Lemma setupProject_files_witness :
  exists c,
    cwd fresh_world = Some c
    /\ "/home/user/demo" = path_Join [c; textinput demo_model]
    /\ os_Open fresh_world "/home/user/demo" = ErrNotExist
    /\ is_directory demo_world (path_Join ["/home/user/demo"; "src"]) = true
    /\ read_file demo_world (path_Join ["/home/user/demo"; "package.json"])
       = Some (MarshalIndent
                 (PackageData (generatePackageJSON (textinput demo_model))))
    /\ read_file demo_world (path_Join ["/home/user/demo"; "tsconfig.json"])
       = Some (MarshalIndent (TsconfigData generateTsconfigJSON)).
Proof.
  apply (setupProject_files demo_model fresh_world demo_world
           "/home/user/demo").
  apply injective_projections; [vm_compute; reflexivity|reflexivity].
Defined.

Lemma no_index_out_of_range_witness :
  status (run (boot fresh_world) session) <> Panicked
  /\ 0 <= cursor (model (run (boot fresh_world) session))
       < len (dependencies (model (run (boot fresh_world) session))).
Proof.
  apply (no_index_out_of_range fresh_world session).
  vm_compute. reflexivity.
Defined.

Lemma failed_setup_leaves_directory_witness :
  os_Open lint_dir_world "/home/user/demo" = ErrNotExist
  /\ is_directory (snd (setupProject demo_model lint_dir_world))
       (path_Join ["/home/user/demo"; "src"]) = true.
Proof.
  apply (failed_setup_leaves_directory demo_model lint_dir_world
           (snd (getProjectPath (textinput demo_model) lint_dir_world))
           (snd (setupProject demo_model lint_dir_world))
           "/home/user/demo" "open eslintrc.cjs: is a directory").
  - apply injective_projections; [vm_compute; reflexivity|reflexivity].
  - apply injective_projections; [vm_compute; reflexivity|reflexivity].
Defined.

Lemma empty_name_fails_witness :
  let s := run (boot fresh_world)
             [key_pressed (key KeyEnter); finishes 0; finishes 0] in
  status s = Exited
  /\ error (model s) = path_conflict (path_Clean "/home/user")
  /\ world s = fresh_world.
Proof.
  apply (empty_name_fails fresh_world "/home/user").
  - reflexivity.
  - discriminate.
  - vm_compute. reflexivity.
Defined.
